(** * EmailLabeller: the evidence-span engine of [EmailIntentVisualizer]

  A shallow embedding of the evidence-span mapping and editing logic of
  [src/EmailIntentVisualizer.jsx] (and of the second copy of the component
  that ships with it), together with the properties its specification
  states about it.

  Conventions of the embedding.
  - A JavaScript string is a [string]; an offset or a pixel coordinate is
    a [Z]; a property that may be [undefined] is an [option].
  - React state is passed explicitly: a handler is a function from the
    state it closes over to the state after the queued setters have run.
  - Services the repository calls but does not define ([document.evaluate],
    the HTML parser, [DOMPurify.sanitize], [Date.now], the feedback
    callback) are parameters of the functions that call them.
  - The definitions come first, module by module; the properties follow. *)

From Stdlib Require Import ZArith String Ascii List Bool Lia.
From stdpp Require Import gmap strings list fin_maps pretty.

Local Open Scope Z_scope.
Local Open Scope string_scope.

(** ** JavaScript string primitives *)

Module Js.

Definition len (s : string) : Z := Z.of_nat (String.length s).

Definition clamp (n : Z) (s : string) : Z := Z.max 0 (Z.min n (len s)).

(** [s.substring(a, b)]: both ends are clamped into [0, s.length] and
    swapped when [a > b]. *)
Definition substring (s : string) (a b : Z) : string :=
  let a' := clamp a s in
  let b' := clamp b s in
  let lo := Z.min a' b' in
  let hi := Z.max a' b' in
  String.substring (Z.to_nat lo) (Z.to_nat (hi - lo)) s.

(** [s.substring(a)] *)
Definition substring_from (s : string) (a : Z) : string :=
  substring s a (len s).

(** [s.indexOf(t)], [-1] when [t] does not occur. *)
Definition indexOf (s t : string) : Z :=
  match String.index 0 t s with
  | Some n => Z.of_nat n
  | None => -1
  end.

(** [s.includes(t)] *)
Definition includes (s t : string) : bool :=
  match String.index 0 t s with
  | Some _ => true
  | None => false
  end.

(** [s.startsWith(p)] *)
Definition startsWith (s p : string) : bool := String.prefix p s.

(** [s.replace(pat, rep)] with a string pattern: the first occurrence
    only. *)
Definition replace (s pat rep : string) : string :=
  match String.index 0 pat s with
  | Some n =>
      String.substring 0 n s ++ rep ++
      String.substring (n + String.length pat)
                       (String.length s - (n + String.length pat)) s
  | None => s
  end.

(** White space removed by [String.prototype.trim], for the code units
    below 256: TAB, LF, VT, FF, CR, SPACE and NBSP. *)
Definition is_space (c : ascii) : bool :=
  let n := nat_of_ascii c in
  ((9 <=? n)%nat && (n <=? 13)%nat) || (n =? 32)%nat || (n =? 160)%nat.

Fixpoint trim_start (s : string) : string :=
  match s with
  | String c s' => if is_space c then trim_start s' else s
  | EmptyString => EmptyString
  end.

Fixpoint trim_end (s : string) : string :=
  match s with
  | String c s' =>
      match trim_end s' with
      | EmptyString => if is_space c then EmptyString else String c EmptyString
      | r => String c r
      end
  | EmptyString => EmptyString
  end.

Definition trim (s : string) : string := trim_end (trim_start s).

(** Truthiness of a string-valued property: [undefined] and [''] are
    falsy. *)
Definition truthy (o : option string) : bool :=
  match o with
  | Some s => negb (s =? "")%string
  | None => false
  end.

(** [o || d] for a string-valued property. *)
Definition or_else (o : option string) (d : string) : string :=
  match o with
  | Some s => if (s =? "")%string then d else s
  | None => d
  end.

End Js.

(** ** JavaScript values and objects

    An evidence span is a plain object read from JSON and copied with the
    spread operator, so it is a finite map from property names to values.
    Numbers are the integers (offsets, pixel counts, clock readings);
    [VNaN] is what arithmetic on a missing operand yields. A key that is
    absent reads as [undefined]. *)

Inductive value : Type :=
| VNum (z : Z)
| VStr (s : string)
| VNaN.

#[global] Instance value_eq_dec : EqDecision value.
Proof. solve_decision. Defined.

Abbreviation obj := (gmap string value).

Module Obj.

(** [a === b] on two property reads. *)
Definition strict_eq (a b : option value) : bool :=
  match a, b with
  | Some VNaN, _ | _, Some VNaN => false
  | _, _ => bool_decide (a = b)
  end.

(** [{...a, ...b}] *)
Definition spread (a b : obj) : obj := b ∪ a.

Definition str (o : obj) (k : string) : option string :=
  match o !! k with
  | Some (VStr s) => Some s
  | _ => None
  end.

Definition num (o : obj) (k : string) : option Z :=
  match o !! k with
  | Some (VNum z) => Some z
  | _ => None
  end.

(** [a + b] where [b] is a number. *)
Definition add (a : option value) (b : Z) : value :=
  match a with
  | Some (VNum z) => VNum (z + b)
  | Some (VStr s) => VStr (s ++ pretty b)
  | _ => VNaN
  end.

End Obj.

(** ** The DOM fragment the component builds and walks *)

#[warnings="-register-all"]
Inductive node : Type :=
| Text (data : string)
| Elem (tag : string) (attrs : list (string * string)) (childNodes : list node).

(** First value of an attribute, as [getAttribute] / [dataset] read it. *)
Fixpoint attr (k : string) (l : list (string * string)) : option string :=
  match l with
  | [] => None
  | (k', v) :: l' => if (k =? k')%string then Some v else attr k l'
  end.

Definition node_attr (k : string) (n : node) : option string :=
  match n with
  | Text _ => None
  | Elem _ a _ => attr k a
  end.

(** ** Overlay Renderer: the highlight elements *)

Module Overlay.

(** What a callback of the component closes over. *)
Record env := {
  readOnly : bool;
  editMode : bool
}.

Definition tooltip (spanType : string) (fieldName : option string) : string :=
  if (spanType =? "intent")%string then "Intent Evidence"
  else if (spanType =? "action")%string then "Action Evidence"
  else if (spanType =? "artefact_type")%string then "Artefact Type Evidence"
  else if (spanType =? "artefact_detail")%string
       then "Artefact Detail: " ++ Js.or_else fieldName ""
  else "".

Definition resize_handle (which : string) : node :=
  Elem "span"
       [("class", "resize-handle " ++ which);
        ("title", "Drag to adjust " ++ which ++ " position");
        ("data-handle-type", which)]
       [].

(** [createSpanElement(text, isActive, spanId, spanType, fieldName)] of
    EmailIntentVisualizer.jsx; [e] is the environment the callback
    captured. *)
Definition createSpanElement (e : env) (text : string) (isActive : bool)
    (spanId spanType : string) (fieldName : option string) : node :=
  Elem "span"
       [("class", "evidence-span evidence-" ++ spanType ++ " " ++
                  (if isActive then "active" else ""));
        ("data-span-id", spanId);
        ("data-span-type", spanType);
        ("data-field-name", Js.or_else fieldName "");
        ("data-clickable", if negb (editMode e) then "true" else "false");
        ("title", tooltip spanType fieldName);
        ("data-span-text", text)]
       (if editMode e && isActive
        then [resize_handle "start"; Text text; resize_handle "end"]
        else [Text text]).

(** The environment [createSpanElement] sees: the callback is memoised
    with an empty dependency list, so it is the closure of the first
    render, in which [editMode] has its initial value [false]. *)
Definition captured (readOnly : bool) : env :=
  {| readOnly := readOnly; editMode := false |}.

(** The span data the overlay builders of the second component read. *)
Record overlay_span := {
  o_type : option string;
  o_field : option string;
  o_start : option Z;
  o_end : option Z;
  o_text : option string
}.

(** [createOverlayForNode(node, span, spanId)] of the second component,
    for a node that exists. *)
Definition createOverlayForNode (e : env) (s : overlay_span) (spanId : string)
  : node :=
  Elem "span"
       [("class", "evidence-overlay overlay-" ++ Js.or_else (o_type s) "default");
        ("data-span-id", spanId);
        ("data-span-type", Js.or_else (o_type s) "");
        ("data-field-name", Js.or_else (o_field s) "");
        ("data-clickable", if negb (readOnly e) then "true" else "false");
        ("style", "position:absolute;left:0;top:0;width:100%;height:100%")]
       [].

(** [createTextOverlay(span, spanId)] of the second component. *)
Definition createTextOverlay (e : env) (s : overlay_span) (spanId : string)
  : option node :=
  match o_start s, o_end s with
  | Some a, Some b =>
      Some (Elem "span"
             [("class", "text-evidence-overlay overlay-" ++
                        Js.or_else (o_type s) "default");
              ("data-span-id", spanId);
              ("data-span-type", Js.or_else (o_type s) "");
              ("data-field-name", Js.or_else (o_field s) "");
              ("data-start", pretty a);
              ("data-end", pretty b);
              ("data-clickable", if negb (readOnly e) then "true" else "false")]
             [Text (Js.or_else (o_text s) "")])
  | _, _ => None
  end.

Definition clickable (n : node) : option string := node_attr "data-clickable" n.

End Overlay.

(** ** Selection Capture: dragging a boundary handle

    The closure variables [isDragging], [activeHandle] and
    [originalSpanData] of the listener effect are the drag state; the text
    node under the dragged element is carried inside [originalSpanData], as
    the source keeps the reference there. *)

Module Drag.

Inductive handleType : Type := start | end_.

(** [originalSpanData]: what [handleDragStart] reads off the element's
    [dataset], plus the two offsets [handleDragEnd] looks for. *)
Record spanData := {
  spanId : string;
  spanType : string;
  fieldName : string;
  spanText : string;
  initialX : Z;
  textNode : option string;
  newStartOffset : option Z;
  newEndOffset : option Z
}.

Record dragState := {
  isDragging : bool;
  activeHandle : option handleType;
  originalSpanData : option spanData;
  resizing_evidence : bool
}.

Definition idle : dragState :=
  {| isDragging := false; activeHandle := None; originalSpanData := None;
     resizing_evidence := false |}.

(** The highlighted element a handle sits in. *)
Record spanElement := {
  ds_spanId : string;
  ds_spanType : string;
  ds_fieldName : string;
  ds_spanText : string;
  ds_textNode : option string
}.

Inductive target : Type :=
| Handle (h : handleType) (parentSpan : option spanElement)
| Other.

Record mouseEvent := {
  ev_target : target;
  clientX : Z
}.

Definition approxCharWidth : Z := 8.

(** [Math.round(x / 8)] for an integer [x]: halves round up. *)
Definition charDiff (xDiff : Z) : Z :=
  (2 * xDiff + approxCharWidth) / (2 * approxCharWidth).

Definition handleDragStart (editMode : bool) (e : mouseEvent) (st : dragState)
  : dragState :=
  if negb editMode then st
  else match ev_target e with
       | Other => st
       | Handle h None =>
           {| isDragging := true; activeHandle := Some h;
              originalSpanData := originalSpanData st;
              resizing_evidence := resizing_evidence st |}
       | Handle h (Some p) =>
           {| isDragging := true; activeHandle := Some h;
              originalSpanData :=
                Some {| spanId := ds_spanId p; spanType := ds_spanType p;
                        fieldName := ds_fieldName p; spanText := ds_spanText p;
                        initialX := clientX e; textNode := ds_textNode p;
                        newStartOffset := None; newEndOffset := None |};
              resizing_evidence := true |}
       end.

Definition set_nodeValue (d : spanData) (v : string) : spanData :=
  {| spanId := spanId d; spanType := spanType d; fieldName := fieldName d;
     spanText := spanText d; initialX := initialX d;
     textNode := match textNode d with Some _ => Some v | None => None end;
     newStartOffset := newStartOffset d; newEndOffset := newEndOffset d |}.

Definition set_newStartOffset (d : spanData) (n : Z) : spanData :=
  {| spanId := spanId d; spanType := spanType d; fieldName := fieldName d;
     spanText := spanText d; initialX := initialX d; textNode := textNode d;
     newStartOffset := Some n; newEndOffset := newEndOffset d |}.

Definition set_newEndOffset (d : spanData) (n : Z) : spanData :=
  {| spanId := spanId d; spanType := spanType d; fieldName := fieldName d;
     spanText := spanText d; initialX := initialX d; textNode := textNode d;
     newStartOffset := newStartOffset d; newEndOffset := Some n |}.

(** [handleDrag(e)]. The result pairs the drag state after the handler with
    its local [spanData], the spread copy of [originalSpanData] on which the
    handler stores the new offset; the copy goes out of scope when the
    handler returns. *)
Definition handleDrag_local (e : mouseEvent) (st : dragState)
  : dragState * option spanData :=
  match isDragging st, activeHandle st, originalSpanData st with
  | true, Some h, Some d =>
      let xDiff := clientX e - initialX d in
      let k := charDiff xDiff in
      let text := spanText d in
      match h with
      | start =>
          let newStart := Z.max 0 (Z.min k (Js.len text - 1)) in
          let newText := Js.substring_from text newStart in
          ({| isDragging := true; activeHandle := Some h;
              originalSpanData := Some (set_nodeValue d newText);
              resizing_evidence := resizing_evidence st |},
           Some (set_newStartOffset d newStart))
      | end_ =>
          let newEnd := Z.max 1 (Z.min (Js.len text) (Js.len text - k)) in
          let newText := Js.substring text 0 newEnd in
          ({| isDragging := true; activeHandle := Some h;
              originalSpanData := Some (set_nodeValue d newText);
              resizing_evidence := resizing_evidence st |},
           Some (set_newEndOffset d newEnd))
      end
  | _, _, _ => (st, None)
  end.

Definition handleDrag (e : mouseEvent) (st : dragState) : dragState :=
  fst (handleDrag_local e st).

(** The span [handleDragEnd] builds from the prediction's span. *)
Definition updatedSpan (h : handleType) (d : spanData) (originalSpan : obj) : obj :=
  match h, newStartOffset d, newEndOffset d with
  | start, Some n, _ =>
      <["text" := VStr (Js.substring_from (spanText d) n)]>
        (<["relative_start" := Obj.add (originalSpan !! "relative_start") n]>
           originalSpan)
  | end_, _, Some n =>
      <["text" := VStr (Js.substring (spanText d) 0 n)]>
        (<["relative_end" := Obj.add (originalSpan !! "relative_start") n]>
           originalSpan)
  | _, _, _ => originalSpan
  end.

(** [handleDragEnd()]. [evidence_spans] is the selected prediction's list;
    the second component is the argument of [setHighlightedText] when the
    handler calls it (it then also opens the edit panel). *)
Definition handleDragEnd (evidence_spans : list obj) (st : dragState)
  : dragState * option obj :=
  match isDragging st, activeHandle st, originalSpanData st with
  | true, Some h, Some d =>
      (idle,
       match List.find
               (fun s => Obj.strict_eq (s !! "id") (Some (VStr (spanId d))))
               evidence_spans with
       | Some originalSpan => Some (updatedSpan h d originalSpan)
       | None => None
       end)
  | _, _, _ => (st, None)
  end.

(** Press on a handle at [x0], move to [x1], release. *)
Definition gesture (editMode : bool) (evidence_spans : list obj)
    (h : handleType) (p : spanElement) (x0 x1 : Z) : dragState * option obj :=
  let down := {| ev_target := Handle h (Some p); clientX := x0 |} in
  let move := {| ev_target := Other; clientX := x1 |} in
  handleDragEnd evidence_spans
    (handleDrag move (handleDragStart editMode down idle)).

End Drag.

(** ** Text Locator: the character range of one span inside a text node *)

Module Locator.

(** [span.relative_start || 0], for a span read from JSON whose offsets
    are numbers when they are present. *)
Definition offset_or_zero (span : obj) (k : string) : Z :=
  match Obj.num span k with
  | Some z => z
  | None => 0
  end.

(** The content-based search that overrides the declared offsets: the
    text itself, then the trimmed text, then a prefix of at most 15
    characters of a trimmed text longer than 5. [r] is the range computed
    from the declared offsets. *)
Definition search (textContent : string) (text : option string) (r : Z * Z)
  : Z * Z :=
  match text with
  | Some t =>
      if (t =? "")%string then r
      else if Js.includes textContent t
      then (Js.indexOf textContent t, Js.indexOf textContent t + Js.len t)
      else
        let trimmedText := Js.trim t in
        if Js.includes textContent trimmedText
        then (Js.indexOf textContent trimmedText,
              Js.indexOf textContent trimmedText + Js.len trimmedText)
        else if (Js.len trimmedText >? 5)%Z
        then
          let partialText :=
            Js.substring trimmedText 0 (Z.min (Js.len trimmedText) 15) in
          if Js.includes textContent partialText
          then (Js.indexOf textContent partialText,
                Js.indexOf textContent partialText + Js.len partialText)
          else r
        else r
  | None => r
  end.

(** The range [applyHighlights] highlights in a text node whose content is
    [textContent], or [None] when the span is skipped. *)
Definition locate (textContent : string) (span : obj) : option (Z * Z) :=
  let n := Js.len textContent in
  let relStart := Z.max 0 (offset_or_zero span "relative_start") in
  let relEnd :=
    match Obj.num span "relative_end" with
    | Some e => e
    | None =>
        match Obj.str span "text" with
        | Some t => if (t =? "")%string then n else relStart + Js.len t
        | None => n
        end
    end in
  let relStart := Z.min relStart n in
  let relEnd := Z.min relEnd n in
  let '(relStart, relEnd) :=
    search textContent (Obj.str span "text") (relStart, relEnd) in
  if ((relStart >=? relEnd) || (relEnd <=? 0) || (relEnd >? n))%Z
  then None
  else Some (relStart, relEnd).

End Locator.

(** ** XPath Resolver *)

Module Resolver.

(** What [document.evaluate] does with one expression and one context
    node: it selects a node, selects nothing, or raises. *)
Inductive eval_result (R : Type) : Type :=
| Hit (r : R)
| Miss
| Throws.
Arguments Hit {R} r.
Arguments Miss {R}.
Arguments Throws {R}.

(** The two context nodes [applyHighlights] evaluates against. *)
Inductive context : Type := element | document.

(** [`${v}`] *)
Definition to_string (v : option value) : string :=
  match v with
  | Some (VStr s) => s
  | Some (VNum z) => pretty z
  | Some VNaN => "NaN"
  | None => "undefined"
  end.

Definition is_digit (c : ascii) : bool :=
  let n := nat_of_ascii c in ((48 <=? n)%nat && (n <=? 57)%nat).

(** The longest prefix of decimal digits, and what follows it. *)
Fixpoint take_digits (s : string) : string * string :=
  match s with
  | String c s' =>
      if is_digit c
      then let '(d, r) := take_digits s' in (String c d, r)
      else (EmptyString, s)
  | EmptyString => (EmptyString, EmptyString)
  end.

Fixpoint drop (n : nat) (s : string) : string :=
  match n, s with
  | O, _ => s
  | S n', String _ s' => drop n' s'
  | S _, EmptyString => EmptyString
  end.

(** A match of [tag\[(\d+)\]] at the very start of [s]: the digits and
    the rest of the string. *)
Definition index_at (tag s : string) : option (string * string) :=
  if String.prefix (tag ++ "[") s
  then
    let '(d, r) := take_digits (drop (String.length tag + 1) s) in
    if (d =? "")%string then None
    else match r with
         | String "]" r' => Some (d, r')
         | _ => None
         end
  else None.

(** [s.match(/tag\[(\d+)\]/)]: the digits of the leftmost match. *)
Fixpoint first_index (tag s : string) : option string :=
  match index_at tag s with
  | Some (d, _) => Some d
  | None =>
      match s with
      | String _ s' => first_index tag s'
      | EmptyString => None
      end
  end.

(** [/tr\[(\d+)\]\/td\[(\d+)\]/.test(s)] *)
Fixpoint test_tr_td (s : string) : bool :=
  match index_at "tr" s with
  | Some (_, String "/" r) =>
      match index_at "td" r with
      | Some _ => true
      | None => match s with
                | String _ s' => test_tr_td s'
                | EmptyString => false
                end
      end
  | _ => match s with
         | String _ s' => test_tr_td s'
         | EmptyString => false
         end
  end.

(** [parseInt] of a non-empty string of decimal digits. *)
Definition parseInt (d : string) : N :=
  fold_left (fun acc c => (10 * acc + N.of_nat (nat_of_ascii c - 48))%N)
            (list_ascii_of_string d) 0%N.

(** [[...new Set(l)]]: the first occurrence of each string, in order. *)
Fixpoint dedup_from (seen l : list string) : list string :=
  match l with
  | [] => []
  | x :: l' =>
      if bool_decide (x ∈ seen) then dedup_from seen l'
      else x :: dedup_from (x :: seen) l'
  end.

Definition dedup (l : list string) : list string := dedup_from [] l.

(** The table-cell expressions pushed for a path under [/html/body] that
    mentions [table]. *)
Definition table_variations (xpath : string) (text : option value)
  : list string :=
  if Js.includes xpath "table"
  then
    ("//table//tr//td[contains(text(), '" ++ to_string text ++ "')]")
    :: (if test_tr_td xpath
        then match first_index "tr" xpath, first_index "td" xpath with
             | Some tr, Some td =>
                 ["//table/tr[" ++ pretty (parseInt tr) ++ "]/td[" ++
                  pretty (parseInt td) ++ "]"]
             | _, _ => []
             end
        else [])
  else [].

Definition simplePath (xpath : string) : string :=
  let p := if Js.startsWith xpath "/html/body"
           then Js.replace xpath "/html/body" "" else xpath in
  let p := if (p =? "")%string then "." else p in
  if Js.startsWith p "/" then Js.substring_from p 1 else p.

(** [xpathVariations] of [applyHighlights], before the duplicates are
    removed. *)
Definition xpathVariations_raw (xpath : string) (text : option value)
  : list string :=
  (if Js.startsWith xpath "/html/body"
   then Js.replace xpath "/html/body" "" :: table_variations xpath text
   else [])
  ++ (if Js.startsWith xpath "/html"
      then [Js.replace xpath "/html" ""] else [])
  ++ [simplePath xpath; xpath].

Definition xpathVariations (xpath : string) (text : option value)
  : list string :=
  dedup (xpathVariations_raw xpath text).

(** One turn of the loop over the variations: the wrapper element first,
    the whole document next; an exception abandons the variation. *)
Definition tryOne {R} (evaluate : string -> context -> eval_result R)
    (xpathToTry : string) : option R :=
  match evaluate xpathToTry element with
  | Hit r => Some r
  | Throws => None
  | Miss =>
      match evaluate xpathToTry document with
      | Hit r => Some r
      | _ => None
      end
  end.

Fixpoint tryVariations {R} (evaluate : string -> context -> eval_result R)
    (vs : list string) : option R :=
  match vs with
  | [] => None
  | v :: vs' =>
      match tryOne evaluate v with
      | Some r => Some r
      | None => tryVariations evaluate vs'
      end
  end.

(** The target node of one span in [applyHighlights]; a span whose
    [xpath] is not a string makes the method call raise, and the span is
    skipped. *)
Definition resolve {R} (evaluate : string -> context -> eval_result R)
    (span : obj) : option R :=
  match span !! "xpath" with
  | Some (VStr xpath) =>
      tryVariations evaluate (xpathVariations xpath (span !! "text"))
  | _ => None
  end.

(** *** The second component: [normalizeXPath] and [getElementByXPath] *)

Record xpathObj := {
  original : string;
  simplified : string;
  variations : list string
}.

(** [normalizeXPath(xpath)] for a non-empty path. *)
Definition normalizeXPath (xpath : string) : xpathObj :=
  {| original := xpath;
     simplified :=
       (let p := if Js.startsWith xpath "/html/body"
                 then Js.replace xpath "/html/body" "" else xpath in
        if (p =? "")%string then "." else p);
     variations :=
       (if Js.startsWith xpath "/html/body"
        then [Js.replace xpath "/html/body" ""] else [])
       ++ (if Js.startsWith xpath "/html"
           then [Js.replace xpath "/html" ""] else []) |}.

(** [evaluate_all e] is the snapshot of [e] against the context node, or
    [None] when the evaluation raises. *)
Fixpoint tryAll {R} (evaluate_all : string -> option (list R))
    (vs : list string) : list R :=
  match vs with
  | [] => []
  | v :: vs' =>
      match evaluate_all v with
      | None => []
      | Some [] => tryAll evaluate_all vs'
      | Some l => l
      end
  end.

(** [getElementByXPath(xpathObj, contextNode)]: one [try] encloses the
    three stages, so an exception ends the search with nothing. *)
Definition getElementByXPath {R} (evaluate_all : string -> option (list R))
    (x : xpathObj) : list R :=
  tryAll evaluate_all (original x :: simplified x :: variations x).

(** *** The order of the specification

    The candidate order as section 4.1 words it: the path verbatim, the
    path without the document root, the path without document root and
    body. *)
Definition spec_candidates (xpath : string) : list string :=
  [xpath;
   if Js.startsWith xpath "/html" then Js.replace xpath "/html" "" else xpath;
   if Js.startsWith xpath "/html/body"
   then Js.replace xpath "/html/body" "" else xpath].

Definition spec_resolve {R} (evaluate : string -> context -> eval_result R)
    (span : obj) : option R :=
  match span !! "xpath" with
  | Some (VStr xpath) => tryVariations evaluate (spec_candidates xpath)
  | _ => None
  end.

End Resolver.

(** ** Visualizer Controller and Correction Ledger

    The prediction objects of [apiResponse] and the ledger share span
    objects and hold arrays by reference, so both live in one store: an
    array is a list of object addresses, [evidence_spans] is the address
    of an array. Allocation appends to the store. *)

Module Controller.

Definition loc := nat.

Record heap := {
  objs : list obj;
  arrays : list (list loc)
}.

Definition obj_at (h : heap) (l : loc) : obj := default ∅ (objs h !! l).

Definition array_at (h : heap) (a : loc) : list loc := default [] (arrays h !! a).

(** The objects an array holds, in order. *)
Definition spans_of (h : heap) (a : loc) : list obj := obj_at h <$> array_at h a.

(** A prediction: its key, its scalar properties, its evidence array. *)
Record prediction := {
  prediction_id : string;
  props : obj;
  evidence_spans : loc
}.

(** One value of [feedbackData]. *)
Record correction := {
  c_prediction_id : string;
  corrected_value : prediction
}.

#[global] Instance prediction_eq_dec : EqDecision prediction.
Proof. solve_decision. Defined.

#[global] Instance correction_eq_dec : EqDecision correction.
Proof. solve_decision. Defined.

(** [activeSpan] holds a span object of the selected prediction, or, set
    by the click listener outside edit mode, the element's span id. *)
Inductive active : Type :=
| span_ref (l : loc)
| span_id (s : string).

Record state := {
  selectedPrediction : option prediction;
  activeSpan : option active;
  editMode : bool;
  feedbackData : gmap string correction;
  highlightedText : option obj;
  editPanelVisible : bool;
  selectionMode : bool;
  store : heap
}.

(** The component as mounted on an [apiResponse] whose objects are [h]. *)
Definition init (h : heap) : state :=
  {| selectedPrediction := None; activeSpan := None; editMode := false;
     feedbackData := ∅; highlightedText := None; editPanelVisible := false;
     selectionMode := false; store := h |}.

(** [activeSpan.k] *)
Definition read_active (h : heap) (a : active) (k : string) : option value :=
  match a with
  | span_ref l => obj_at h l !! k
  | span_id _ => None
  end.

(** [o.k = v] in an object literal or an assignment, where [v] may be
    [undefined]. *)
Definition set_prop (k : string) (v : option value) (o : obj) : obj :=
  match v with
  | Some x => <[k := x]> o
  | None => delete k o
  end.

(** [l.findIndex(p)], [None] for [-1]. *)
Fixpoint findIndex {A} (p : A -> bool) (l : list A) : option nat :=
  match l with
  | [] => None
  | x :: l' => if p x then Some O else S <$> findIndex p l'
  end.

Definition alloc_obj (o : obj) (h : heap) : loc * heap :=
  (length (objs h), {| objs := (objs h ++ [o])%list; arrays := arrays h |}).

Definition alloc_array (l : list loc) (h : heap) : loc * heap :=
  (length (arrays h), {| objs := objs h; arrays := (arrays h ++ [l])%list |}).

(** [arr[i] = l] on an index inside the array. *)
Definition array_set (a : loc) (i : nat) (l : loc) (h : heap) : heap :=
  {| objs := objs h; arrays := <[a := <[i := l]> (array_at h a)]> (arrays h) |}.

(** [arr.push(l)] *)
Definition array_push (a : loc) (l : loc) (h : heap) : heap :=
  {| objs := objs h; arrays := <[a := (array_at h a ++ [l])%list]> (arrays h) |}.

(** The identity test of [findIndex] in [applySpanEdit]: path and
    relative offsets for HTML, absolute offsets for plain text. *)
Definition same_span (isHtmlContent : bool) (h : heap) (a : active) (o : obj)
  : bool :=
  if isHtmlContent
  then Obj.strict_eq (o !! "xpath") (read_active h a "xpath")
       && Obj.strict_eq (o !! "relative_start") (read_active h a "relative_start")
       && Obj.strict_eq (o !! "relative_end") (read_active h a "relative_end")
  else Obj.strict_eq (o !! "start") (read_active h a "start")
       && Obj.strict_eq (o !! "end") (read_active h a "end").

(** The correction pushed for a span edited for the first time. *)
Definition back_reference (isHtmlContent : bool) (h : heap) (a : active)
    (now : Z) (candidate : obj) : obj :=
  if isHtmlContent
  then set_prop "original_relative_end" (read_active h a "relative_end")
         (set_prop "original_relative_start" (read_active h a "relative_start")
            (set_prop "original_xpath" (read_active h a "xpath")
               (<["id" := VStr ("corrected-" ++ pretty now)]> candidate)))
  else set_prop "original_end" (read_active h a "end")
         (set_prop "original_start" (read_active h a "start")
            (<["id" := VStr ("corrected-" ++ pretty now)]> candidate)).

(** The first step of [applySpanEdit]: the ledger entry of prediction
    [p], created with a copy of the evidence array when it is missing. *)
Definition ensure_entry (p : prediction) (fb : gmap string correction)
    (h : heap) : gmap string correction * heap * loc :=
  match fb !! prediction_id p with
  | Some c => (fb, h, evidence_spans (corrected_value c))
  | None =>
      let '(a, h') := alloc_array (array_at h (evidence_spans p)) h in
      (<[prediction_id p :=
           {| c_prediction_id := prediction_id p;
              corrected_value :=
                {| prediction_id := prediction_id p; props := props p;
                   evidence_spans := a |} |}]> fb,
       h', a)
  end.

(** The second step: the write into the entry's array [a]. *)
Definition write_edit (isHtmlContent : bool) (now : Z)
    (activeSpan : option active) (candidate : obj) (a : loc) (h : heap)
  : heap :=
  match activeSpan with
  | Some act =>
      match findIndex (same_span isHtmlContent h act) (spans_of h a) with
      | Some i =>
          let old := default ∅ (spans_of h a !! i) in
          let '(l, h') := alloc_obj (Obj.spread old candidate) h in
          array_set a i l h'
      | None =>
          let '(l, h') :=
            alloc_obj (back_reference isHtmlContent h act now candidate) h in
          array_push a l h'
      end
  | None =>
      let '(l, h') :=
        alloc_obj (<["id" := VStr ("new-" ++ pretty now)]> candidate) h in
      array_push a l h'
  end.

(** [applySpanEdit()]; [now] is the reading of [Date.now()]. *)
Definition applySpanEdit (isHtmlContent : bool) (now : Z) (st : state) : state :=
  match selectedPrediction st, highlightedText st with
  | Some p, Some candidate =>
      let '(fb, h, a) := ensure_entry p (feedbackData st) (store st) in
      {| selectedPrediction := selectedPrediction st;
         activeSpan := None;
         editMode := false;
         feedbackData := fb;
         highlightedText := None;
         editPanelVisible := editPanelVisible st;
         selectionMode := selectionMode st;
         store := write_edit isHtmlContent now (activeSpan st) candidate a h |}
  | _, _ => st
  end.

(** [handlePredictionSelect(prediction)] *)
Definition handlePredictionSelect (p : prediction) (st : state) : state :=
  {| selectedPrediction := Some p; activeSpan := None; editMode := false;
     feedbackData := feedbackData st; highlightedText := highlightedText st;
     editPanelVisible := editPanelVisible st;
     selectionMode := selectionMode st; store := store st |}.

(** [handleSpanClick(span)] of the plain-text rendering. *)
Definition handleSpanClick (readOnly : bool) (l : loc) (st : state) : state :=
  if readOnly then st
  else {| selectedPrediction := selectedPrediction st;
          activeSpan := Some (span_ref l); editMode := true;
          feedbackData := feedbackData st;
          highlightedText := highlightedText st;
          editPanelVisible := editPanelVisible st;
          selectionMode := selectionMode st; store := store st |}.

(** [cancelSpanEdit()] *)
Definition cancelSpanEdit (st : state) : state :=
  {| selectedPrediction := selectedPrediction st;
     activeSpan := activeSpan st; editMode := false;
     feedbackData := feedbackData st; highlightedText := None;
     editPanelVisible := editPanelVisible st;
     selectionMode := false; store := store st |}.

(** [handleSpanMetadataChange(key, value)] *)
Definition handleSpanMetadataChange (key val : string) (st : state) : state :=
  match highlightedText st with
  | None => st
  | Some h =>
      {| selectedPrediction := selectedPrediction st;
         activeSpan := activeSpan st; editMode := editMode st;
         feedbackData := feedbackData st;
         highlightedText := Some (<[key := VStr val]> h);
         editPanelVisible := editPanelVisible st;
         selectionMode := selectionMode st; store := store st |}
  end.

(** The state setters the remaining handlers call with values they
    compute from the document ([handleEmailBodyClick], the click listener
    of a highlight, [handleDragEnd], [handleApplyTextSelection], the
    buttons of the edit panel). *)
Definition setActiveSpan (a : option active) (st : state) : state :=
  {| selectedPrediction := selectedPrediction st; activeSpan := a;
     editMode := editMode st; feedbackData := feedbackData st;
     highlightedText := highlightedText st;
     editPanelVisible := editPanelVisible st;
     selectionMode := selectionMode st; store := store st |}.

Definition setHighlightedText (h : option obj) (st : state) : state :=
  {| selectedPrediction := selectedPrediction st; activeSpan := activeSpan st;
     editMode := editMode st; feedbackData := feedbackData st;
     highlightedText := h; editPanelVisible := editPanelVisible st;
     selectionMode := selectionMode st; store := store st |}.

Definition setSelectionMode (b : bool) (st : state) : state :=
  {| selectedPrediction := selectedPrediction st; activeSpan := activeSpan st;
     editMode := editMode st; feedbackData := feedbackData st;
     highlightedText := highlightedText st;
     editPanelVisible := editPanelVisible st;
     selectionMode := b; store := store st |}.

Definition setEditPanelVisible (b : bool) (st : state) : state :=
  {| selectedPrediction := selectedPrediction st; activeSpan := activeSpan st;
     editMode := editMode st; feedbackData := feedbackData st;
     highlightedText := highlightedText st;
     editPanelVisible := b;
     selectionMode := selectionMode st; store := store st |}.

Definition setEditMode (b : bool) (st : state) : state :=
  {| selectedPrediction := selectedPrediction st; activeSpan := activeSpan st;
     editMode := b; feedbackData := feedbackData st;
     highlightedText := highlightedText st;
     editPanelVisible := editPanelVisible st;
     selectionMode := selectionMode st; store := store st |}.

(** How a call of [onFeedbackSubmit] ends: it returns, and what it started
    is later fulfilled or rejected, or it raises before returning. *)
Inductive outcome : Type := fulfils | rejects | throws.

(** [handleSubmitFeedback()]. The second component lists the arguments of
    the calls made to the sink [onFeedbackSubmit]. *)
Definition handleSubmitFeedback
    (onFeedbackSubmit : gmap string correction -> outcome) (st : state)
  : state * list (gmap string correction) :=
  if decide (size (feedbackData st) = 0%nat) then (st, [])
  else
    match onFeedbackSubmit (feedbackData st) with
    | throws => (st, [feedbackData st])
    | _ =>
        ({| selectedPrediction := None; activeSpan := None; editMode := false;
            feedbackData := ∅; highlightedText := highlightedText st;
            editPanelVisible := editPanelVisible st;
            selectionMode := selectionMode st; store := store st |},
         [feedbackData st])
    end.

(** What can happen to a mounted component. *)
Inductive event : Type :=
| select (p : prediction)
| click_plain (readOnly : bool) (l : loc)
| set_active (a : option active)
| set_highlighted (h : option obj)
| set_edit (b : bool)
| set_selection (b : bool)
| set_panel (b : bool)
| metadata (key val : string)
| apply (isHtmlContent : bool) (now : Z)
| cancel
| submit (onFeedbackSubmit : gmap string correction -> outcome).

Definition step (e : event) (st : state) : state :=
  match e with
  | select p => handlePredictionSelect p st
  | click_plain r l => handleSpanClick r l st
  | set_active a => setActiveSpan a st
  | set_highlighted h => setHighlightedText h st
  | set_edit b => setEditMode b st
  | set_selection b => setSelectionMode b st
  | set_panel b => setEditPanelVisible b st
  | metadata k v => handleSpanMetadataChange k v st
  | apply html now => applySpanEdit html now st
  | cancel => cancelSpanEdit st
  | submit sink => fst (handleSubmitFeedback sink st)
  end.

Definition run (es : list event) (st : state) : state :=
  fold_left (fun s e => step e s) es st.

(** The corrected spans the ledger holds for a prediction id. *)
Definition ledger_spans (st : state) (pid : string) : list obj :=
  match feedbackData st !! pid with
  | Some c => spans_of (store st) (evidence_spans (corrected_value c))
  | None => []
  end.

(** A corrected span is a correction of [s] when its back-reference
    carries the identity of [s]. *)
Definition corrects (isHtmlContent : bool) (s c : obj) : bool :=
  if isHtmlContent
  then Obj.strict_eq (c !! "original_xpath") (s !! "xpath")
       && Obj.strict_eq (c !! "original_relative_start") (s !! "relative_start")
       && Obj.strict_eq (c !! "original_relative_end") (s !! "relative_end")
  else Obj.strict_eq (c !! "original_start") (s !! "start")
       && Obj.strict_eq (c !! "original_end") (s !! "end").

Definition corrections_of (isHtmlContent : bool) (st : state) (pid : string)
    (s : obj) : list obj :=
  List.filter (corrects isHtmlContent s) (ledger_spans st pid).

(** [predictionFeedback.corrected_value.evidence_spans] as [applySpanEdit]
    finds it for the prediction [p]: the list of the ledger entry, or the
    fresh copy of the prediction's list. *)
Definition working_list (p : prediction) (st : state) : list obj :=
  let '(_, h, a) := ensure_entry p (feedbackData st) (store st) in
  spans_of h a.

End Controller.

(** ** The live document

    A node is addressed by the list of child indices that leads to it from
    the root element. *)

Module Dom.

Definition path := list nat.

Fixpoint get (n : node) (p : path) : option node :=
  match p with
  | [] => Some n
  | i :: p' =>
      match n with
      | Elem _ _ kids =>
          match kids !! i with
          | Some k => get k p'
          | None => None
          end
      | Text _ => None
      end
  end.

(** The children of the element at [p] become [ks] ([innerHTML = ''],
    [appendChild] on an emptied element). *)
Fixpoint set_kids (p : path) (ks : list node) (n : node) : node :=
  match p, n with
  | [], Elem t a _ => Elem t a ks
  | i :: p', Elem t a kids =>
      match kids !! i with
      | Some k => Elem t a (<[i := set_kids p' ks k]> kids)
      | None => n
      end
  | _, Text _ => n
  end.

(** The node at [p] is replaced, in its parent, by the nodes [new]
    ([replaceChild] followed by two [insertBefore]). *)
Fixpoint splice (p : path) (new : list node) (n : node) : node :=
  match p, n with
  | [i], Elem t a kids =>
      match kids !! i with
      | Some _ => Elem t a (take i kids ++ new ++ drop (S i) kids)%list
      | None => n
      end
  | i :: p', Elem t a kids =>
      match kids !! i with
      | Some k => Elem t a (<[i := splice p' new k]> kids)
      | None => n
      end
  | _, _ => n
  end.

Definition nonblank (s : string) : bool := negb (Js.trim s =? "")%string.

(** [findFirstTextNode(node)]: the first text node, in document order,
    whose trimmed content is not empty, as a path below [node]. *)
Fixpoint findFirstTextNode (n : node) : option path :=
  match n with
  | Text s => if nonblank s then Some [] else None
  | Elem _ _ kids =>
      (fix go (ks : list node) (i : nat) : option path :=
         match ks with
         | [] => None
         | k :: ks' =>
             match findFirstTextNode k with
             | Some p => Some (i :: p)
             | None => go ks' (S i)
             end
         end) kids O
  end.

(** [f] is applied to the node at [p]. *)
Fixpoint update (p : path) (f : node -> node) (n : node) : node :=
  match p with
  | [] => f n
  | i :: p' =>
      match n with
      | Elem t a kids =>
          match kids !! i with
          | Some k => Elem t a (<[i := update p' f k]> kids)
          | None => n
          end
      | Text _ => n
      end
  end.

Fixpoint concat_strings (l : list string) : string :=
  match l with
  | [] => EmptyString
  | s :: l' => s ++ concat_strings l'
  end.

(** [node.textContent] *)
Fixpoint textContent (n : node) : string :=
  match n with
  | Text s => s
  | Elem _ _ kids => concat_strings (textContent <$> kids)
  end.

(** The white space that separates the tokens of a [class] attribute. *)
Definition is_class_space (c : ascii) : bool :=
  let n := nat_of_ascii c in
  ((n =? 32) || (n =? 9) || (n =? 10) || (n =? 12) || (n =? 13))%nat.

Fixpoint class_tokens_from (cur : string) (s : string) : list string :=
  match s with
  | EmptyString => if (cur =? "")%string then [] else [cur]
  | String c s' =>
      if is_class_space c
      then (if (cur =? "")%string then [] else [cur])
           ++ class_tokens_from EmptyString s'
      else class_tokens_from (cur ++ String c EmptyString) s'
  end%list.

(** [n.matches('.' + c)] *)
Definition has_class (c : string) (n : node) : bool :=
  match node_attr "class" n with
  | Some v => bool_decide (c ∈ class_tokens_from EmptyString v)
  | None => false
  end.

(** An element carries the class [evidence-span] when
    [createSpanElement] made it. *)
Definition is_evidence_span (n : node) : bool :=
  match node_attr "class" n with
  | Some c => String.prefix "evidence-span " c
  | None => false
  end.

(** The highlighted texts of a tree, in document order. *)
Fixpoint highlights (n : node) : list string :=
  match n with
  | Text _ => []
  | Elem _ a kids =>
      ((if is_evidence_span n
        then [default "" (attr "data-span-text" a)] else [])
       ++ flat_map highlights kids)%list
  end.

(** The number of nodes of the tree that satisfy [p]. *)
Fixpoint count (p : node -> bool) (n : node) : nat :=
  ((if p n then 1 else 0)
   + match n with
     | Text _ => 0
     | Elem _ _ kids => list_sum (count p <$> kids)
     end)%nat.

(** Some element of the tree carries the attribute [k]. *)
Fixpoint has_attribute (k : string) (n : node) : bool :=
  match n with
  | Text _ => false
  | Elem _ a kids =>
      match attr k a with
      | Some _ => true
      | None => existsb (has_attribute k) kids
      end
  end.

(** The loop of [findFirstTextNode] over the children [ks], the first of
    which has the index [i]. *)
Definition findFirstTextNode_from (ks : list node) (i : nat) : option path :=
  (fix go (ks : list node) (i : nat) : option path :=
     match ks with
     | [] => None
     | k :: ks' =>
         match findFirstTextNode k with
         | Some p => Some (i :: p)
         | None => go ks' (S i)
         end
     end) ks i.

(** The text nodes of a tree, in document order, each with its path and
    its data. *)
Fixpoint text_nodes (n : node) : list (path * string) :=
  match n with
  | Text s => [([], s)]
  | Elem _ _ kids =>
      (fix go (ks : list node) (i : nat) : list (path * string) :=
         match ks with
         | [] => []
         | k :: ks' =>
             ((fun ps => (i :: fst ps, snd ps)) <$> text_nodes k) ++ go ks' (S i)
         end%list) kids O
  end.

(** The text nodes of the children [ks], the first of which has the index
    [i]. *)
Definition text_nodes_from (ks : list node) (i : nat) : list (path * string) :=
  (fix go (ks : list node) (i : nat) : list (path * string) :=
     match ks with
     | [] => []
     | k :: ks' =>
         ((fun ps => (i :: fst ps, snd ps)) <$> text_nodes k) ++ go ks' (S i)
     end%list) ks i.

End Dom.

(** ** A reference XPath evaluator

    [document.evaluate] belongs to the browser. To run the component on
    concrete documents this evaluator covers the expressions made of child
    steps [name] and [name\[k\]], absolute or relative, and [.]; the node
    it returns is the first in document order. Any other expression
    selects nothing here. *)

Module XPath.

Fixpoint split_slash (s : string) : list string :=
  match s with
  | EmptyString => [EmptyString]
  | String c s' =>
      if Ascii.eqb c "/" then EmptyString :: split_slash s'
      else match split_slash s' with
           | x :: r => String c x :: r
           | [] => [String c EmptyString]
           end
  end.

Definition is_name_char (c : ascii) : bool :=
  let n := nat_of_ascii c in
  ((48 <=? n) && (n <=? 57) || (65 <=? n) && (n <=? 90)
   || (97 <=? n) && (n <=? 122))%nat.

Fixpoint take_name (s : string) : string * string :=
  match s with
  | String c s' =>
      if is_name_char c
      then let '(d, r) := take_name s' in (String c d, r)
      else (EmptyString, s)
  | EmptyString => (EmptyString, EmptyString)
  end.

(** A step: an element name and, when present, a position. *)
Definition parse_step (s : string) : option (string * option N) :=
  let '(name, rest) := take_name s in
  if (name =? "")%string then None
  else match rest with
       | EmptyString => Some (name, None)
       | String "[" r =>
           let '(d, r') := Resolver.take_digits r in
           if (d =? "")%string then None
           else if (r' =? "]")%string
                then Some (name, Some (Resolver.parseInt d))
                else None
       | _ => None
       end.

Fixpoint parse_steps (l : list string) : option (list (string * option N)) :=
  match l with
  | [] => Some []
  | s :: l' =>
      match parse_step s, parse_steps l' with
      | Some st, Some r => Some (st :: r)
      | _, _ => None
      end
  end.

Definition has_tag (name : string) (n : node) : bool :=
  match n with
  | Elem t _ _ => (t =? name)%string
  | Text _ => false
  end.

(** The children of [n], with their paths. *)
Definition children (p : Dom.path) (n : node) : list (Dom.path * node) :=
  match n with
  | Elem _ _ kids => imap (fun i k => ((p ++ [i])%list, k)) kids
  | Text _ => []
  end.

Definition select (st : string * option N) (cands : list (Dom.path * node))
  : list (Dom.path * node) :=
  let named := List.filter (fun c => has_tag (fst st) (snd c)) cands in
  match snd st with
  | None => named
  | Some k =>
      match k with
      | N0 => []
      | _ => match named !! (N.to_nat k - 1)%nat with
             | Some c => [c]
             | None => []
             end
      end
  end.

Fixpoint eval_steps (steps : list (string * option N))
    (ctxs : list (Dom.path * node)) : list (Dom.path * node) :=
  match steps with
  | [] => ctxs
  | st :: r =>
      eval_steps r (flat_map (fun c => select st (children (fst c) (snd c))) ctxs)
  end.

(** The steps applied below the document node, whose only child is the
    root element. *)
Definition from_document (steps : list (string * option N)) (doc : node)
  : list (Dom.path * node) :=
  match steps with
  | [] => []
  | st :: r => eval_steps r (select st [([], doc)])
  end.

Definition first_hit (l : list (Dom.path * node)) : Resolver.eval_result Dom.path :=
  match l with
  | (p, _) :: _ => Resolver.Hit p
  | [] => Resolver.Miss
  end.

(** [document.evaluate(xp, ctx, ..., FIRST_ORDERED_NODE_TYPE, ...)] on the
    document rooted at [doc]; [ctx] is the path of the context element,
    or [None] for the document node. *)
Definition evaluate (xp : string) (doc : node) (ctx : option Dom.path)
  : Resolver.eval_result Dom.path :=
  if (xp =? "")%string then Resolver.Throws
  else if (xp =? ".")%string
  then match ctx with
       | Some p => match Dom.get doc p with
                   | Some _ => Resolver.Hit p
                   | None => Resolver.Miss
                   end
       | None => Resolver.Miss
       end
  else
    match split_slash xp with
    | EmptyString :: l =>
        match parse_steps l with
        | Some steps => first_hit (from_document steps doc)
        | None => Resolver.Miss
        end
    | l =>
        match parse_steps l with
        | Some steps =>
            match ctx with
            | Some p =>
                match Dom.get doc p with
                | Some n => first_hit (eval_steps steps [(p, n)])
                | None => Resolver.Miss
                end
            | None => first_hit (from_document steps doc)
            end
        | None => Resolver.Miss
        end
    end.

(** The same with [ORDERED_NODE_SNAPSHOT_TYPE]: every node selected, in
    document order, or [None] when the evaluation raises. *)
Definition evaluate_all (xp : string) (doc : node) (ctx : option Dom.path)
  : option (list Dom.path) :=
  if (xp =? "")%string then None
  else if (xp =? ".")%string
  then match ctx with
       | Some p => match Dom.get doc p with
                   | Some _ => Some [p]
                   | None => Some []
                   end
       | None => Some []
       end
  else
    match split_slash xp with
    | EmptyString :: l =>
        match parse_steps l with
        | Some steps => Some (fst <$> from_document steps doc)
        | None => Some []
        end
    | l =>
        match parse_steps l with
        | Some steps =>
            match ctx with
            | Some p =>
                match Dom.get doc p with
                | Some n => Some (fst <$> eval_steps steps [(p, n)])
                | None => Some []
                end
            | None => Some (fst <$> from_document steps doc)
            end
        | None => Some []
        end
    end.

End XPath.

(** ** Rendering the email body and its highlights *)

Module Render.

(** The browser services of the rendering code: [document.evaluate] on
    the live document, for its first node and for its snapshot of all
    nodes, the HTML parser (the body children [DOMParser.parseFromString]
    yields, the nodes [innerHTML] yields), and [DOMPurify.sanitize]. *)
Record browser := {
  evaluate : string -> node -> option Dom.path -> Resolver.eval_result Dom.path;
  evaluate_all : string -> node -> option Dom.path -> option (list Dom.path);
  parse : string -> list node;
  sanitize : string -> string
}.

(** The same browser with another sanitizer. *)
Definition with_sanitize (s : string -> string) (b : browser) : browser :=
  {| evaluate := evaluate b; evaluate_all := evaluate_all b;
     parse := parse b; sanitize := s |}.

(** What the callbacks close over. *)
Record view := {
  env : Overlay.env;
  activeSpan : option obj;
  isHtmlContent : bool;
  emailContent : string;
  (** the evidence spans of the selected prediction *)
  selectedPrediction : option (list obj)
}.

Definition isActive (v : view) (span : obj) : bool :=
  match activeSpan v with
  | Some a =>
      Obj.strict_eq (a !! "xpath") (span !! "xpath")
      && Obj.strict_eq (a !! "relative_start") (span !! "relative_start")
      && Obj.strict_eq (a !! "relative_end") (span !! "relative_end")
  | None => false
  end.

(** [document.evaluate] as [applyHighlights(element, spans)] calls it on
    the live document [doc]. *)
Definition contextual (b : browser) (element : Dom.path) (doc : node)
    (xp : string) (ctx : Resolver.context) : Resolver.eval_result Dom.path :=
  evaluate b xp doc
    match ctx with
    | Resolver.element => Some element
    | Resolver.document => None
    end.

(** What the body of the [forEach] of [applyHighlights] decides for the
    span at [index]: the text node to replace and the three nodes that
    replace it, or nothing when the span is skipped. *)
Definition highlightPlan (b : browser) (v : view) (element : Dom.path)
    (doc : node) (index : nat) (span : obj)
  : option (Dom.path * list node) :=
  match Resolver.resolve (contextual b element doc) span with
  | None => None
  | Some target =>
      match Dom.get doc target with
      | None => None
      | Some targetElement =>
          match Dom.findFirstTextNode targetElement with
          | None => None
          | Some rel =>
              match Dom.get doc (target ++ rel)%list with
              | Some (Text textContent) =>
                  match Locator.locate textContent span with
                  | None => None
                  | Some (relStart, relEnd) =>
                      let highlight :=
                        Overlay.createSpanElement (env v)
                          (Js.substring textContent relStart relEnd)
                          (isActive v span)
                          (Js.or_else (Obj.str span "id")
                                      ("span-" ++ pretty index))
                          (Js.or_else (Obj.str span "type") "default")
                          (Obj.str span "field") in
                      Some ((target ++ rel)%list,
                            [Text (Js.substring textContent 0 relStart);
                             highlight;
                             Text (Js.substring_from textContent relEnd)])
                  end
              | _ => None
              end
          end
      end
  end.

(** The body of the [forEach] of [applyHighlights(element, spans)]. *)
Definition highlightOne (b : browser) (v : view) (element : Dom.path)
    (doc : node) (index : nat) (span : obj) : node :=
  match highlightPlan b v element doc index span with
  | Some (textNode, new) => Dom.splice textNode new doc
  | None => doc
  end.

Fixpoint applyHighlights_from (b : browser) (v : view) (element : Dom.path)
    (index : nat) (spans : list obj) (doc : node) : node :=
  match spans with
  | [] => doc
  | span :: rest =>
      applyHighlights_from b v element (S index) rest
        (highlightOne b v element doc index span)
  end.

(** [applyHighlights(element, spans)] *)
Definition applyHighlights (b : browser) (v : view) (element : Dom.path)
    (spans : list obj) (doc : node) : node :=
  applyHighlights_from b v element O spans doc.

Definition wrapperDiv (kids : list node) : node :=
  Elem "div" [("class", "email-html-wrapper")] kids.

(** The effect that re-renders an HTML body, with the deferred call of
    [applyHighlights] run at once. [emailBody] is the path of
    [emailBodyRef.current]. When the parsed body is empty the fallback
    reads an identifier that is not declared; the exception is caught
    after the container was emptied. *)
Definition htmlEffect (b : browser) (v : view) (emailBody : Dom.path)
    (doc : node) : node :=
  if isHtmlContent v
  then match Dom.get doc emailBody, selectedPrediction v with
       | Some (Elem _ _ _), Some evidenceSpans =>
           match parse b (emailContent v) with
           | [] => Dom.set_kids emailBody [] doc
           | kids =>
               applyHighlights b v (emailBody ++ [O])%list evidenceSpans
                 (Dom.set_kids emailBody [wrapperDiv kids] doc)
           end
       | _, _ => doc
       end
  else doc.

(** The element [renderEmailContent()] returns for an HTML body that is
    not empty: React sets its [innerHTML] to [createSafeHtml(emailContent)]. *)
Definition renderEmailContent (b : browser) (v : view) : node :=
  Elem "div"
       [("class", "email-body html-content " ++
                  (if Overlay.editMode (env v) then "edit-mode" else ""))]
       (parse b (sanitize b (emailContent v))).

(** The element [renderEmailContent()] of the second component returns for
    an HTML body. *)
Definition renderEmailContent_second (b : browser) (v : view) : node :=
  Elem "div"
       [("class", "email-body" ++
                  (if Overlay.editMode (env v) then " edit-mode" else ""))]
       (parse b (emailContent v)).

(** *** The second component: overlays cleared and applied again *)

Definition is_container (n : node) : bool :=
  Dom.has_class "evidence-overlay-container" n.

(** What [clearHighlights] does to a child: a container becomes a text
    node with its text content; [querySelectorAll] lists an outer container
    before the ones nested in it, and those are detached once the outer one
    is replaced. *)
Fixpoint clear (n : node) : node :=
  match n with
  | Text s => Text s
  | Elem t a kids =>
      Elem t a
        ((fun k => if is_container k then Text (Dom.textContent k) else clear k)
           <$> kids)
  end.

(** [clearHighlights()], with [emailBodyRef.current] at [emailBody]. *)
Definition clearHighlights (emailBody : Dom.path) (doc : node) : node :=
  Dom.update emailBody clear doc.

Definition overlay_span_of (span : obj) : Overlay.overlay_span :=
  {| Overlay.o_type := Obj.str span "type";
     Overlay.o_field := Obj.str span "field";
     Overlay.o_start := Obj.num span "start";
     Overlay.o_end := Obj.num span "end";
     Overlay.o_text := Obj.str span "text" |}.

(** The container that replaces the text node [s]: the text node itself,
    then the overlay, which carries the relative offsets of the span. The
    class [overlay-<type>] that the caller adds is in the overlay's class
    list already. *)
Definition containerFor (v : view) (span : obj) (spanId s : string) : node :=
  Elem "span" [("class", "evidence-overlay-container")]
    [Text s;
     match Overlay.createOverlayForNode (env v) (overlay_span_of span) spanId with
     | Elem t a kids =>
         Elem t
           (a ++ [("data-relative-start", Resolver.to_string (span !! "relative_start"));
                  ("data-relative-end", Resolver.to_string (span !! "relative_end"))])%list
           kids
     | n => n
     end].

(** What the inner [forEach] of the second [applyHighlights] decides for
    one matched node: the text node to wrap and its container. A node
    that is not an element has no bounding rectangle, the overlay builder
    raises and the node is skipped. *)
Definition wrapPlan (v : view) (span : obj) (spanId : string) (doc : node)
    (matched : Dom.path) : option (Dom.path * node) :=
  match Dom.get doc matched with
  | Some (Elem t a kids) =>
      match Dom.findFirstTextNode (Elem t a kids) with
      | Some rel =>
          match Dom.get doc (matched ++ rel)%list with
          | Some (Text s) =>
              Some ((matched ++ rel)%list, containerFor v span spanId s)
          | _ => None
          end
      | None => None
      end
  | _ => None
  end.

Definition wrapOne (v : view) (span : obj) (spanId : string) (doc : node)
    (matched : Dom.path) : node :=
  match wrapPlan v span spanId doc matched with
  | Some (textNode, container) => Dom.splice textNode [container] doc
  | None => doc
  end.

Fixpoint wrapAll (v : view) (span : obj) (spanId : string)
    (nodes : list Dom.path) (doc : node) : node :=
  match nodes with
  | [] => doc
  | matched :: rest =>
      wrapAll v span spanId rest (wrapOne v span spanId doc matched)
  end.

(** The nodes the second [applyHighlights] matches for a span, or none
    when the span has no path or no relative offsets; a path, when
    present, is a string. *)
Definition matchedNodes (b : browser) (emailBody : Dom.path) (doc : node)
    (span : obj) : list Dom.path :=
  match Obj.str span "xpath", span !! "relative_start", span !! "relative_end" with
  | Some xpath, Some _, Some _ =>
      if (xpath =? "")%string then []
      else Resolver.getElementByXPath
             (fun xp => evaluate_all b xp doc (Some emailBody))
             (Resolver.normalizeXPath xpath)
  | _, _, _ => []
  end.

(** The second [applyHighlights(emailBodyElement, evidenceSpans)]; [now i]
    is the reading of [Date.now()] at the span of index [i]. *)
Fixpoint applyHighlights_second_from (b : browser) (v : view) (now : nat -> Z)
    (emailBody : Dom.path) (index : nat) (spans : list obj) (doc : node)
  : node :=
  match spans with
  | [] => doc
  | span :: rest =>
      applyHighlights_second_from b v now emailBody (S index) rest
        (wrapAll v span ("span-" ++ pretty index ++ "-" ++ pretty (now index))
           (matchedNodes b emailBody doc span) doc)
  end.

(** The effect of the second component on a change of the selected
    prediction. *)
Definition htmlEffect_second (b : browser) (v : view) (now : nat -> Z)
    (emailBody : Dom.path) (doc : node) : node :=
  match Dom.get doc emailBody, selectedPrediction v with
  | Some (Elem _ _ _), Some (span :: spans) =>
      if isHtmlContent v
      then applyHighlights_second_from b v now emailBody O (span :: spans)
             (clearHighlights emailBody doc)
      else doc
  | _, _ => doc
  end.

(** [p] lies strictly below [container]. *)
Fixpoint below (container p : Dom.path) : bool :=
  match container, p with
  | [], _ :: _ => true
  | i :: c', j :: p' => (i =? j)%nat && below c' p'
  | _, _ => false
  end.

(** Every highlight that [applyHighlights] places, span after span, lands
    below [container]. *)
Fixpoint placed_below (b : browser) (v : view) (element container : Dom.path)
    (index : nat) (spans : list obj) (doc : node) : bool :=
  match spans with
  | [] => true
  | span :: rest =>
      match highlightPlan b v element doc index span with
      | Some (textNode, _) => below container textNode
      | None => true
      end
      && placed_below b v element container (S index) rest
           (highlightOne b v element doc index span)
  end.

(** Every highlight of one run of [htmlEffect] on [doc] lands inside the
    email body container. *)
Definition highlights_inside (b : browser) (v : view) (emailBody : Dom.path)
    (doc : node) : bool :=
  match selectedPrediction v, parse b (emailContent v) with
  | Some evidenceSpans, k :: kids =>
      placed_below b v (emailBody ++ [O])%list emailBody O evidenceSpans
        (Dom.set_kids emailBody [wrapperDiv (k :: kids)] doc)
  | _, _ => true
  end.

(** The same for the second component: every container lands below
    [container]. *)
Fixpoint wrapped_below (v : view) (span : obj) (spanId : string)
    (container : Dom.path) (nodes : list Dom.path) (doc : node) : bool :=
  match nodes with
  | [] => true
  | matched :: rest =>
      match wrapPlan v span spanId doc matched with
      | Some (textNode, _) => below container textNode
      | None => true
      end
      && wrapped_below v span spanId container rest
           (wrapOne v span spanId doc matched)
  end.

Fixpoint placed_below_second (b : browser) (v : view) (now : nat -> Z)
    (emailBody : Dom.path) (index : nat) (spans : list obj) (doc : node)
  : bool :=
  match spans with
  | [] => true
  | span :: rest =>
      let spanId := "span-" ++ pretty index ++ "-" ++ pretty (now index) in
      wrapped_below v span spanId emailBody
        (matchedNodes b emailBody doc span) doc
      && placed_below_second b v now emailBody (S index) rest
           (wrapAll v span spanId (matchedNodes b emailBody doc span) doc)
  end.

Definition highlights_inside_second (b : browser) (v : view) (now : nat -> Z)
    (emailBody : Dom.path) (doc : node) : bool :=
  match selectedPrediction v with
  | Some evidenceSpans =>
      placed_below_second b v now emailBody O evidenceSpans
        (clearHighlights emailBody doc)
  | None => true
  end.

End Render.

(** ** Click delegation on the email body *)

Module Click.

(** The value of a digit in the given radix. *)
Definition digit_value (radix : Z) (c : ascii) : option Z :=
  let n := Z.of_nat (nat_of_ascii c) in
  let v := if ((48 <=? n) && (n <=? 57))%Z then Some (n - 48)
           else if ((97 <=? n) && (n <=? 122))%Z then Some (n - 87)
           else if ((65 <=? n) && (n <=? 90))%Z then Some (n - 55)
           else None in
  match v with
  | Some d => if (d <? radix)%Z then Some d else None
  | None => None
  end.

(** The value of the longest prefix of digits; [acc] is [None] as long as
    no digit was read. *)
Fixpoint digits_value (radix : Z) (acc : option Z) (s : string) : option Z :=
  match s with
  | String c s' =>
      match digit_value radix c with
      | Some d => digits_value radix (Some (radix * default 0 acc + d)) s'
      | None => acc
      end
  | EmptyString => acc
  end.

(** [parseInt(s)] without a radix: leading white space, a sign, the prefix
    [0x] for radix 16, then the longest prefix of digits; [None] is
    [NaN]. *)
Definition parseInt (s : string) : option Z :=
  let s := Js.trim_start s in
  let '(sign, s) :=
    match s with
    | String "-" r => (-1, r)
    | String "+" r => (1, r)
    | _ => (1, s)
    end in
  let '(radix, s) :=
    match s with
    | String "0" (String "x" r) | String "0" (String "X" r) => (16, r)
    | _ => (10, s)
    end in
  (fun v => sign * v) <$> digits_value radix None s.

(** Truthiness of a property value. *)
Definition truthy (v : option value) : bool :=
  match v with
  | Some (VStr s) => negb (s =? "")%string
  | Some (VNum z) => negb (z =? 0)%Z
  | _ => false
  end.

(** The non-empty prefixes of a path, the shortest first. *)
Fixpoint prefixes (p : Dom.path) : list Dom.path :=
  match p with
  | [] => []
  | i :: p' => [i] :: (cons i <$> prefixes p')
  end.

(** The walk from the event target up to the email body: the nearest
    node that carries the class [evidence-span], as a path below the
    email body [body]. *)
Definition spanElement (body : node) (target : Dom.path) : option Dom.path :=
  List.find
    (fun q => match Dom.get body q with
              | Some n => Dom.has_class "evidence-span" n
              | None => false
              end)
    (rev (prefixes target)).

(** The predicate of [evidence_spans.find] in [handleEmailBodyClick]:
    [arr] is the evidence array, [l] one of its spans. *)
Definition matches (h : Controller.heap) (arr : list Controller.loc)
    (spanId : string) (l : Controller.loc) : bool :=
  let span := Controller.obj_at h l in
  if truthy (span !! "id")
  then Obj.strict_eq (span !! "id") (Some (VStr spanId))
  else if negb (spanId =? "")%string && Js.startsWith spanId "span-"
  then match parseInt (Js.replace spanId "span-" "") with
       | Some index =>
           (index >=? 0)%Z
           && match Controller.findIndex (Nat.eqb l) arr with
              | Some k => (Z.of_nat k =? index)%Z
              | None => false
              end
       | None => false
       end
  else false.

(** [handleEmailBodyClick(event)]: [body] is the element of
    [emailBodyRef], [target] the path of [event.target] below it. *)
Definition handleEmailBodyClick (readOnly : bool) (body : node)
    (target : Dom.path) (st : Controller.state) : Controller.state :=
  match spanElement body target with
  | None => st
  | Some q =>
      if negb (Controller.editMode st) || readOnly then st
      else
        match Dom.get body q, Controller.selectedPrediction st with
        | Some el, Some p =>
            let spanId := Js.or_else (node_attr "data-span-id" el) "" in
            let text :=
              Js.or_else (node_attr "data-span-text" el) (Dom.textContent el) in
            let arr :=
              Controller.array_at (Controller.store st)
                (Controller.evidence_spans p) in
            match List.find (matches (Controller.store st) arr spanId) arr with
            | Some l =>
                Controller.setEditPanelVisible true
                  (Controller.setHighlightedText
                     (Some (<["text" := VStr text]>
                              (Controller.obj_at (Controller.store st) l)))
                     (Controller.setActiveSpan
                        (Some (Controller.span_ref l)) st))
            | None => st
            end
        | _, _ => st
        end
  end.

End Click.

(** ** Rendering a plain-text body *)

Module PlainText.

(** A child of the element [renderPlainTextWithSpans] returns: a stretch
    of text that is not highlighted, or the element of a span, whose click
    handler passes the span object [onClick] to [handleSpanClick]. *)
Inductive segment : Type :=
| plain (key text : string)
| highlight (key className title text : string) (onClick : Controller.loc).

Definition segment_text (s : segment) : string :=
  match s with
  | plain _ t => t
  | highlight _ _ _ t _ => t
  end.

(** The comparator [(a, b) => a.start - b.start] says that [a] does not
    come after [b]; a result that is not a number counts as zero. The
    offsets of a plain-text span are numbers when they are present. *)
Definition start_le (h : Controller.heap) (a b : Controller.loc) : bool :=
  match Obj.num (Controller.obj_at h a) "start",
        Obj.num (Controller.obj_at h b) "start" with
  | Some x, Some y => (x - y <=? 0)%Z
  | _, _ => true
  end.

Fixpoint insert (h : Controller.heap) (x : Controller.loc)
    (l : list Controller.loc) : list Controller.loc :=
  match l with
  | [] => [x]
  | y :: l' => if start_le h x y then x :: l else y :: insert h x l'
  end.

(** [[...spans].sort(...)]: the sort is stable, and so is the insertion
    of each span before the first one that does not come before it. *)
Definition sort (h : Controller.heap) (l : list Controller.loc)
  : list Controller.loc :=
  fold_right (insert h) [] l.

(** [a > b] and [a < b] on numbers that may be [undefined]. *)
Definition gt (a b : option Z) : bool :=
  match a, b with
  | Some x, Some y => (x >? y)%Z
  | _, _ => false
  end.

Definition lt (a b : option Z) : bool :=
  match a, b with
  | Some x, Some y => (x <? y)%Z
  | _, _ => false
  end.

(** [s.substring(a, b)] with operands that may be [undefined]. *)
Definition substring (s : string) (a b : option Z) : string :=
  Js.substring s (default 0 a) (default (Js.len s) b).

(** [`${n}`] for a number that may be [undefined]. *)
Definition show (n : option Z) : string :=
  match n with
  | Some z => pretty z
  | None => "undefined"
  end.

(** What React renders for a child [{v}]. *)
Definition child_text (v : option value) : string :=
  match v with
  | Some (VStr s) => s
  | Some (VNum z) => pretty z
  | Some VNaN => "NaN"
  | None => ""
  end.

(** [modifiedSpan]: the first corrected span of the selected prediction
    whose back-reference carries the offsets of [span]. *)
Definition modifiedSpan (st : Controller.state) (span : obj) : option obj :=
  match Controller.selectedPrediction st with
  | Some p =>
      match Controller.feedbackData st !! Controller.prediction_id p with
      | Some c =>
          List.find (Controller.corrects false span)
            (Controller.spans_of (Controller.store st)
               (Controller.evidence_spans (Controller.corrected_value c)))
      | None => None
      end
  | None => None
  end.

Definition isActive (st : Controller.state) (span : obj) : bool :=
  match Controller.activeSpan st with
  | Some a =>
      match a with
      | Controller.span_id s => negb (s =? "")%string
      | Controller.span_ref _ => true
      end
      && Obj.strict_eq (Controller.read_active (Controller.store st) a "start")
           (span !! "start")
      && Obj.strict_eq (Controller.read_active (Controller.store st) a "end")
           (span !! "end")
  | None => false
  end.

(** The element pushed for the span object [l]. *)
Definition renderSpan (st : Controller.state) (emailContent : string)
    (l : Controller.loc) : segment :=
  let span := Controller.obj_at (Controller.store st) l in
  let modified := modifiedSpan st span in
  let spanType := Js.or_else (Obj.str span "type") "default" in
  highlight
    ("span-" ++ Resolver.to_string (span !! "start") ++ "-"
     ++ Resolver.to_string (span !! "end"))
    ("highlight highlight-" ++ spanType ++ " "
     ++ (if isActive st span then "active" else "") ++ " "
     ++ (match modified with Some _ => "modified" | None => "" end))
    (spanType
     ++ (if Js.truthy (Obj.str span "field")
         then ": " ++ Js.or_else (Obj.str span "field") ""
         else ""))
    (match modified with
     | Some c => child_text (c !! "new_text")
     | None => substring emailContent (Obj.num span "start") (Obj.num span "end")
     end)
    l.

(** The loop over the sorted spans and the text after the last one;
    [lastIndex] is the loop variable. *)
Fixpoint elements (st : Controller.state) (emailContent : string)
    (lastIndex : option Z) (sortedSpans : list Controller.loc) : list segment :=
  match sortedSpans with
  | [] =>
      if lt lastIndex (Some (Js.len emailContent))
      then [plain ("text-" ++ show lastIndex)
                  (substring emailContent lastIndex None)]
      else []
  | l :: rest =>
      let span := Controller.obj_at (Controller.store st) l in
      ((if gt (Obj.num span "start") lastIndex
        then [plain ("text-" ++ show lastIndex)
                    (substring emailContent lastIndex (Obj.num span "start"))]
        else [])
       ++ renderSpan st emailContent l
          :: elements st emailContent (Obj.num span "end") rest)%list
  end.

Definition sortedSpans (st : Controller.state) : list Controller.loc :=
  sort (Controller.store st)
    match Controller.selectedPrediction st with
    | Some p =>
        Controller.array_at (Controller.store st) (Controller.evidence_spans p)
    | None => []
    end.

(** The children of the element [renderPlainTextWithSpans()] returns. *)
Definition renderPlainTextWithSpans (st : Controller.state)
    (emailContent : string) : list segment :=
  elements st emailContent (Some 0) (sortedSpans st).

(** The text the rendered body shows. *)
Definition shown (segs : list segment) : string :=
  Dom.concat_strings (segment_text <$> segs).

(** The DOM React builds for a child of the body: a [span] around the text
    (no text node for an empty string), with the class and the title of a
    highlight. *)
Definition to_node (s : segment) : node :=
  match s with
  | plain _ t =>
      Elem "span" [] (if (t =? "")%string then [] else [Text t])
  | highlight _ className title t _ =>
      Elem "span" [("class", className); ("title", title)]
           (if (t =? "")%string then [] else [Text t])
  end.

(** The element [renderPlainTextWithSpans()] returns, the email body of a
    plain-text message. *)
Definition body (st : Controller.state) (emailContent : string)
  : node :=
  Elem "div"
       [("class", "email-body " ++
                  (if Controller.editMode st then "edit-mode" else ""))]
       (to_node
          <$> renderPlainTextWithSpans st emailContent).

End PlainText.

(** ** Selection Capture: the path of the selected node *)

Module Capture.

(** [index]: one more than the number of element siblings before the
    child [i] that bear the name [name]. The tag of a node holds the
    lower-case name. *)
Definition position (kids : list node) (i : nat) (name : string) : nat :=
  S (length (List.filter (XPath.has_tag name) (take i kids))).

(** One turn of the loop, for the child [i] of an element whose children
    are [kids]: [/name\[index\]]. *)
Definition step (kids : list node) (i : nat) : string :=
  match kids !! i with
  | Some (Elem t _ _) => "/" ++ t ++ "[" ++ pretty (position kids i t) ++ "]"
  | _ => ""
  end.

(** The turns of the loop from the node at [p] below [n] up to [n], which
    prepend their steps: the outermost step comes first. *)
Fixpoint steps (n : node) (p : Dom.path) : string :=
  match p with
  | [] => ""
  | i :: p' =>
      match n with
      | Elem _ _ kids =>
          match kids !! i with
          | Some k => step kids i ++ steps k p'
          | None => ""
          end
      | Text _ => ""
      end
  end.

(** [document.body]: the first child of the root element [html] that is a
    [body] or a [frameset], as an index. *)
Definition body_index (doc : node) : option nat :=
  match doc with
  | Elem t _ kids =>
      if (t =? "html")%string
      then Controller.findIndex
             (fun k => XPath.has_tag "body" k || XPath.has_tag "frameset" k) kids
      else None
  | Text _ => None
  end.

(** The step of the root element, whose parent is the document. *)
Definition root_step (doc : node) : string :=
  match doc with
  | Elem t _ _ => "/" ++ t ++ "[1]"
  | Text _ => ""
  end.

(** [getXPathForNode(node)] for the node at [p] in the document whose
    root element is [doc]. *)
Definition getXPathForNode (doc : node) (p : Dom.path) : string :=
  let p := match Dom.get doc p with
           | Some (Text _) => removelast p
           | _ => p
           end in
  match Dom.get doc p with
  | Some (Elem t _ _) =>
      if (t =? "html")%string then "/html"
      else if (t =? "body")%string then "/html/body"
      else
        "/html/body"
        ++ match body_index doc, p with
           | Some b, i :: q =>
               if (i =? b)%nat
               then match Dom.get doc [b] with
                    | Some body => steps body q
                    | None => ""
                    end
               else root_step doc ++ steps doc p
           | _, _ => root_step doc ++ steps doc p
           end
  | _ => "/html/body"
  end.

End Capture.

(** ** An edit of a span, as the user makes it

    The steps that lead from a highlight in the email body to a write into
    the ledger, and the handler each step reaches: the button Edit
    Evidence, a click in the email body ([handleEmailBodyClick]), the
    selects Type and Field of the edit panel ([handleSpanMetadataChange]),
    the button Apply ([applySpanEdit]). They are the callers through which
    a candidate reaches [applySpanEdit]: of the two other callers of
    [setHighlightedText], [handleApplyTextSelection] reads the identifier
    [selectedText], which is not declared, before it makes the call, and
    [handleDragEnd] follows a press on a boundary handle, which the
    highlight elements do not have ([Overlay.captured]). *)

Module Session.


(** The span [originalSpan] that [handleEmailBodyClick] finds for a click,
    with the text it reads off the clicked element; nothing when the
    handler returns before it sets the state. *)
Definition originalSpan (readOnly : bool) (body : node) (target : Dom.path)
    (st : Controller.state) : option (Controller.loc * string) :=
  match Click.spanElement body target with
  | None => None
  | Some q =>
      if negb (Controller.editMode st) || readOnly then None
      else
        match Dom.get body q, Controller.selectedPrediction st with
        | Some el, Some p =>
            let spanId := Js.or_else (node_attr "data-span-id" el) "" in
            let text :=
              Js.or_else (node_attr "data-span-text" el) (Dom.textContent el) in
            let arr :=
              Controller.array_at (Controller.store st)
                (Controller.evidence_spans p) in
            (fun l => (l, text))
              <$> List.find (Click.matches (Controller.store st) arr spanId) arr
        | _, _ => None
        end
  end.

(** The two selects of the edit panel. *)
Inductive change : Type :=
| change_type (v : string)
| change_field (v : string).






(** The candidate the steps of an edit build from the span they found:
    [{...originalSpan, text}], then one property written per change. *)
Definition candidate (span : obj) (text : string) (changes : list change)
  : obj :=
  fold_left
    (fun o c =>
       match c with
       | change_type v => <["type" := VStr v]> o
       | change_field v => <["field" := VStr v]> o
       end)
    changes (<["text" := VStr text]> span).

End Session.

(** ** Example data and invariants used by the properties *)

(** The span [6, 11) over "world". *)
Definition drag_example_span : obj :=
  <["id" := VStr "s1"]>
    (<["xpath" := VStr "/html/body/p"]>
       (<["relative_start" := VNum 6]>
          (<["relative_end" := VNum 11]>
             (<["text" := VStr "world"]> ∅)))).

(** A one-span HTML prediction, the store of its [apiResponse], and a user
    who moves the start of that span three times. *)
Definition ledger_example_span : obj :=
  <["xpath" := VStr "/html/body/p"]>
    (<["relative_start" := VNum 0]>
       (<["relative_end" := VNum 5]>
          (<["text" := VStr "Hello"]> (<["type" := VStr "intent"]> ∅)))).

Definition ledger_example_heap : Controller.heap :=
  {| Controller.objs := [ledger_example_span]; Controller.arrays := [[O]] |}.

Definition ledger_example_prediction : Controller.prediction :=
  {| Controller.prediction_id := "p1"; Controller.props := ∅;
     Controller.evidence_spans := O |}.

(** One edit of the example span: the span is made active, the candidate
    starts at [a], and the edit is applied at clock reading [t]. *)
Definition ledger_example_edit (a t : Z) : list Controller.event :=
  [Controller.set_edit true;
   Controller.set_active (Some (Controller.span_ref O));
   Controller.set_highlighted
     (Some (<["relative_start" := VNum a]> ledger_example_span));
   Controller.apply true t].

Definition ledger_example_session (edits : list Controller.event)
  : Controller.state :=
  Controller.run (Controller.select ledger_example_prediction :: edits)
                 (Controller.init ledger_example_heap).



(** The span [0, 5) over "Hello" in the paragraph "Hello world", the page
    that shows the email (the wrapper element is at path [1; 0; 0]), the
    view in which the span is the active span of an editing session, and
    the element that renders the span. *)
Definition end_drag_span : obj := <["id" := VStr "s1"]> ledger_example_span.

Definition end_drag_page : node :=
  Elem "html" []
    [Elem "head" [] [];
     Elem "body" []
       [Elem "div" [("class", "email-body html-content edit-mode")]
          [Render.wrapperDiv [Elem "p" [] [Text "Hello world"]]]]].

Definition end_drag_view : Render.view :=
  {| Render.env := Overlay.captured false;
     Render.activeSpan := Some end_drag_span;
     Render.isHtmlContent := true;
     Render.emailContent := "<p>Hello world</p>";
     Render.selectedPrediction := Some [end_drag_span] |}.

Definition end_drag_element : Drag.spanElement :=
  {| Drag.ds_spanId := "s1"; Drag.ds_spanType := "intent";
     Drag.ds_fieldName := ""; Drag.ds_spanText := "Hello";
     Drag.ds_textNode := Some "Hello" |}.

(** The same for a plain-text prediction, whose span is [13, 39). *)
Definition plain_example_span : obj :=
  <["start" := VNum 13]>
    (<["end" := VNum 39]>
       (<["text" := VStr "please provide an update"]>
          (<["type" := VStr "intent"]> ∅))).

Definition plain_example_edit (a t : Z) : list Controller.event :=
  [Controller.click_plain false O;
   Controller.set_highlighted (Some (<["start" := VNum a]> plain_example_span));
   Controller.apply false t].

Definition plain_example_session (edits : list Controller.event)
  : Controller.state :=
  Controller.run (Controller.select ledger_example_prediction :: edits)
    (Controller.init
       {| Controller.objs := [plain_example_span];
          Controller.arrays := [[O]] |}).

(** The invariant of a session on the store [h0] of its [apiResponse]:
    the objects and arrays of [h0] are still there, unchanged, and every
    ledger entry owns an array allocated after them. *)
Definition session_inv (h0 : Controller.heap) (st : Controller.state) : Prop :=
  take (length (Controller.objs h0)) (Controller.objs (Controller.store st))
  = Controller.objs h0
  /\ take (length (Controller.arrays h0))
          (Controller.arrays (Controller.store st))
     = Controller.arrays h0
  /\ forall pid c,
      Controller.feedbackData st !! pid = Some c ->
      (length (Controller.arrays h0)
       <= Controller.evidence_spans (Controller.corrected_value c))%nat.


(** A host page with the rendered email body in it: the page has its own
    [div/p] under [body], the email has one inside the wrapper. *)
Definition resolver_example_doc : node :=
  Elem "html" []
    [Elem "head" [] [];
     Elem "body" []
       [Elem "div" [("id", "root")] [Elem "p" [] [Text "host text"]];
        Elem "div" [("class", "email-body html-content ")]
          [Elem "div" [("class", "email-html-wrapper")]
             [Elem "div" [] [Elem "p" [] [Text "mail text"]]]]]].

Definition resolver_example_span : obj :=
  <["xpath" := VStr "/html/body/div/p"]>
    (<["relative_start" := VNum 0]>
       (<["relative_end" := VNum 4]> (<["text" := VStr "mail"]> ∅))).

(** [document.evaluate] on the example page; the wrapper element is at
    path [1; 1; 0]. *)
Definition resolver_example_evaluate (xp : string) (ctx : Resolver.context)
  : Resolver.eval_result Dom.path :=
  XPath.evaluate xp resolver_example_doc
    match ctx with
    | Resolver.element => Some [1; 1; 0]%nat
    | Resolver.document => None
    end.

(** The HTML parser and the sanitizer of the browser, tabulated on the
    email bodies of the examples: the parser keeps the [onerror] handler
    of the image, the sanitizer removes it. *)
Definition example_parse (s : string) : list node :=
  if (s =? "<img src=x onerror=steal()>")%string
  then [Elem "img" [("src", "x"); ("onerror", "steal()")] []]
  else if (s =? "<img src=x>")%string
  then [Elem "img" [("src", "x")] []]
  else if (s =? "<span>Hi</span>")%string
  then [Elem "span" [] [Text "Hi"]]
  else [Text s].

Definition example_sanitize (s : string) : string :=
  if (s =? "<img src=x onerror=steal()>")%string then "<img src=x>" else s.

Definition example_browser : Render.browser :=
  {| Render.evaluate := XPath.evaluate;
     Render.evaluate_all := XPath.evaluate_all;
     Render.parse := example_parse;
     Render.sanitize := example_sanitize |}.

(** A host page whose body holds a paragraph of its own and, at path
    [1; 1], the element the component rendered for the email body. *)
Definition host_page (emailBody : node) : node :=
  Elem "html" []
    [Elem "head" [] [];
     Elem "body" [] [Elem "p" [] [Text "Hello world"]; emailBody]].

Definition example_view (content : string) (spans : list obj) : Render.view :=
  {| Render.env := {| Overlay.readOnly := false; Overlay.editMode := false |};
     Render.activeSpan := None;
     Render.isHtmlContent := true;
     Render.emailContent := content;
     Render.selectedPrediction := Some spans |}.

(** A span whose captured path matches nothing in the email but selects
    the paragraph of the host page. *)
Definition stray_span : obj :=
  <["xpath" := VStr "/html/body/p"]>
    (<["relative_start" := VNum 0]>
       (<["relative_end" := VNum 5]>
          (<["text" := VStr "Hello"]> (<["type" := VStr "intent"]> ∅)))).

(** A span of the email whose captured path happens to hold in the host
    page as well: the email body is the first [div] under [body]. *)
Definition hosted_span : obj :=
  <["xpath" := VStr "/html/body/div/span"]>
    (<["relative_start" := VNum 0]>
       (<["relative_end" := VNum 2]>
          (<["text" := VStr "Hi"]> (<["type" := VStr "intent"]> ∅)))).

(** A span of the email itself. *)
Definition mail_span : obj :=
  <["xpath" := VStr "/html/body/span"]>
    (<["relative_start" := VNum 0]>
       (<["relative_end" := VNum 2]>
          (<["text" := VStr "Hi"]> (<["type" := VStr "intent"]> ∅)))).

(** *** Invariants and conditions of the ledger, the plain-text
    rendering and the captured paths *)

(** Every array of the store holds objects of the store. *)
Definition heap_closed (h : Controller.heap) : bool :=
  forallb (forallb (fun l => (l <? length (Controller.objs h))%nat))
          (Controller.arrays h).

(** The invariant of the ledger: the store is closed, every entry owns an
    array of the store, and no two entries share one. *)
Definition ledger_inv (st : Controller.state) : Prop :=
  heap_closed (Controller.store st) = true
  /\ (forall pid c,
        Controller.feedbackData st !! pid = Some c ->
        (Controller.evidence_spans (Controller.corrected_value c)
         < length (Controller.arrays (Controller.store st)))%nat)
  /\ (forall pid pid' c c',
        Controller.feedbackData st !! pid = Some c ->
        Controller.feedbackData st !! pid' = Some c' ->
        Controller.evidence_spans (Controller.corrected_value c)
        = Controller.evidence_spans (Controller.corrected_value c') ->
        pid = pid').

(** The spans, in the order given, lie in [lo, hi], each starting where
    the one before it ended or later. *)
Fixpoint separated (h : Controller.heap) (lo hi : Z)
    (spans : list Controller.loc) : bool :=
  match spans with
  | [] => (lo <=? hi)%Z
  | l :: rest =>
      match Obj.num (Controller.obj_at h l) "start",
            Obj.num (Controller.obj_at h l) "end" with
      | Some s, Some e => (lo <=? s)%Z && (s <=? e)%Z && separated h e hi rest
      | _, _ => false
      end
  end.

(** The span is a non-empty range of a text of [len] characters. *)
Definition span_in_text (h : Controller.heap) (len : Z) (l : Controller.loc)
  : bool :=
  match Obj.num (Controller.obj_at h l) "start",
        Obj.num (Controller.obj_at h l) "end" with
  | Some s, Some e => (0 <=? s)%Z && (s <? e)%Z && (e <=? len)%Z
  | _, _ => false
  end.

(** Two spans do not overlap. *)
Definition spans_apart (h : Controller.heap) (x y : Controller.loc) : bool :=
  match Obj.num (Controller.obj_at h x) "start",
        Obj.num (Controller.obj_at h x) "end",
        Obj.num (Controller.obj_at h y) "start",
        Obj.num (Controller.obj_at h y) "end" with
  | Some sx, Some ex, Some sy, Some ey => (ex <=? sy)%Z || (ey <=? sx)%Z
  | _, _, _, _ => false
  end.

(** No two spans of the list overlap. *)
Fixpoint spans_disjoint (h : Controller.heap) (spans : list Controller.loc)
  : bool :=
  match spans with
  | [] => true
  | x :: rest => forallb (spans_apart h x) rest && spans_disjoint h rest
  end.

(** An element name the reference evaluator reads: letters and digits,
    not empty. *)
Definition name_ok (t : string) : bool :=
  negb (t =? "")%string && forallb XPath.is_name_char (list_ascii_of_string t).

(** The nodes on the path [q] below [n] are elements whose names the
    reference evaluator reads. *)
Fixpoint names_ok (n : node) (q : Dom.path) : bool :=
  match q with
  | [] => true
  | i :: q' =>
      match n with
      | Elem _ _ kids =>
          match kids !! i with
          | Some (Elem t a ks) => name_ok t && names_ok (Elem t a ks) q'
          | _ => false
          end
      | Text _ => false
      end
  end.


(** * Properties *)

(** ** Strings *)

Section StringFacts.

Lemma length_substring_0 (s : string) (m : nat) :
  (m <= String.length s)%nat -> String.length (String.substring 0 m s) = m.
Proof.
  revert m. induction s as [|c s IH]; intros [|m] Hm; simpl in *;
    try reflexivity; try lia.
  rewrite IH; lia.
Qed.

Lemma length_substring (s : string) (n m : nat) :
  (n + m <= String.length s)%nat -> String.length (String.substring n m s) = m.
Proof.
  revert n m. induction s as [|c s IH]; intros n m Hm; simpl in *.
  - assert (n = 0 /\ m = 0)%nat as [-> ->] by lia. reflexivity.
  - destruct n as [|n].
    + destruct m as [|m]; [reflexivity|]. simpl. rewrite IH; simpl; lia.
    + apply IH. lia.
Qed.

Lemma js_len_nonneg (s : string) : 0 <= Js.len s.
Proof. unfold Js.len. lia. Qed.

(** [s.substring(a, b)] on offsets in order and in range. *)
Lemma js_substring_in_range (s : string) (a b : Z) :
  0 <= a <= b -> b <= Js.len s ->
  Js.substring s a b = String.substring (Z.to_nat a) (Z.to_nat (b - a)) s.
Proof.
  intros Hab Hb. unfold Js.substring, Js.clamp.
  replace (Z.max 0 (Z.min a (Js.len s))) with a by lia.
  replace (Z.max 0 (Z.min b (Js.len s))) with b by lia.
  replace (Z.min a b) with a by lia.
  replace (Z.max a b) with b by lia.
  reflexivity.
Qed.

Lemma js_len_substring (s : string) (a b : Z) :
  0 <= a <= b -> b <= Js.len s -> Js.len (Js.substring s a b) = b - a.
Proof.
  intros Hab Hb. rewrite js_substring_in_range by assumption.
  unfold Js.len in *. rewrite length_substring; lia.
Qed.

End StringFacts.

(** ** Overlay Renderer *)

(** C10, as the specification states it, fails on a read-only viewer that
    is not in edit mode: the inline highlight is flagged clickable. *)
Lemma clickable_in_read_only_view :
  let e := {| Overlay.readOnly := true; Overlay.editMode := false |} in
  Overlay.clickable
    (Overlay.createSpanElement e "Hello" false "span-0" "intent" None)
  = Some "true"
  /\ Overlay.clickable
       (Overlay.createOverlayForNode
          {| Overlay.readOnly := false; Overlay.editMode := false |}
          {| Overlay.o_type := Some "intent"; Overlay.o_field := None;
             Overlay.o_start := None; Overlay.o_end := None;
             Overlay.o_text := None |} "span-0")
     = Some "true".
Proof. split; reflexivity. Qed.

(** C10 (amended): the clickability flag of an inline highlight element is
    ["true"] exactly when the edit mode its builder sees is off, whatever
    the read-only setting; the flag of the overlay elements of the second
    component is ["true"] exactly when the viewer is not read-only,
    whatever the edit mode. *)
Theorem clickable_flag :
  forall (e : Overlay.env) (text spanId spanType : string) (isActive : bool)
         (fieldName : option string) (s : Overlay.overlay_span),
    Overlay.clickable
      (Overlay.createSpanElement e text isActive spanId spanType fieldName)
    = Some (if Overlay.editMode e then "false" else "true")
    /\ Overlay.clickable (Overlay.createOverlayForNode e s spanId)
       = Some (if Overlay.readOnly e then "false" else "true")
    /\ match Overlay.createTextOverlay e s spanId with
       | Some n =>
           Overlay.clickable n
           = Some (if Overlay.readOnly e then "false" else "true")
       | None => True
       end.
Proof.
  intros [ro em] text spanId spanType isActive fieldName s.
  unfold Overlay.clickable, Overlay.createSpanElement,
    Overlay.createOverlayForNode, Overlay.createTextOverlay; simpl.
  split; [|split].
  - destruct em; reflexivity.
  - destruct ro; reflexivity.
  - destruct (Overlay.o_start s), (Overlay.o_end s); try exact I.
    destruct ro; reflexivity.
Qed.

(** ** Selection Capture: the end handle *)

(** C4 (the code departs from it). The highlight element of a span, active
    or not, is built by [createSpanElement] with the edit mode it captured
    when the component was mounted: its only child is the text, so the
    active span of an editing session has no boundary handle to drag. On
    the example page [applyHighlights] puts the active highlight "Hello"
    between the texts before and after it, and the page holds no handle.
    Were a handle there, a press on the end handle, a move and a release
    would hand to [setHighlightedText] the span of the prediction as it
    is: the end offset [handleDrag] computes is stored on a copy of the
    drag data that [handleDragEnd] never sees. On the example span, a drag
    of 24 pixels to the right, three characters, previews "He" and commits
    the end offset 5 and the text "Hello", not the end offset 8 and the
    text "Hello wo". *)
Theorem end_handle_drag_is_lost :
  (forall (readOnly isActive : bool) (text spanId spanType : string)
          (fieldName : option string),
      match Overlay.createSpanElement (Overlay.captured readOnly) text isActive
              spanId spanType fieldName with
      | Elem _ _ childNodes => childNodes = [Text text]
      | Text _ => False
      end)
  /\ (let page :=
        Render.applyHighlights example_browser end_drag_view [1; 0; 0]%nat
          [end_drag_span] end_drag_page in
      Dom.get page [1; 0; 0; 0]%nat
      = Some (Elem "p" []
                [Text "";
                 Elem "span"
                   [("class", "evidence-span evidence-intent active");
                    ("data-span-id", "s1");
                    ("data-span-type", "intent");
                    ("data-field-name", "");
                    ("data-clickable", "true");
                    ("title", "Intent Evidence");
                    ("data-span-text", "Hello")]
                   [Text "Hello"];
                 Text " world"])
      /\ Dom.count (Dom.has_class "resize-handle") page = 0%nat)
  /\ (forall (spans : list obj) (p : Drag.spanElement) (x0 x1 : Z),
        snd (Drag.gesture true spans Drag.end_ p x0 x1)
        = List.find
            (fun s => Obj.strict_eq (s !! "id") (Some (VStr (Drag.ds_spanId p))))
            spans)
  /\ Drag.charDiff (124 - 100) = 3
  /\ snd (Drag.gesture true [end_drag_span] Drag.end_ end_drag_element 100 124)
     = Some end_drag_span
  /\ (end_drag_span !! "relative_end", end_drag_span !! "text")
     = (Some (VNum 5), Some (VStr "Hello"))
  /\ Drag.textNode
       <$> Drag.originalSpanData
             (Drag.handleDrag
                {| Drag.ev_target := Drag.Other; Drag.clientX := 124 |}
                (Drag.handleDragStart true
                   {| Drag.ev_target :=
                        Drag.Handle Drag.end_ (Some end_drag_element);
                      Drag.clientX := 100 |} Drag.idle))
     = Some (Some "He").
Proof.
  split; [|split; [|split; [|repeat split; vm_compute; reflexivity]]].
  - intros readOnly isActive text spanId spanType fieldName.
    unfold Overlay.createSpanElement, Overlay.captured. reflexivity.
  - split; vm_compute; reflexivity.
  - intros spans p x0 x1.
    unfold Drag.gesture, Drag.handleDragStart, Drag.handleDrag,
      Drag.handleDrag_local, Drag.handleDragEnd.
    cbn -[Js.substring Js.len Drag.charDiff List.find Obj.strict_eq].
    destruct (List.find _ spans); reflexivity.
Qed.

(** ** Visualizer Controller and Correction Ledger *)

Section ControllerFacts.

Implicit Types (st : Controller.state) (h : Controller.heap).

Lemma alloc_obj_spec (o : obj) h :
  Controller.objs (snd (Controller.alloc_obj o h)) = (Controller.objs h ++ [o])%list
  /\ Controller.arrays (snd (Controller.alloc_obj o h)) = Controller.arrays h.
Proof. split; reflexivity. Qed.

(** The store after [write_edit]: the objects are extended by one, and
    the only array written is [a]. *)
Lemma write_edit_store html now act cand (a : Controller.loc) h :
  exists o xs,
    Controller.objs (Controller.write_edit html now act cand a h)
    = (Controller.objs h ++ [o])%list
    /\ Controller.arrays (Controller.write_edit html now act cand a h)
       = <[a := xs]> (Controller.arrays h).
Proof.
  unfold Controller.write_edit.
  destruct act as [act|].
  - destruct (Controller.findIndex _ _) as [i|]; simpl; eauto.
  - simpl; eauto.
Qed.

(** The store after [ensure_entry]: nothing is written; the array of a
    new entry is appended. *)
Lemma ensure_entry_store (p : Controller.prediction)
    (fb : gmap string Controller.correction) h :
  match fb !! Controller.prediction_id p with
  | Some c =>
      Controller.ensure_entry p fb h
      = (fb, h, Controller.evidence_spans (Controller.corrected_value c))
  | None =>
      exists c,
        Controller.ensure_entry p fb h
        = (<[Controller.prediction_id p := c]> fb,
           {| Controller.objs := Controller.objs h;
              Controller.arrays :=
                (Controller.arrays h
                 ++ [Controller.array_at h (Controller.evidence_spans p)])%list |},
           length (Controller.arrays h))
        /\ Controller.evidence_spans (Controller.corrected_value c)
           = length (Controller.arrays h)
  end.
Proof.
  unfold Controller.ensure_entry.
  destruct (fb !! Controller.prediction_id p); [reflexivity|].
  simpl. eexists. split; reflexivity.
Qed.

Lemma session_inv_init h0 : session_inv h0 (Controller.init h0).
Proof.
  unfold session_inv, Controller.init; simpl.
  rewrite !firstn_all. split; [reflexivity|]. split; [reflexivity|].
  intros pid c H. rewrite lookup_empty in H. discriminate.
Qed.

Lemma take_prefix_app {A} (l0 l : list A) (x : list A) :
  take (length l0) l = l0 -> take (length l0) (l ++ x) = l0.
Proof.
  intros H. rewrite take_app_le; [exact H|].
  rewrite <- H at 1. rewrite length_take. lia.
Qed.

Lemma session_inv_apply h0 st html now :
  session_inv h0 st -> session_inv h0 (Controller.applySpanEdit html now st).
Proof.
  intros (Ho & Ha & Hl). unfold Controller.applySpanEdit.
  destruct (Controller.selectedPrediction st) as [p|]; [|repeat split; assumption].
  destruct (Controller.highlightedText st) as [cand|]; [|repeat split; assumption].
  pose proof (ensure_entry_store p (Controller.feedbackData st)
                (Controller.store st)) as He.
  destruct (Controller.feedbackData st !! Controller.prediction_id p)
    as [c|] eqn:Hc.
  - rewrite He.
    destruct (write_edit_store html now (Controller.activeSpan st) cand
                (Controller.evidence_spans (Controller.corrected_value c))
                (Controller.store st)) as (o & xs & Hwo & Hwa).
    unfold session_inv; simpl. rewrite Hwo, Hwa.
    split; [apply take_prefix_app; exact Ho|].
    split; [|exact Hl].
    rewrite take_insert_ge; [exact Ha|]. eapply Hl; exact Hc.
  - destruct He as (c' & He & Hc'). rewrite He.
    match goal with
    | |- context [Controller.write_edit ?a ?b ?c ?d ?e ?f] =>
        destruct (write_edit_store a b c d e f) as (o & xs & Hwo & Hwa)
    end.
    unfold session_inv; simpl. rewrite Hwo, Hwa. simpl.
    split; [apply take_prefix_app; exact Ho|].
    split.
    + rewrite take_insert_ge.
      * apply take_prefix_app; exact Ha.
      * rewrite <- Ha at 1. rewrite length_take. lia.
    + intros pid c0 H0.
      destruct (decide (Controller.prediction_id p = pid)) as [<-|Hne].
      * rewrite lookup_insert_eq in H0. injection H0 as <-.
        rewrite Hc'. rewrite <- Ha at 1. rewrite length_take. lia.
      * rewrite lookup_insert_ne in H0 by exact Hne. eapply Hl; exact H0.
Qed.

Lemma session_inv_step h0 st (e : Controller.event) :
  session_inv h0 st -> session_inv h0 (Controller.step e st).
Proof.
  intros H. destruct e; simpl;
    try (destruct H as (Ho & Ha & Hl); repeat split; assumption).
  - unfold Controller.handleSpanClick. destruct readOnly; [exact H|].
    destruct H as (Ho & Ha & Hl); repeat split; assumption.
  - unfold Controller.handleSpanMetadataChange.
    destruct (Controller.highlightedText st); [|exact H].
    destruct H as (Ho & Ha & Hl); repeat split; assumption.
  - apply session_inv_apply; exact H.
  - unfold Controller.handleSubmitFeedback.
    destruct (decide _); [exact H|].
    destruct H as (Ho & Ha & Hl).
    destruct (onFeedbackSubmit _); unfold session_inv; simpl;
      repeat split; try assumption;
      intros pid c Hc; rewrite lookup_empty in Hc; discriminate.
Qed.

Lemma session_inv_run h0 (es : list Controller.event) st :
  session_inv h0 st -> session_inv h0 (Controller.run es st).
Proof.
  revert st. induction es as [|e es IH]; intros st H; simpl; [exact H|].
  apply IH. apply session_inv_step. exact H.
Qed.

End ControllerFacts.

(** C8: over any session of the component on an [apiResponse] whose
    objects are [h0], applying an edit leaves the evidence array of every
    prediction of the response, the selected one included, as the response
    gave it, and leaves every span object of the response as it was: the
    writes of [applySpanEdit] go to the array its ledger entry owns and to
    objects it allocates. *)
Theorem applySpanEdit_leaves_evidence :
  forall (h0 : Controller.heap) (es : list Controller.event)
         (isHtmlContent : bool) (now : Z) (p : Controller.prediction)
         (xs : list Controller.loc),
    let st := Controller.run es (Controller.init h0) in
    let st' := Controller.applySpanEdit isHtmlContent now st in
    Controller.arrays h0 !! Controller.evidence_spans p = Some xs ->
    Controller.arrays (Controller.store st) !! Controller.evidence_spans p
    = Some xs
    /\ Controller.arrays (Controller.store st') !! Controller.evidence_spans p
       = Some xs
    /\ forall (l : Controller.loc) (o : obj),
        Controller.objs h0 !! l = Some o ->
        Controller.objs (Controller.store st) !! l = Some o
        /\ Controller.objs (Controller.store st') !! l = Some o.
Proof.
  intros h0 es html now p xs st st' Hxs.
  assert (session_inv h0 st) as Hst
    by (apply session_inv_run, session_inv_init).
  assert (session_inv h0 st') as Hst'
    by (apply session_inv_apply; exact Hst).
  destruct Hst as (Ho & Ha & _). destruct Hst' as (Ho' & Ha' & _).
  assert (Controller.evidence_spans p < length (Controller.arrays h0))%nat
    as Hlt by (eapply lookup_lt_Some; exact Hxs).
  split; [|split].
  - rewrite <- Hxs, <- Ha at 1. rewrite lookup_take_lt by exact Hlt.
    reflexivity.
  - rewrite <- Hxs, <- Ha' at 1. rewrite lookup_take_lt by exact Hlt.
    reflexivity.
  - intros l o Hl.
    assert (l < length (Controller.objs h0))%nat as Hl'
      by (eapply lookup_lt_Some; exact Hl).
    split.
    + rewrite <- Hl, <- Ho at 1. rewrite lookup_take_lt by exact Hl'.
      reflexivity.
    + rewrite <- Hl, <- Ho' at 1. rewrite lookup_take_lt by exact Hl'.
      reflexivity.
Qed.

(** C8 on the example session, at its second edit. *)
Lemma applySpanEdit_leaves_evidence_witness :
  let st := ledger_example_session (ledger_example_edit 1 100) in
  let st' :=
    Controller.applySpanEdit true 200
      (Controller.run
         [Controller.set_active (Some (Controller.span_ref O));
          Controller.set_highlighted
            (Some (<["relative_start" := VNum 2]> ledger_example_span))]
         st) in
  Controller.arrays (Controller.store st') !! O = Some [O]
  /\ Controller.objs (Controller.store st') !! O = Some ledger_example_span
  /\ Controller.arrays (Controller.store st') !! 1%nat = Some [1%nat; 2%nat].
Proof.
  intros st st'.
  destruct (applySpanEdit_leaves_evidence ledger_example_heap
              (Controller.select ledger_example_prediction
               :: ledger_example_edit 1 100
               ++ [Controller.set_active (Some (Controller.span_ref O));
                   Controller.set_highlighted
                     (Some (<["relative_start" := VNum 2]>
                              ledger_example_span))])
              true 200 ledger_example_prediction [O] eq_refl)
    as (_ & Harr & Hobj).
  split; [exact Harr|].
  split; [exact (proj2 (Hobj O ledger_example_span eq_refl))|].
  vm_compute. reflexivity.
Defined.

(** The ledger with one correction, as the example session leaves it. *)
Lemma ledger_example_nonempty :
  size (Controller.feedbackData
          (ledger_example_session (ledger_example_edit 1 100))) = 1%nat.
Proof. vm_compute. reflexivity. Qed.

(** C3, as the specification states it, fails when the sink rejects: the
    call returned, so the ledger that held one correction is emptied. *)
Lemma submit_rejected_clears_ledger :
  let st := ledger_example_session (ledger_example_edit 1 100) in
  size (Controller.feedbackData st) = 1%nat
  /\ Controller.feedbackData
       (fst (Controller.handleSubmitFeedback
               (fun _ => Controller.rejects) st))
     = ∅.
Proof. split; vm_compute; reflexivity. Qed.

(** C3 (amended): on a ledger that is not empty, submitting hands the
    whole ledger to the sink in one call. When that call returns, whether
    what it started is later fulfilled or rejected, the ledger is left
    empty; when the call raises, the whole state, the ledger included, is
    left as it was. *)
Theorem submit_hands_over_and_clears :
  forall (sink : gmap string Controller.correction -> Controller.outcome)
         (st : Controller.state),
    Controller.feedbackData st <> ∅ ->
    snd (Controller.handleSubmitFeedback sink st)
    = [Controller.feedbackData st]
    /\ match sink (Controller.feedbackData st) with
       | Controller.throws =>
           fst (Controller.handleSubmitFeedback sink st) = st
       | _ =>
           Controller.feedbackData
             (fst (Controller.handleSubmitFeedback sink st)) = ∅
           /\ Controller.store
                (fst (Controller.handleSubmitFeedback sink st))
              = Controller.store st
       end.
Proof.
  intros sink st Hne. unfold Controller.handleSubmitFeedback.
  destruct (decide (size (Controller.feedbackData st) = 0%nat)) as [Hz|Hz].
  - apply map_size_empty_iff in Hz. contradiction.
  - destruct (sink (Controller.feedbackData st)); simpl; auto.
Qed.

(** The amended C3 on the example ledger, with a sink that raises. *)
Lemma submit_hands_over_and_clears_witness :
  let st := ledger_example_session (ledger_example_edit 1 100) in
  snd (Controller.handleSubmitFeedback (fun _ => Controller.throws) st)
  = [Controller.feedbackData st]
  /\ fst (Controller.handleSubmitFeedback (fun _ => Controller.throws) st)
     = st.
Proof.
  intros st.
  apply (submit_hands_over_and_clears (fun _ => Controller.throws) st).
  intros H. apply map_size_empty_iff in H.
  pose proof ledger_example_nonempty as Hn. fold st in Hn.
  rewrite H in Hn. discriminate Hn.
Defined.

(** C9, as the specification states it, fails for cancel: the span made
    active before the edit is still the active span after
    [cancelSpanEdit]. *)
Lemma cancel_keeps_active_span :
  let st :=
    Controller.run
      [Controller.select ledger_example_prediction;
       Controller.set_edit true;
       Controller.set_active (Some (Controller.span_ref O))]
      (Controller.init ledger_example_heap) in
  Controller.activeSpan (Controller.cancelSpanEdit st)
  = Some (Controller.span_ref O).
Proof. reflexivity. Qed.

(** C9 (amended): the state has one cell for the active span. Selecting a
    prediction clears it. Submitting clears it when the ledger is not
    empty and the call of the sink returns; on an empty ledger, or when
    the sink raises, it is left as it was. Cancelling an edit leaves the
    active span as it was, and clears the edit mode, the pending candidate
    and the selection mode. *)
Theorem active_span_clearing :
  forall (st : Controller.state) (p : Controller.prediction)
         (sink : gmap string Controller.correction -> Controller.outcome),
    Controller.activeSpan (Controller.handlePredictionSelect p st) = None
    /\ Controller.activeSpan (fst (Controller.handleSubmitFeedback sink st))
       = (if decide (Controller.feedbackData st = ∅)
          then Controller.activeSpan st
          else match sink (Controller.feedbackData st) with
               | Controller.throws => Controller.activeSpan st
               | _ => None
               end)
    /\ Controller.activeSpan (Controller.cancelSpanEdit st)
       = Controller.activeSpan st
    /\ Controller.editMode (Controller.cancelSpanEdit st) = false
    /\ Controller.highlightedText (Controller.cancelSpanEdit st) = None
    /\ Controller.selectionMode (Controller.cancelSpanEdit st) = false.
Proof.
  intros st p sink. split; [reflexivity|]. split; [|repeat split].
  unfold Controller.handleSubmitFeedback.
  destruct (decide (size (Controller.feedbackData st) = 0%nat)) as [Hz|Hz];
    destruct (decide (Controller.feedbackData st = ∅)) as [He|He].
  - reflexivity.
  - apply map_size_empty_iff in Hz. contradiction.
  - rewrite He in Hz. rewrite map_size_empty in Hz. contradiction.
  - destruct (sink (Controller.feedbackData st)); reflexivity.
Qed.

(** ** Text Locator *)

Section LocatorFacts.

(** [indexOf] finds a text that occurs, at or before any of its
    occurrences. *)
Lemma index_of_occurrence (tc t : string) (p : nat) :
  t <> EmptyString ->
  String.substring p (String.length t) tc = t ->
  exists q, String.index 0 t tc = Some q /\ (q <= p)%nat
            /\ String.substring q (String.length t) tc = t
            /\ forall r, (r < q)%nat ->
                 String.substring r (String.length t) tc <> t.
Proof.
  intros Ht Hp.
  destruct (String.index 0 t tc) as [q|] eqn:Hi.
  - exists q. split; [reflexivity|].
    split; [|split].
    + destruct (le_lt_dec q p) as [Hle|Hgt]; [exact Hle|].
      exfalso. apply (String.index_correct2 _ _ _ _ Hi p); [lia|exact Hgt|exact Hp].
    + exact (String.index_correct1 _ _ _ _ Hi).
    + intros r Hr. apply (String.index_correct2 _ _ _ _ Hi r); [lia|exact Hr].
  - exfalso. apply (String.index_correct3 0 p t tc Hi Ht); [lia|exact Hp].
Qed.

Lemma nonempty_of_length (t : string) : (0 < String.length t)%nat -> t <> EmptyString.
Proof. intros H ->. simpl in H. lia. Qed.

Lemma eqb_empty_false (t : string) : t <> EmptyString -> (t =? "")%string = false.
Proof. intros H. apply String.eqb_neq. exact H. Qed.

End LocatorFacts.

(** A span that declares no text is located by its declared offsets. *)
Lemma locate_without_text (textContent : string) (span : obj) (rs re : Z) :
  0 <= rs < re ->
  re <= Js.len textContent ->
  span !! "relative_start" = Some (VNum rs) ->
  span !! "relative_end" = Some (VNum re) ->
  span !! "text" = None ->
  Locator.locate textContent span = Some (rs, re).
Proof.
  intros Hrs Hre Hs He Ht.
  unfold Locator.locate, Locator.search, Locator.offset_or_zero, Obj.num, Obj.str.
  rewrite Hs, He, Ht.
  replace (Z.min (Z.max 0 rs) (Js.len textContent)) with rs by lia.
  replace (Z.min re (Js.len textContent)) with re by lia.
  replace ((rs >=? re) || (re <=? 0) || (re >? Js.len textContent))%Z
    with false; [reflexivity|].
  symmetry. rewrite !orb_false_iff.
  rewrite Z.geb_leb, Z.gtb_ltb, !Z.leb_gt, Z.ltb_ge. lia.
Qed.

(** C6, as the specification states it, fails when the declared text
    occurs earlier in the node: [3, 5) bounds the second "ab" of "ab ab",
    and the locator returns the range of the first. *)
Lemma locate_prefers_first_occurrence :
  let span : obj :=
    <["relative_start" := VNum 3]>
      (<["relative_end" := VNum 5]> (<["text" := VStr "ab"]> ∅)) in
  Js.substring "ab ab" 3 5 = "ab"
  /\ Locator.locate "ab ab" span = Some (0, 2).
Proof. split; vm_compute; reflexivity. Qed.

(** C6 (amended): for declared offsets [0 <= relativeStart < relativeEnd
    <= length] that bound the declared text in the node's text, the Text
    Locator returns the range of the first occurrence of that text: a range
    of the same length that starts at or before [relativeStart] and holds
    the same characters. It is [relativeStart, relativeEnd) itself when the
    text does not occur at an earlier position. *)
Theorem locate_first_occurrence :
  forall (textContent : string) (span : obj) (rs re : Z),
    0 <= rs < re ->
    re <= Js.len textContent ->
    span !! "relative_start" = Some (VNum rs) ->
    span !! "relative_end" = Some (VNum re) ->
    span !! "text" = Some (VStr (Js.substring textContent rs re)) ->
    exists q,
      Locator.locate textContent span = Some (q, q + (re - rs))
      /\ 0 <= q <= rs
      /\ Js.substring textContent q (q + (re - rs))
         = Js.substring textContent rs re
      /\ (forall p, 0 <= p < q ->
            Js.substring textContent p (p + (re - rs))
            <> Js.substring textContent rs re)
      /\ ((forall p, 0 <= p < rs ->
             Js.substring textContent p (p + (re - rs))
             <> Js.substring textContent rs re) ->
          q = rs).
Proof.
  intros tc span rs re Hrs Hre Hs He Ht.
  set (t := Js.substring tc rs re) in *.
  assert (Js.len t = re - rs) as Hlen
    by (apply js_len_substring; lia).
  assert (String.length t = Z.to_nat (re - rs)) as Hlen'
    by (unfold Js.len in Hlen; lia).
  assert (t <> EmptyString) as Hne
    by (apply nonempty_of_length; lia).
  assert (String.substring (Z.to_nat rs) (String.length t) tc = t) as Hocc.
  { rewrite Hlen'. symmetry. apply js_substring_in_range; lia. }
  destruct (index_of_occurrence tc t (Z.to_nat rs) Hne Hocc)
    as (q & Hi & Hq & Hat & Hfirst).
  assert (forall p, 0 <= p <= rs ->
            Js.substring tc p (p + (re - rs))
            = String.substring (Z.to_nat p) (String.length t) tc) as Hsub.
  { intros p Hp. rewrite js_substring_in_range by lia.
    rewrite Hlen'. f_equal. f_equal. lia. }
  exists (Z.of_nat q).
  split; [|split; [|split; [|split]]].
  - unfold Locator.locate, Locator.search, Obj.num, Obj.str.
    rewrite He, Ht. fold t.
    rewrite (eqb_empty_false t Hne).
    unfold Js.includes, Js.indexOf. rewrite Hi. rewrite Hlen.
    replace ((Z.of_nat q >=? Z.of_nat q + (re - rs))
             || (Z.of_nat q + (re - rs) <=? 0)
             || (Z.of_nat q + (re - rs) >? Js.len tc))%Z with false.
    + reflexivity.
    + symmetry. rewrite !orb_false_iff.
      rewrite Z.geb_leb, Z.gtb_ltb, !Z.leb_gt, Z.ltb_ge. lia.
  - lia.
  - rewrite Hsub by lia. rewrite Nat2Z.id. exact Hat.
  - intros p Hp. rewrite Hsub by lia. apply Hfirst. lia.
  - intros Hno.
    destruct (Z.eq_dec (Z.of_nat q) rs) as [Heq|Hneq]; [exact Heq|].
    exfalso. apply (Hno (Z.of_nat q)); [lia|].
    rewrite Hsub by lia. rewrite Nat2Z.id. exact Hat.
Qed.

(** The amended C6 on "ab cd" and the range [3, 5). *)
Lemma locate_first_occurrence_witness :
  exists q,
    Locator.locate "ab cd"
      (<["relative_start" := VNum 3]>
         (<["relative_end" := VNum 5]> (<["text" := VStr "cd"]> ∅)))
    = Some (q, q + (5 - 3))
    /\ 0 <= q <= 3.
Proof.
  destruct (locate_first_occurrence "ab cd"
              (<["relative_start" := VNum 3]>
                 (<["relative_end" := VNum 5]> (<["text" := VStr "cd"]> ∅)))
              3 5) as (q & Hq & Hr & _);
    try reflexivity; try (unfold Js.len; simpl; lia).
  exists q. split; assumption.
Defined.

(** ** XPath Resolver *)

Section ResolverFacts.

Lemma substring_all (s : string) : String.substring 0 (String.length s) s = s.
Proof.
  induction s as [|c s IH]; simpl; [reflexivity|]. rewrite IH. reflexivity.
Qed.

Lemma length_substring_le (s : string) (n m : nat) :
  (String.length (String.substring n m s) <= String.length s)%nat.
Proof.
  revert n m. induction s as [|c s IH]; intros [|n] [|m]; simpl; try lia.
  - specialize (IH 0%nat m). lia.
  - specialize (IH n 0%nat). lia.
  - specialize (IH n (S m)). lia.
Qed.

Lemma length_append (s1 s2 : string) :
  String.length (s1 ++ s2) = (String.length s1 + String.length s2)%nat.
Proof. induction s1 as [|c s1 IH]; simpl; [reflexivity|]. rewrite IH. reflexivity. Qed.

Lemma prefix_app (p r : string) : String.prefix p (p ++ r) = true.
Proof.
  induction p as [|c p IH]; simpl; [destruct r; reflexivity|].
  destruct (ascii_dec c c) as [_|Hc]; [exact IH|]. contradiction.
Qed.

Lemma index_0_prefix (p s : string) :
  String.prefix p s = true -> String.index 0 p s = Some 0%nat.
Proof.
  intros H. destruct s as [|b s].
  - destruct p; [reflexivity|]. simpl in H. discriminate.
  - change (String.index 0 p (String b s))
      with (if String.prefix p (String b s) then Some 0%nat
            else match String.index 0 p s with
                 | Some n => Some (S n)
                 | None => None
                 end).
    rewrite H. reflexivity.
Qed.

Lemma substring_skip (p r : string) (m : nat) :
  String.substring (String.length p) m (p ++ r) = String.substring 0 m r.
Proof. induction p as [|c p IH]; simpl; [reflexivity|]. exact IH. Qed.

(** Replacing a prefix by the empty string drops it. *)
Lemma replace_prefix (p r : string) : Js.replace (p ++ r) p "" = r.
Proof.
  unfold Js.replace. rewrite (index_0_prefix p (p ++ r) (prefix_app p r)).
  simpl. rewrite length_append.
  replace (String.length p + String.length r - String.length p)%nat
    with (String.length r) by lia.
  rewrite substring_skip, substring_all.
  destruct (p ++ r); reflexivity.
Qed.

(** Every table-cell expression starts with two slashes. *)
Lemma table_variations_shape (xpath : string) (text : option value) (y : string) :
  y ∈ Resolver.table_variations xpath text -> exists s, y = "//" ++ s.
Proof.
  unfold Resolver.table_variations.
  destruct (Js.includes xpath "table"); [|intros H; inversion H].
  intros H. apply elem_of_cons in H as [->|H]; [eexists; reflexivity|].
  destruct (Resolver.test_tr_td xpath); [|inversion H].
  destruct (Resolver.first_index "tr" xpath); [|inversion H].
  destruct (Resolver.first_index "td" xpath); [|inversion H].
  apply list_elem_of_singleton in H as ->. eexists; reflexivity.
Qed.

(** The loop over the variations returns the first candidate, in order,
    that selects a node. *)
Lemma tryVariations_first_hit {R} (ev : string -> Resolver.context -> Resolver.eval_result R)
    (vs : list string) (n : R) :
  Resolver.tryVariations ev vs = Some n <->
  exists (i : nat) (v : string),
    vs !! i = Some v /\ Resolver.tryOne ev v = Some n
    /\ forall (j : nat) (w : string),
        (j < i)%nat -> vs !! j = Some w -> Resolver.tryOne ev w = None.
Proof.
  induction vs as [|v vs IH]; simpl.
  - split; [discriminate|]. intros (i & w & H & _). rewrite lookup_nil in H.
    discriminate.
  - destruct (Resolver.tryOne ev v) as [r|] eqn:Hv.
    + split.
      * intros [= <-]. exists 0%nat, v. split; [reflexivity|].
        split; [exact Hv|]. intros j w Hj. lia.
      * intros (i & w & Hi & Hw & Hfirst). destruct i as [|i].
        -- simpl in Hi. injection Hi as <-. congruence.
        -- specialize (Hfirst 0%nat v ltac:(lia) eq_refl). congruence.
    + rewrite IH. split.
      * intros (i & w & Hi & Hw & Hfirst). exists (S i), w.
        split; [exact Hi|]. split; [exact Hw|].
        intros [|j] u Hj Hu; simpl in Hu.
        -- injection Hu as <-. exact Hv.
        -- apply (Hfirst j u); [lia|exact Hu].
      * intros (i & w & Hi & Hw & Hfirst). destruct i as [|i].
        -- simpl in Hi. injection Hi as <-. congruence.
        -- exists i, w. split; [exact Hi|]. split; [exact Hw|].
           intros j u Hj Hu. apply (Hfirst (S j) u); [lia|exact Hu].
Qed.

(** One candidate: the wrapper element first, the whole document when the
    element selects nothing. *)
Lemma tryOne_spec {R} (ev : string -> Resolver.context -> Resolver.eval_result R)
    (v : string) (n : R) :
  Resolver.tryOne ev v = Some n <->
  ev v Resolver.element = Resolver.Hit n
  \/ (ev v Resolver.element = Resolver.Miss
      /\ ev v Resolver.document = Resolver.Hit n).
Proof.
  unfold Resolver.tryOne.
  destruct (ev v Resolver.element) as [r| |] eqn:He.
  - split; [intros [= <-]; left; reflexivity|].
    intros [[= <-]|[H _]]; [reflexivity|discriminate].
  - destruct (ev v Resolver.document) as [r| |] eqn:Hd.
    + split; [intros [= <-]; right; split; reflexivity|].
      intros [H|[_ [= <-]]]; [discriminate|reflexivity].
    + split; [discriminate|]. intros [H|[_ H]]; discriminate.
    + split; [discriminate|]. intros [H|[_ H]]; discriminate.
  - split; [discriminate|]. intros [H|[H _]]; discriminate.
Qed.

Lemma dedup_from_elem (seen l : list string) (x : string) :
  x ∈ l -> x ∈ seen \/ x ∈ Resolver.dedup_from seen l.
Proof.
  revert seen. induction l as [|y l IH]; intros seen H; [inversion H|].
  simpl. apply elem_of_cons in H as [->|H].
  - destruct (bool_decide (y ∈ seen)) eqn:Hy.
    + left. apply bool_decide_eq_true in Hy. exact Hy.
    + right. apply elem_of_cons. left. reflexivity.
  - destruct (bool_decide (y ∈ seen)).
    + apply IH. exact H.
    + destruct (IH (y :: seen) H) as [Hs|Hd].
      * apply elem_of_cons in Hs as [->|Hs].
        -- right. apply elem_of_cons. left. reflexivity.
        -- left. exact Hs.
      * right. apply elem_of_cons. right. exact Hd.
Qed.

(** The path as captured is always one of the candidates. *)
Lemma xpathVariations_verbatim (xpath : string) (text : option value) :
  xpath ∈ Resolver.xpathVariations xpath text.
Proof.
  unfold Resolver.xpathVariations, Resolver.dedup.
  destruct (dedup_from_elem [] (Resolver.xpathVariations_raw xpath text) xpath)
    as [H|H]; [|inversion H|exact H].
  unfold Resolver.xpathVariations_raw.
  rewrite !elem_of_app. right. right.
  apply elem_of_cons. right. apply elem_of_cons. left. reflexivity.
Qed.

(** Removing the duplicates of a list that has none leaves it as it is. *)
Lemma dedup_from_NoDup (seen l : list string) :
  (forall x, x ∈ l -> x ∉ seen) -> NoDup l -> Resolver.dedup_from seen l = l.
Proof.
  revert seen. induction l as [|y l IH]; intros seen Hs Hn; simpl; [reflexivity|].
  apply NoDup_cons in Hn as [Hy Hn].
  rewrite bool_decide_eq_false_2 by (apply Hs; apply elem_of_cons; left; reflexivity).
  f_equal. apply IH; [|exact Hn].
  intros x Hx Hin. apply elem_of_cons in Hin as [->|Hin]; [contradiction|].
  apply (Hs x); [apply elem_of_cons; right; exact Hx|exact Hin].
Qed.

Lemma prefix_slash (z : string) : String.prefix "/" (String "/" z) = true.
Proof. destruct z; reflexivity. Qed.

(** The relative path of a path that starts with a slash drops it. *)
Lemma substring_from_slash (s : string) : Js.substring_from ("/" ++ s) 1 = s.
Proof.
  unfold Js.substring_from, Js.substring, Js.clamp, Js.len.
  change ("/" ++ s) with (String "/" s).
  cbn [String.length].
  rewrite Nat2Z.inj_succ.
  pose proof (Zle_0_nat (String.length s)) as Hn.
  rewrite (Z.min_l 1) by lia. rewrite (Z.max_r 0 1) by lia.
  rewrite Z.min_id. rewrite (Z.max_r 0) by lia.
  rewrite (Z.min_l 1) by lia. rewrite (Z.max_r 1) by lia.
  change (Z.to_nat 1) with 1%nat.
  replace (Z.to_nat (Z.succ (Z.of_nat (String.length s)) - 1))
    with (String.length s) by lia.
  cbn [String.substring]. apply substring_all.
Qed.

Lemma simplePath_under_body (s : string) :
  Resolver.simplePath ("/html/body/" ++ s) = s.
Proof.
  unfold Resolver.simplePath, Js.startsWith.
  change ("/html/body/" ++ s) with ("/html/body" ++ ("/" ++ s)).
  rewrite (prefix_app "/html/body" ("/" ++ s)), replace_prefix.
  change ("/" ++ s) with (String "/" s).
  cbn [String.eqb].
  rewrite prefix_slash.
  apply substring_from_slash.
Qed.

(** The table-cell expressions are distinct. *)
Lemma table_variations_NoDup (xpath : string) (text : option value) :
  NoDup (Resolver.table_variations xpath text).
Proof.
  unfold Resolver.table_variations.
  destruct (Js.includes xpath "table"); [|apply NoDup_nil_2].
  destruct (Resolver.test_tr_td xpath); [|apply NoDup_singleton].
  destruct (Resolver.first_index "tr" xpath); [|apply NoDup_singleton].
  destruct (Resolver.first_index "td" xpath); [|apply NoDup_singleton].
  apply NoDup_cons. split; [|apply NoDup_singleton].
  intros H. apply list_elem_of_singleton in H. simpl in H. discriminate H.
Qed.

(** The candidates for a path captured under [/html/body], one by one:
    the body-stripped path, the table-cell expressions, the root-stripped
    path, the relative path, the path as captured. *)
Lemma xpathVariations_under_body (s : string) (text : option value) :
  String.prefix "/" s = false ->
  Resolver.xpathVariations ("/html/body/" ++ s) text
  = (("/" ++ s)%string
     :: Resolver.table_variations ("/html/body/" ++ s) text
     ++ [("/body/" ++ s)%string; s; ("/html/body/" ++ s)%string])%list.
Proof.
  intros Hs.
  unfold Resolver.xpathVariations, Resolver.xpathVariations_raw, Js.startsWith.
  rewrite simplePath_under_body.
  assert (String.prefix "/html/body" ("/html/body/" ++ s) = true) as ->
    by apply (prefix_app "/html/body" ("/" ++ s)).
  assert (String.prefix "/html" ("/html/body/" ++ s) = true) as ->
    by apply (prefix_app "/html" ("/body/" ++ s)).
  assert (Js.replace ("/html/body/" ++ s) "/html/body" "" = "/" ++ s) as ->
    by apply (replace_prefix "/html/body" ("/" ++ s)).
  assert (Js.replace ("/html/body/" ++ s) "/html" "" = "/body/" ++ s) as ->
    by apply (replace_prefix "/html" ("/body/" ++ s)).
  set (x := "/html/body/" ++ s).
  assert (String.length x = 11 + String.length s)%nat as Hlen
    by (subst x; rewrite length_append; reflexivity).
  set (tv := Resolver.table_variations x text).
  assert (forall y, y ∈ tv -> exists z, y = "//" ++ z) as Htv
    by (intros y Hy; eapply table_variations_shape; exact Hy).
  assert (forall y, y ∈ tv -> y <> s) as Htvs.
  { intros y Hy ->. destruct (Htv _ Hy) as (z & ->).
    cbv [String.append] in Hs. rewrite prefix_slash in Hs. discriminate. }
  unfold Resolver.dedup. cbn [app].
  apply dedup_from_NoDup; [intros y _ H; inversion H|].
  apply NoDup_cons. split.
  - intros H. apply elem_of_app in H as [H|H].
    + destruct (Htv _ H) as (z & Hz). cbv [String.append] in Hz.
      injection Hz as Hz. rewrite Hz, prefix_slash in Hs. discriminate.
    + repeat (apply elem_of_cons in H as [H|H]);
        try (apply (f_equal String.length) in H;
             rewrite ?Hlen, ?length_append in H; simpl in H; lia).
      inversion H.
  - apply NoDup_app. split; [apply table_variations_NoDup|]. split.
    + intros y Hy H.
      repeat (apply elem_of_cons in H as [H|H]).
      * destruct (Htv _ Hy) as (z & ->). cbv [String.append] in H. discriminate.
      * exact (Htvs y Hy H).
      * destruct (Htv _ Hy) as (z & ->). subst x. cbv [String.append] in H.
        discriminate.
      * inversion H.
    + apply NoDup_cons. split.
      * intros H. repeat (apply elem_of_cons in H as [H|H]);
          try (apply (f_equal String.length) in H;
               rewrite ?Hlen, ?length_append in H; simpl in H; lia).
        inversion H.
      * apply NoDup_cons. split; [|apply NoDup_singleton].
        intros H. apply list_elem_of_singleton in H.
        apply (f_equal String.length) in H. lia.
Qed.

End ResolverFacts.

(** C5, as the specification states it, fails: for the captured path
    [/html/body/div/p] the candidates are tried in the order body-stripped,
    root-stripped, relative, verbatim. On the example page the relative
    path selects the paragraph of the email, and the resolver returns it;
    the order of the specification, verbatim first, returns the paragraph
    of the host page. *)
Lemma resolve_tries_verbatim_last :
  Resolver.xpathVariations "/html/body/div/p" (Some (VStr "mail"))
  = ["/div/p"; "/body/div/p"; "div/p"; "/html/body/div/p"]
  /\ Resolver.resolve resolver_example_evaluate resolver_example_span
     = Some [1; 1; 0; 0; 0]%nat
  /\ Resolver.spec_resolve resolver_example_evaluate resolver_example_span
     = Some [1; 0; 0]%nat.
Proof. repeat split; vm_compute; reflexivity. Qed.

(** C5 (amended): for a structural span captured under [/html/body], the
    resolver of EmailIntentVisualizer.jsx tries, in this order, the
    body-stripped path, the table-cell expressions (for a path that
    mentions a table), the root-stripped path, the relative path and, last,
    the path as captured. Every candidate is evaluated against the wrapper
    element and, when that selects nothing, against the whole document; the
    node returned is that of the first candidate, in this order, that
    selects one. The resolver of the second component tries the path as
    captured, then the body-stripped path, then the root-stripped path,
    against its context node only. *)
Theorem resolver_candidate_order :
  forall (R : Type)
         (evaluate : string -> Resolver.context -> Resolver.eval_result R)
         (evaluate_all : string -> option (list R))
         (s : string) (span : obj),
    String.prefix "/" s = false ->
    let xpath := "/html/body/" ++ s in
    let candidates :=
      (("/" ++ s)%string
       :: Resolver.table_variations xpath (span !! "text")
       ++ [("/body/" ++ s)%string; s; xpath])%list in
    Resolver.xpathVariations xpath (span !! "text") = candidates
    /\ Resolver.table_variations xpath (span !! "text")
       = (if Js.includes xpath "table"
          then ("//table//tr//td[contains(text(), '"
                ++ Resolver.to_string (span !! "text") ++ "')]")
               :: (if Resolver.test_tr_td xpath
                   then match Resolver.first_index "tr" xpath,
                              Resolver.first_index "td" xpath with
                        | Some tr, Some td =>
                            ["//table/tr[" ++ pretty (Resolver.parseInt tr)
                             ++ "]/td[" ++ pretty (Resolver.parseInt td) ++ "]"]
                        | _, _ => []
                        end
                   else [])
          else [])
    /\ (forall n : R,
          Resolver.resolve evaluate (<["xpath" := VStr xpath]> span) = Some n
          <->
          exists (i : nat) (v : string),
            candidates !! i = Some v
            /\ (evaluate v Resolver.element = Resolver.Hit n
                \/ (evaluate v Resolver.element = Resolver.Miss
                    /\ evaluate v Resolver.document = Resolver.Hit n))
            /\ forall (j : nat) (w : string),
                (j < i)%nat -> candidates !! j = Some w ->
                Resolver.tryOne evaluate w = None)
    /\ Resolver.getElementByXPath evaluate_all (Resolver.normalizeXPath xpath)
       = Resolver.tryAll evaluate_all
           [xpath; ("/" ++ s)%string; ("/" ++ s)%string; ("/body/" ++ s)%string].
Proof.
  intros R evaluate evaluate_all s span Hs xpath candidates.
  pose proof (xpathVariations_under_body s (span !! "text") Hs) as Hv.
  fold xpath in Hv. fold candidates in Hv.
  split; [exact Hv|]. split; [reflexivity|]. split.
  - intros n. unfold Resolver.resolve.
    rewrite lookup_insert_eq.
    assert ((<["xpath" := VStr xpath]> span) !! "text" = span !! "text") as ->
      by (apply lookup_insert_ne; discriminate).
    rewrite Hv, tryVariations_first_hit.
    split.
    + intros (i & v & Hi & Hw & Hfirst). exists i, v.
      split; [exact Hi|]. split; [|exact Hfirst].
      apply tryOne_spec. exact Hw.
    + intros (i & v & Hi & Hw & Hfirst). exists i, v.
      split; [exact Hi|]. split; [|exact Hfirst].
      apply tryOne_spec. exact Hw.
  - unfold Resolver.getElementByXPath, Resolver.normalizeXPath, Js.startsWith.
    cbn [Resolver.original Resolver.simplified Resolver.variations].
    subst xpath.
    change ("/html/body/" ++ s) with ("/html/body" ++ ("/" ++ s)).
    rewrite (prefix_app "/html/body" ("/" ++ s)),
      (replace_prefix "/html/body" ("/" ++ s)).
    change ("/html/body" ++ ("/" ++ s)) with ("/html" ++ ("/body/" ++ s)).
    rewrite (prefix_app "/html" ("/body/" ++ s)),
      (replace_prefix "/html" ("/body/" ++ s)).
    reflexivity.
Qed.

(** The amended C5 on the path of a table cell. *)
Lemma resolver_candidate_order_witness :
  Resolver.xpathVariations "/html/body/table/tr[2]/td[2]" (Some (VStr "EUR"))
  = ["/table/tr[2]/td[2]";
     "//table//tr//td[contains(text(), 'EUR')]";
     "//table/tr[2]/td[2]";
     "/body/table/tr[2]/td[2]";
     "table/tr[2]/td[2]";
     "/html/body/table/tr[2]/td[2]"].
Proof.
  destruct (resolver_candidate_order nat (fun _ _ => Resolver.Miss)
              (fun _ => None) "table/tr[2]/td[2]"
              (<["text" := VStr "EUR"]> ∅) eq_refl) as (H & _).
  refine (eq_trans H _). vm_compute. reflexivity.
Defined.

(** ** Rendering *)

Section DomFacts.

Lemma set_kids_set_kids (p : Dom.path) (ks ks' : list node) (d : node) :
  Dom.set_kids p ks (Dom.set_kids p ks' d) = Dom.set_kids p ks d.
Proof.
  revert d. induction p as [|i p IH]; intros [s|t a kids]; simpl;
    try reflexivity.
  destruct (kids !! i) as [k|] eqn:Hk; simpl.
  - rewrite list_lookup_insert_eq by (eapply lookup_lt_Some; exact Hk).
    rewrite list_insert_insert_eq, IH. reflexivity.
  - rewrite Hk. reflexivity.
Qed.

Lemma get_set_kids (p : Dom.path) (ks : list node) (d : node)
    (t : string) (a : list (string * string)) (k : list node) :
  Dom.get d p = Some (Elem t a k) ->
  Dom.get (Dom.set_kids p ks d) p = Some (Elem t a ks).
Proof.
  revert d. induction p as [|i p IH]; intros [s|t' a' kids]; simpl;
    try discriminate.
  - intros [= -> -> ->]. reflexivity.
  - destruct (kids !! i) as [c|] eqn:Hc; [|discriminate].
    intros H. simpl.
    rewrite list_lookup_insert_eq by (eapply lookup_lt_Some; exact Hc).
    apply IH. exact H.
Qed.

Lemma get_set_kids_inv (p : Dom.path) (ks : list node) (d : node)
    (t : string) (a : list (string * string)) (k : list node) :
  Dom.get (Dom.set_kids p ks d) p = Some (Elem t a k) ->
  exists k0, Dom.get d p = Some (Elem t a k0).
Proof.
  revert d. induction p as [|i p IH]; intros [s|t' a' kids]; simpl;
    try discriminate.
  - intros [= -> -> _]. eexists; reflexivity.
  - destruct (kids !! i) as [c|] eqn:Hc; simpl.
    + rewrite list_lookup_insert_eq by (eapply lookup_lt_Some; exact Hc).
      apply IH.
    + rewrite Hc. discriminate.
Qed.

Lemma splice_deeper (i j : nat) (tp : Dom.path) (new : list node)
    (t : string) (a : list (string * string)) (kids : list node) :
  Dom.splice (i :: j :: tp) new (Elem t a kids)
  = match kids !! i with
    | Some k => Elem t a (<[i := Dom.splice (j :: tp) new k]> kids)
    | None => Elem t a kids
    end.
Proof. reflexivity. Qed.

(** A splice below the container is erased when the children of the
    container are set. *)
Lemma set_kids_splice (c tp : Dom.path) (ks new : list node) (d : node) :
  Render.below c tp = true ->
  Dom.set_kids c ks (Dom.splice tp new d) = Dom.set_kids c ks d.
Proof.
  revert tp d. induction c as [|i c IH]; intros [|j tp] d Hb;
    simpl in Hb; try discriminate.
  - destruct d as [s|t a kids]; [destruct tp; reflexivity|].
    destruct tp as [|j' tp]; simpl; destruct (kids !! j); reflexivity.
  - apply andb_true_iff in Hb as [Hij Hb]. apply Nat.eqb_eq in Hij as <-.
    destruct d as [s|t a kids]; [destruct tp; reflexivity|].
    destruct tp as [|j' tp]; [destruct c; discriminate Hb|].
    rewrite splice_deeper. destruct (kids !! i) as [k|] eqn:Hk; [|reflexivity].
    cbn [Dom.set_kids].
    rewrite list_lookup_insert_eq by (eapply lookup_lt_Some; exact Hk).
    rewrite Hk, list_insert_insert_eq, IH by exact Hb. reflexivity.
Qed.

Lemma set_kids_applyHighlights (b : Render.browser) (v : Render.view)
    (element c : Dom.path) (ks : list node) (spans : list obj) :
  forall (index : nat) (d : node),
    Render.placed_below b v element c index spans d = true ->
    Dom.set_kids c ks (Render.applyHighlights_from b v element index spans d)
    = Dom.set_kids c ks d.
Proof.
  induction spans as [|span rest IH]; intros index d H; simpl in *;
    [reflexivity|].
  apply andb_true_iff in H as [Hhere Hrest].
  rewrite IH by exact Hrest.
  unfold Render.highlightOne.
  destruct (Render.highlightPlan b v element d index span) as [[tp new]|];
    [|reflexivity].
  apply set_kids_splice. exact Hhere.
Qed.

(** When a run of the effect changed nothing outside the container, a
    second run rebuilds the same document. *)
Lemma htmlEffect_twice (b : Render.browser) (v : Render.view)
    (emailBody : Dom.path) (doc : node) :
  Dom.set_kids emailBody [] (Render.htmlEffect b v emailBody doc)
  = Dom.set_kids emailBody [] doc ->
  Render.htmlEffect b v emailBody (Render.htmlEffect b v emailBody doc)
  = Render.htmlEffect b v emailBody doc.
Proof.
  intros Hout.
  assert (forall ks,
            Dom.set_kids emailBody ks (Render.htmlEffect b v emailBody doc)
            = Dom.set_kids emailBody ks doc) as Hany.
  { intros ks. rewrite <- (set_kids_set_kids emailBody ks []), Hout.
    apply set_kids_set_kids. }
  remember (Render.htmlEffect b v emailBody doc) as once eqn:Honce.
  unfold Render.htmlEffect. unfold Render.htmlEffect in Honce.
  destruct (Render.isHtmlContent v); [|reflexivity].
  destruct (Dom.get doc emailBody) as [[s|t a k]|] eqn:Hget.
  - subst once. rewrite Hget. reflexivity.
  - destruct (Render.selectedPrediction v) as [spans|].
    + pose proof (get_set_kids emailBody [] doc t a k Hget) as Hg.
      rewrite <- Hout in Hg. apply get_set_kids_inv in Hg as (k0 & Hg).
      rewrite Hg.
      destruct (Render.parse b (Render.emailContent v));
        rewrite Hany; symmetry; exact Honce.
    + subst once. rewrite Hget. reflexivity.
  - subst once. rewrite Hget. reflexivity.
Qed.

End DomFacts.

(** *** The second component *)

Section SecondComponentFacts.

Local Open Scope list_scope.

Lemma node_ind' (P : node -> Prop) :
  (forall s, P (Text s)) ->
  (forall t a kids, Forall P kids -> P (Elem t a kids)) ->
  forall n, P n.
Proof.
  intros HT HE. fix IH 1. intros [s|t a kids].
  - apply HT.
  - apply HE. induction kids as [|k kids IHk]; constructor.
    + apply IH.
    + exact IHk.
Qed.

Lemma append_empty_r (s : string) : (s ++ "")%string = s.
Proof.
  induction s as [|c s IH]; [reflexivity|].
  change (String c s ++ "")%string with (String c (s ++ "")%string).
  rewrite IH. reflexivity.
Qed.

Lemma get_app (d : node) (p q : Dom.path) :
  Dom.get d (p ++ q) = Dom.get d p ≫= fun r => Dom.get r q.
Proof.
  revert d. induction p as [|i p IH]; intros d; [reflexivity|].
  destruct d as [s|t a kids]; [reflexivity|]. simpl.
  destruct (kids !! i); [apply IH|reflexivity].
Qed.

Lemma get_update (p : Dom.path) (f : node -> node) (d : node) :
  Dom.get (Dom.update p f d) p = f <$> Dom.get d p.
Proof.
  revert d. induction p as [|i p IH]; intros d; [reflexivity|].
  destruct d as [s|t a kids]; [reflexivity|]. simpl.
  destruct (kids !! i) as [k|] eqn:Hk; simpl.
  - rewrite list_lookup_insert_eq by (eapply lookup_lt_Some; exact Hk).
    apply IH.
  - rewrite Hk. reflexivity.
Qed.

Lemma update_update (p : Dom.path) (f g : node -> node) (d : node) :
  Dom.update p f (Dom.update p g d) = Dom.update p (fun n => f (g n)) d.
Proof.
  revert d. induction p as [|i p IH]; intros d; [reflexivity|].
  destruct d as [s|t a kids]; [reflexivity|]. simpl.
  destruct (kids !! i) as [k|] eqn:Hk; simpl.
  - rewrite list_lookup_insert_eq by (eapply lookup_lt_Some; exact Hk).
    rewrite list_insert_insert_eq, IH. reflexivity.
  - rewrite Hk. reflexivity.
Qed.

(** Two functions that agree on the node at [p] update alike. *)
Lemma update_ext_at (p : Dom.path) (f g : node -> node) (d : node) :
  (forall r, Dom.get d p = Some r -> f r = g r) ->
  Dom.update p f d = Dom.update p g d.
Proof.
  revert d. induction p as [|i p IH]; intros d H; [apply H; reflexivity|].
  destruct d as [s|t a kids]; [reflexivity|]. simpl in *.
  destruct (kids !! i) as [k|]; [|reflexivity].
  rewrite (IH k H). reflexivity.
Qed.

Lemma below_split (c tp : Dom.path) :
  Render.below c tp = true -> exists i q, tp = (c ++ i :: q)%list.
Proof.
  revert tp. induction c as [|j c IH]; intros [|k tp] H; simpl in H;
    try discriminate.
  - exists k, tp. reflexivity.
  - apply andb_true_iff in H as [Hjk H]. apply Nat.eqb_eq in Hjk as ->.
    destruct (IH tp H) as (i & q & ->). exists i, q. reflexivity.
Qed.

(** A splice below [c] is an update at [c]. *)
Lemma splice_as_update (c : Dom.path) (i : nat) (q : Dom.path)
    (new : list node) (d : node) :
  Dom.splice (c ++ i :: q) new d = Dom.update c (Dom.splice (i :: q) new) d.
Proof.
  revert d. induction c as [|j c IH]; intros d; [reflexivity|].
  destruct d as [s|t a kids].
  - destruct c; reflexivity.
  - change ((j :: c) ++ i :: q)%list with (j :: (c ++ i :: q))%list.
    destruct (c ++ i :: q)%list as [|i' q'] eqn:Hcq;
      [destruct c; discriminate Hcq|].
    rewrite splice_deeper.
    cbn [Dom.update]. destruct (kids !! j) as [k|]; [|reflexivity].
    rewrite IH. reflexivity.
Qed.

Lemma splice_root (p : Dom.path) (new : list node) (t : string)
    (a : list (string * string)) (kids : list node) :
  exists kids', Dom.splice p new (Elem t a kids) = Elem t a kids'.
Proof.
  destruct p as [|i [|j p]]; simpl; eauto;
    destruct (kids !! i); eauto.
Qed.

(** Replacing the child [Text s] by a node that [f] maps like [Text s]
    is invisible through [f]. *)
Lemma fmap_replace_child {B} (f : node -> B) (kids : list node) (i : nat)
    (s : string) (w : node) :
  kids !! i = Some (Text s) -> f w = f (Text s) ->
  f <$> (take i kids ++ w :: drop (S i) kids) = f <$> kids.
Proof.
  intros Hi Hw.
  rewrite <- (take_drop_middle kids i (Text s) Hi) at 3.
  rewrite !fmap_app, !fmap_cons, Hw. reflexivity.
Qed.

Lemma fmap_insert_same {B} (f : node -> B) (kids : list node) (i : nat)
    (k k' : node) :
  kids !! i = Some k -> f k' = f k -> f <$> <[i := k']> kids = f <$> kids.
Proof.
  intros Hi Hk. rewrite list_fmap_insert, Hk.
  apply list_insert_id. rewrite list_lookup_fmap, Hi. reflexivity.
Qed.

(** Wrapping a text node keeps the text content of every ancestor. *)
Lemma textContent_splice (i : nat) (q : Dom.path) (w r : node) (s : string) :
  Dom.get r (i :: q) = Some (Text s) ->
  Dom.textContent w = s ->
  Dom.textContent (Dom.splice (i :: q) [w] r) = Dom.textContent r.
Proof.
  revert i r. induction q as [|j q IH]; intros i r Hg Hw;
    destruct r as [s'|t a kids]; try discriminate; simpl in Hg.
  - destruct (kids !! i) as [k|] eqn:Hk; [|discriminate].
    injection Hg as ->. simpl. rewrite Hk. simpl.
    rewrite (fmap_replace_child Dom.textContent kids i s w Hk Hw).
    reflexivity.
  - destruct (kids !! i) as [k|] eqn:Hk; [|discriminate].
    rewrite splice_deeper, Hk. cbn [Dom.textContent].
    rewrite (fmap_insert_same Dom.textContent kids i k _ Hk (IH j k Hg Hw)).
    reflexivity.
Qed.

Lemma is_container_splice (p : Dom.path) (new : list node) (r : node) :
  Render.is_container (Dom.splice p new r) = Render.is_container r.
Proof.
  destruct r as [s|t a kids]; [destruct p as [|i [|j p]]; reflexivity|].
  destruct (splice_root p new t a kids) as (kids' & ->). reflexivity.
Qed.

(** [clearHighlights] undoes the wrapping of a text node. *)
Lemma clear_splice (i : nat) (q : Dom.path) (w r : node) (s : string) :
  Dom.get r (i :: q) = Some (Text s) ->
  Render.is_container w = true ->
  Dom.textContent w = s ->
  Render.clear (Dom.splice (i :: q) [w] r) = Render.clear r.
Proof.
  revert i r. induction q as [|j q IH]; intros i r Hg Hc Hw;
    destruct r as [s'|t a kids]; try discriminate; simpl in Hg.
  - destruct (kids !! i) as [k|] eqn:Hk; [|discriminate].
    injection Hg as ->. simpl. rewrite Hk. simpl. f_equal.
    apply (fmap_replace_child _ kids i s w Hk).
    rewrite Hc, Hw. reflexivity.
  - destruct (kids !! i) as [k|] eqn:Hk; [|discriminate].
    rewrite splice_deeper, Hk. cbn [Render.clear]. f_equal.
    apply (fmap_insert_same _ kids i k _ Hk).
    rewrite is_container_splice.
    destruct (Render.is_container k).
    + rewrite (textContent_splice j q w k s Hg Hw). reflexivity.
    + apply IH; assumption.
Qed.

Lemma is_container_clear (n : node) :
  Render.is_container (Render.clear n) = Render.is_container n.
Proof. destruct n; reflexivity. Qed.

(** Clearing twice is clearing once. *)
Lemma clear_clear (n : node) : Render.clear (Render.clear n) = Render.clear n.
Proof.
  induction n as [s|t a kids IH] using node_ind'; [reflexivity|].
  simpl. f_equal. rewrite <- list_fmap_compose.
  apply list_fmap_ext. intros i k Hk. simpl.
  destruct (Render.is_container k) eqn:Hc; [reflexivity|].
  rewrite is_container_clear, Hc.
  rewrite Forall_forall in IH. apply IH.
  eapply list_elem_of_lookup_2. exact Hk.
Qed.

Lemma clearHighlights_twice (c : Dom.path) (d : node) :
  Render.clearHighlights c (Render.clearHighlights c d)
  = Render.clearHighlights c d.
Proof.
  unfold Render.clearHighlights. rewrite update_update.
  apply update_ext_at. intros r _. apply clear_clear.
Qed.

Lemma containerFor_shape (v : Render.view) (span : obj) (spanId s : string) :
  Render.is_container (Render.containerFor v span spanId s) = true
  /\ Dom.textContent (Render.containerFor v span spanId s) = s.
Proof.
  split; [reflexivity|].
  unfold Render.containerFor, Overlay.createOverlayForNode. simpl.
  apply append_empty_r.
Qed.

(** One wrap below the email body is undone by [clearHighlights]. *)
Lemma clearHighlights_wrapOne (v : Render.view) (span : obj)
    (spanId : string) (c : Dom.path) (d : node) (matched : Dom.path) :
  match Render.wrapPlan v span spanId d matched with
  | Some (textNode, _) => Render.below c textNode = true
  | None => True
  end ->
  Render.clearHighlights c (Render.wrapOne v span spanId d matched)
  = Render.clearHighlights c d.
Proof.
  unfold Render.wrapOne, Render.wrapPlan.
  destruct (Dom.get d matched) as [[s0|t a kids]|]; try reflexivity.
  destruct (Dom.findFirstTextNode (Elem t a kids)) as [rel|]; [|reflexivity].
  destruct (Dom.get d (matched ++ rel)) as [[s|t' a' kids']|] eqn:Hg;
    try reflexivity.
  intros Hb. apply below_split in Hb as (i & q & Htp).
  rewrite Htp in *. rewrite splice_as_update.
  unfold Render.clearHighlights. rewrite update_update.
  apply update_ext_at. intros r Hr.
  destruct (containerFor_shape v span spanId s) as [Hc Hw].
  apply (clear_splice i q _ r s); [|exact Hc|exact Hw].
  rewrite get_app, Hr in Hg. exact Hg.
Qed.

Lemma clearHighlights_wrapAll (v : Render.view) (span : obj)
    (spanId : string) (c : Dom.path) (nodes : list Dom.path) :
  forall d : node,
    Render.wrapped_below v span spanId c nodes d = true ->
    Render.clearHighlights c (Render.wrapAll v span spanId nodes d)
    = Render.clearHighlights c d.
Proof.
  induction nodes as [|m rest IH]; intros d H; simpl in *; [reflexivity|].
  apply andb_true_iff in H as [Hm Hrest].
  rewrite IH by exact Hrest.
  apply clearHighlights_wrapOne.
  destruct (Render.wrapPlan v span spanId d m) as [[tp w]|]; [exact Hm|exact I].
Qed.

Lemma clearHighlights_applyHighlights (b : Render.browser) (v : Render.view)
    (now : nat -> Z) (c : Dom.path) (spans : list obj) :
  forall (index : nat) (d : node),
    Render.placed_below_second b v now c index spans d = true ->
    Render.clearHighlights c
      (Render.applyHighlights_second_from b v now c index spans d)
    = Render.clearHighlights c d.
Proof.
  induction spans as [|span rest IH]; intros index d H; simpl in *;
    [reflexivity|].
  apply andb_true_iff in H as [Hhere Hrest].
  rewrite IH by exact Hrest.
  apply clearHighlights_wrapAll. exact Hhere.
Qed.

(** The second run of the effect of the second component rebuilds what a
    single run builds, when the first run wrapped inside the email body
    only. *)
Lemma htmlEffect_second_twice (b : Render.browser) (v : Render.view)
    (now now' : nat -> Z) (c : Dom.path) (doc : node) :
  Render.highlights_inside_second b v now c doc = true ->
  Render.htmlEffect_second b v now' c (Render.htmlEffect_second b v now c doc)
  = Render.htmlEffect_second b v now' c doc.
Proof.
  intros Hin. unfold Render.highlights_inside_second in Hin.
  remember (Render.htmlEffect_second b v now c doc) as once eqn:Honce.
  unfold Render.htmlEffect_second in *.
  destruct (Dom.get doc c) as [[s|t a k]|] eqn:Hget;
    try (subst once; rewrite Hget; reflexivity).
  destruct (Render.selectedPrediction v) as [[|span spans]|];
    try (subst once; rewrite Hget; reflexivity).
  destruct (Render.isHtmlContent v);
    [|subst once; rewrite Hget; reflexivity].
  assert (Render.clearHighlights c once = Render.clearHighlights c doc) as Hc.
  { subst once. rewrite clearHighlights_applyHighlights by exact Hin.
    apply clearHighlights_twice. }
  assert (exists k', Dom.get once c = Some (Elem t a k')) as (k' & Hk').
  { pose proof (get_update c Render.clear once) as Hg.
    fold (Render.clearHighlights c once) in Hg. rewrite Hc in Hg.
    unfold Render.clearHighlights in Hg. rewrite get_update, Hget in Hg.
    destruct (Dom.get once c) as [[s'|t' a' k']|]; try discriminate.
    simpl in Hg. injection Hg as <- <- _. eexists; reflexivity. }
  rewrite Hk', Hc. reflexivity.
Qed.

End SecondComponentFacts.

(** The re-render effect never calls the sanitizer: its result is the
    same under any other one. *)
Lemma applyHighlights_ignores_sanitize (s : string -> string)
    (b : Render.browser) (v : Render.view) (element : Dom.path)
    (spans : list obj) :
  forall (index : nat) (doc : node),
    Render.applyHighlights_from (Render.with_sanitize s b) v element index
      spans doc
    = Render.applyHighlights_from b v element index spans doc.
Proof.
  induction spans as [|span rest IH]; intros index doc; simpl;
    [reflexivity|].
  rewrite IH. reflexivity.
Qed.

(** C2 (the code departs from it): the result of the re-render effect does
    not depend on the sanitizer. On the body [<img src=x onerror=steal()>]
    the element is first rendered sanitized, without the handler; the
    effect then parses the raw content and puts its nodes, handler
    included, into the live document. The second component renders the raw
    content directly. *)
Theorem html_effect_inserts_raw_content :
  let v := example_view "<img src=x onerror=steal()>" [] in
  let mounted := host_page (Render.renderEmailContent example_browser v) in
  (forall (s : string -> string) (b : Render.browser) (w : Render.view)
          (emailBody : Dom.path) (doc : node),
      Render.htmlEffect (Render.with_sanitize s b) w emailBody doc
      = Render.htmlEffect b w emailBody doc)
  /\ Dom.has_attribute "onerror" mounted = false
  /\ Dom.get (Render.htmlEffect example_browser v [1; 1]%nat mounted)
             [1; 1; 0; 0]%nat
     = Some (Elem "img" [("src", "x"); ("onerror", "steal()")] [])
  /\ Dom.has_attribute "onerror"
       (Render.renderEmailContent_second example_browser v) = true.
Proof.
  intros v mounted. split.
  - intros s b w emailBody doc. unfold Render.htmlEffect.
    destruct (Render.isHtmlContent w); [|reflexivity].
    destruct (Dom.get doc emailBody) as [[t|t a k]|]; try reflexivity.
    destruct (Render.selectedPrediction w) as [spans|]; [|reflexivity].
    cbn [Render.with_sanitize Render.parse].
    destruct (Render.parse b (Render.emailContent w)); [reflexivity|].
    apply applyHighlights_ignores_sanitize.
  - repeat split; vm_compute; reflexivity.
Qed.

(** C7, as the specification states it, fails: the captured path of the
    span matches nothing in the email and, through the document-wide
    evaluation, selects the paragraph of the host page. The first run
    highlights "Hello" there; the second run empties the email body only,
    finds the highlight of the first run and nests a second one in it. The
    second component, which clears the containers inside the email body
    only, nests a second container in the same way. *)
Lemma second_run_duplicates_stray_highlight :
  let v := example_view "<span>Hi</span>" [stray_span] in
  let mounted := host_page (Render.renderEmailContent example_browser v) in
  let once := Render.htmlEffect example_browser v [1; 1]%nat mounted in
  let twice := Render.htmlEffect example_browser v [1; 1]%nat once in
  let once' :=
    Render.htmlEffect_second example_browser v (fun _ => 100) [1; 1]%nat
      mounted in
  let twice' :=
    Render.htmlEffect_second example_browser v (fun _ => 100) [1; 1]%nat
      once' in
  Dom.highlights once = ["Hello"]
  /\ Dom.highlights twice = ["Hello"; "Hello"]
  /\ Dom.count Render.is_container once' = 1%nat
  /\ Dom.count Render.is_container twice' = 2%nat.
Proof. repeat split; vm_compute; reflexivity. Qed.

(** C7 (amended): when every highlight of a run of the HTML re-render
    effect is placed inside the email body container, running the effect
    again on the same prediction and content yields the same document, so
    the same highlighted ranges: the container is emptied and rebuilt from
    the content before the highlights are applied. The same holds for the
    second component, whose effect clears the overlay containers of the
    email body before it applies them again: a second run builds what a
    single run at that time builds. *)
Theorem htmlEffect_idempotent_inside :
  forall (b : Render.browser) (v : Render.view) (emailBody : Dom.path)
         (doc : node) (now now' : nat -> Z),
    (Render.highlights_inside b v emailBody doc = true ->
     Render.htmlEffect b v emailBody (Render.htmlEffect b v emailBody doc)
     = Render.htmlEffect b v emailBody doc
     /\ Dom.highlights
          (Render.htmlEffect b v emailBody
             (Render.htmlEffect b v emailBody doc))
        = Dom.highlights (Render.htmlEffect b v emailBody doc))
    /\ (Render.highlights_inside_second b v now emailBody doc = true ->
        Render.htmlEffect_second b v now' emailBody
          (Render.htmlEffect_second b v now emailBody doc)
        = Render.htmlEffect_second b v now' emailBody doc).
Proof.
  intros b v emailBody doc now now'. split.
  - intros Hin.
    assert (Render.htmlEffect b v emailBody
              (Render.htmlEffect b v emailBody doc)
            = Render.htmlEffect b v emailBody doc) as H.
    { apply htmlEffect_twice.
      unfold Render.htmlEffect, Render.highlights_inside in *.
      destruct (Render.isHtmlContent v); [|reflexivity].
      destruct (Dom.get doc emailBody) as [[s|t a k]|]; try reflexivity.
      destruct (Render.selectedPrediction v) as [spans|]; [|reflexivity].
      destruct (Render.parse b (Render.emailContent v)) as [|k0 kids].
      - apply set_kids_set_kids.
      - unfold Render.applyHighlights.
        rewrite set_kids_applyHighlights by exact Hin.
        apply set_kids_set_kids. }
    split; [exact H|]. rewrite H. reflexivity.
  - apply htmlEffect_second_twice.
Qed.

(** The amended C7 on a span of the email itself, and, for the second
    component, on a span whose captured path holds in the host page. *)
Lemma htmlEffect_idempotent_inside_witness :
  let v := example_view "<span>Hi</span>" [mail_span] in
  let mounted := host_page (Render.renderEmailContent example_browser v) in
  let once := Render.htmlEffect example_browser v [1; 1]%nat mounted in
  let v' := example_view "<span>Hi</span>" [hosted_span] in
  let mounted' :=
    host_page (Render.renderEmailContent_second example_browser v') in
  let once' :=
    Render.htmlEffect_second example_browser v' (fun _ => 100) [1; 1]%nat
      mounted' in
  (Render.htmlEffect example_browser v [1; 1]%nat once = once
   /\ Dom.highlights once = ["Hi"])
  /\ (Render.htmlEffect_second example_browser v' (fun _ => 200) [1; 1]%nat
        once'
      = Render.htmlEffect_second example_browser v' (fun _ => 200)
          [1; 1]%nat mounted'
      /\ Dom.count Render.is_container once' = 1%nat).
Proof.
  intros v mounted once v' mounted' once'. split.
  - split.
    + apply (htmlEffect_idempotent_inside example_browser v [1; 1]%nat
               mounted (fun _ => 0) (fun _ => 0)).
      vm_compute. reflexivity.
    + vm_compute. reflexivity.
  - split.
    + apply (htmlEffect_idempotent_inside example_browser v' [1; 1]%nat
               mounted' (fun _ => 100) (fun _ => 200)).
      vm_compute. reflexivity.
    + vm_compute. reflexivity.
Defined.

(** * Further properties of the code *)

(** ** Text Locator: ranges *)

Section LocatorRangeFacts.

Lemma includes_indexOf (s t : string) :
  Js.includes s t = true -> 0 <= Js.indexOf s t.
Proof.
  unfold Js.includes, Js.indexOf.
  destruct (String.index 0 t s); [lia|discriminate].
Qed.

Lemma short_substring (s : string) (q m : nat) :
  (String.length s < q + m)%nat -> (0 < m)%nat ->
  (String.length (String.substring q m s) < m)%nat.
Proof.
  revert q m. induction s as [|c s IH]; intros q m H Hm; simpl in *.
  - destruct q; destruct m; simpl in *; lia.
  - destruct q as [|q].
    + destruct m as [|m]; [lia|]. simpl.
      destruct m as [|m]; [destruct s; simpl; lia|].
      specialize (IH 0%nat (S m)). simpl in IH.
      assert (String.length (String.substring 0 (S m) s) < S m)%nat
        by (apply IH; lia).
      lia.
    + apply IH; lia.
Qed.

(** An occurrence found by [indexOf] lies inside the string. *)
Lemma indexOf_in_range (s t : string) :
  Js.includes s t = true ->
  Js.indexOf s t + Js.len t <= Js.len s
  /\ Js.substring s (Js.indexOf s t) (Js.indexOf s t + Js.len t) = t.
Proof.
  unfold Js.includes, Js.indexOf.
  destruct (String.index 0 t s) as [q|] eqn:Hi; [intros _|discriminate].
  pose proof (String.index_correct1 _ _ _ _ Hi) as Hsub.
  assert (q + String.length t <= String.length s)%nat as Hle.
  { destruct t as [|c0 t0].
    - destruct s; simpl in Hi; injection Hi as <-; simpl; lia.
    - destruct (le_lt_dec (q + String.length (String c0 t0)) (String.length s))
        as [H|H]; [exact H|].
      exfalso.
      pose proof (short_substring s q (String.length (String c0 t0)) H) as Hlt.
      rewrite Hsub in Hlt. simpl in Hlt. lia. }
  split; [unfold Js.len; lia|].
  rewrite js_substring_in_range by (unfold Js.len; lia).
  rewrite Nat2Z.id.
  replace (Z.to_nat (Z.of_nat q + Js.len t - Z.of_nat q))
    with (String.length t) by (unfold Js.len; lia).
  exact Hsub.
Qed.

Lemma search_start_nonneg (tc : string) (text : option string) (r : Z * Z) :
  0 <= fst r -> 0 <= fst (Locator.search tc text r).
Proof.
  intros Hr. unfold Locator.search.
  destruct text as [t|]; [|exact Hr].
  destruct (t =? "")%string; [exact Hr|].
  destruct (Js.includes tc t) eqn:H1; [apply includes_indexOf; exact H1|].
  destruct (Js.includes tc (Js.trim t)) eqn:H2;
    [apply includes_indexOf; exact H2|].
  destruct (Js.len (Js.trim t) >? 5)%Z; [|exact Hr].
  match goal with
  | |- context [Js.includes tc ?p] => destruct (Js.includes tc p) eqn:H3
  end; [apply includes_indexOf; exact H3|exact Hr].
Qed.

Lemma substring_append (s : string) (n m k : nat) :
  (String.substring n m s ++ String.substring (n + m) k s)%string
  = String.substring n (m + k) s.
Proof.
  revert n m. induction s as [|c s IH]; intros n m.
  - destruct n, m, k; reflexivity.
  - destruct n as [|n].
    + destruct m as [|m].
      * reflexivity.
      * change (String.substring 0 (S m) (String c s))
          with (String c (String.substring 0 m s)).
        change (String.substring (0 + S m) k (String c s))
          with (String.substring (0 + m) k s).
        change (String.substring 0 (S m + k) (String c s))
          with (String c (String.substring 0 (m + k) s)).
        change (String c (String.substring 0 m s) ++ String.substring (0 + m) k s)%string
          with (String c (String.substring 0 m s ++ String.substring (0 + m) k s)%string).
        rewrite IH. reflexivity.
    + change (String.substring (S n) m (String c s))
        with (String.substring n m s).
      change (String.substring (S n + m) k (String c s))
        with (String.substring (n + m) k s).
      change (String.substring (S n) (m + k) (String c s))
        with (String.substring n (m + k) s).
      apply IH.
Qed.

(** The three pieces the highlighter cuts a text node into make up the
    text node. *)
Lemma js_substring_partition (s : string) (a b : Z) :
  0 <= a <= b -> b <= Js.len s ->
  (Js.substring s 0 a ++ Js.substring s a b ++ Js.substring_from s b)%string = s.
Proof.
  intros Hab Hb. unfold Js.substring_from.
  rewrite !js_substring_in_range by (unfold Js.len in *; lia).
  replace (Z.to_nat 0) with 0%nat by lia.
  replace (Z.to_nat b) with (Z.to_nat a + Z.to_nat (b - a))%nat at 1 by lia.
  rewrite substring_append.
  replace (Z.to_nat (a - 0)) with (0 + Z.to_nat a)%nat at 1 by lia.
  replace (Z.to_nat a) with (0 + Z.to_nat a)%nat at 2 by lia.
  rewrite substring_append.
  replace (Z.to_nat a + (Z.to_nat (b - a) + Z.to_nat (Js.len s - b)))%nat
    with (String.length s) by (unfold Js.len in *; lia).
  apply substring_all.
Qed.

Lemma locate_in_bounds (tc : string) (span : obj) (a b : Z) :
  Locator.locate tc span = Some (a, b) ->
  0 <= a < b /\ b <= Js.len tc
  /\ (Js.substring tc 0 a ++ Js.substring tc a b
      ++ Js.substring_from tc b)%string = tc.
Proof.
  intros H. unfold Locator.locate in H.
  match type of H with
  | context [Locator.search tc ?t ?r] =>
      pose proof (search_start_nonneg tc t r) as Hs;
      destruct (Locator.search tc t r) as [a' b'] eqn:Hsr
  end.
  simpl in Hs.
  match type of H with
  | (if ?c then _ else _) = _ => destruct c eqn:Hc; [discriminate|]
  end.
  injection H as <- <-.
  rewrite !orb_false_iff in Hc. destruct Hc as [[H1 H2] H3].
  rewrite Z.geb_leb in H1. rewrite Z.gtb_ltb in H3.
  apply Z.leb_gt in H1, H2. apply Z.ltb_ge in H3.
  assert (0 <= a') as Ha by (apply Hs; lia).
  split; [lia|]. split; [lia|].
  apply js_substring_partition; lia.
Qed.

End LocatorRangeFacts.

(** X1. Whenever the Text Locator returns a range, the range is not empty
    and lies inside the text node, and the three pieces the highlighter
    cuts the node into (before, highlighted, after) make up its text. *)
Theorem locate_range_in_bounds :
  forall (textContent : string) (span : obj) (a b : Z),
    Locator.locate textContent span = Some (a, b) ->
    0 <= a < b /\ b <= Js.len textContent
    /\ (Js.substring textContent 0 a ++ Js.substring textContent a b
        ++ Js.substring_from textContent b)%string = textContent.
Proof. intros tc span a b H. apply (locate_in_bounds tc span a b H). Qed.

Lemma locate_range_in_bounds_witness :
  0 <= 6 < 11 /\ 11 <= Js.len "hello world"
  /\ (Js.substring "hello world" 0 6 ++ Js.substring "hello world" 6 11
      ++ Js.substring_from "hello world" 11)%string = "hello world".
Proof.
  apply (locate_range_in_bounds "hello world"
           (<["relative_start" := VNum 0]>
              (<["relative_end" := VNum 3]> (<["text" := VStr "world"]> ∅)))).
  reflexivity.
Defined.

Lemma includes_empty (s : string) : Js.includes s "" = true.
Proof. destruct s; reflexivity. Qed.

Lemma indexOf_empty (s : string) : Js.indexOf s "" = 0.
Proof. destruct s; reflexivity. Qed.

Lemma locate_of_search (tc : string) (span : obj) (t : string) (a b : Z) :
  span !! "text" = Some (VStr t) ->
  (forall r, Locator.search tc (Some t) r = (a, b)) ->
  Locator.locate tc span
  = if ((a >=? b) || (b <=? 0) || (b >? Js.len tc))%Z then None else Some (a, b).
Proof.
  intros Ht Hs. unfold Locator.locate.
  replace (Obj.str span "text") with (Some t)
    by (unfold Obj.str; rewrite Ht; reflexivity).
  rewrite Hs. reflexivity.
Qed.

(** X2. When the declared text of a span occurs in the text node, or
    else its trimmed form, or else (for a trimmed text of more than 5
    characters) the first 15 characters of the trimmed form, the located
    range holds exactly that text, at its first occurrence, whatever
    offsets the span declares: in the last case the highlight covers at
    most 15 characters of the declared text. *)
Theorem locate_found_text :
  forall (textContent : string) (span : obj) (t u : string),
    span !! "text" = Some (VStr t) ->
    t <> "" -> u <> "" ->
    Js.includes textContent u = true ->
    u = t
    \/ (Js.includes textContent t = false /\ u = Js.trim t)
    \/ (Js.includes textContent t = false
        /\ Js.includes textContent (Js.trim t) = false
        /\ 5 < Js.len (Js.trim t)
        /\ u = Js.substring (Js.trim t) 0 (Z.min (Js.len (Js.trim t)) 15)) ->
    Locator.locate textContent span
    = Some (Js.indexOf textContent u, Js.indexOf textContent u + Js.len u)
    /\ Js.substring textContent (Js.indexOf textContent u)
         (Js.indexOf textContent u + Js.len u) = u.
Proof.
  intros tc span t u Ht Hne Hu Hinc Hcase.
  destruct (indexOf_in_range tc u Hinc) as [Hle Hsub].
  pose proof (includes_indexOf tc u Hinc) as Hge.
  assert (0 < Js.len u) as Hlen.
  { unfold Js.len. destruct u; [contradiction|simpl; lia]. }
  split; [|exact Hsub].
  rewrite (locate_of_search tc span t (Js.indexOf tc u)
             (Js.indexOf tc u + Js.len u) Ht).
  - replace ((Js.indexOf tc u >=? Js.indexOf tc u + Js.len u)
             || (Js.indexOf tc u + Js.len u <=? 0)
             || (Js.indexOf tc u + Js.len u >? Js.len tc))%Z with false;
      [reflexivity|].
    symmetry. rewrite !orb_false_iff.
    rewrite Z.geb_leb, Z.gtb_ltb, !Z.leb_gt, Z.ltb_ge. lia.
  - intros r. unfold Locator.search.
    rewrite (eqb_empty_false t Hne).
    destruct Hcase as [->|[[Hno ->]|(Hno & Hno' & Hlong & ->)]].
    + rewrite Hinc. reflexivity.
    + rewrite Hno, Hinc. reflexivity.
    + rewrite Hno, Hno'.
      replace (Js.len (Js.trim t) >? 5)%Z with true
        by (symmetry; rewrite Z.gtb_ltb; apply Z.ltb_lt; exact Hlong).
      rewrite Hinc. reflexivity.
Qed.

Lemma locate_found_text_witness :
  Locator.locate "Dear team" (<["text" := VStr " team "]> ∅) = Some (5, 5 + 4)
  /\ Js.substring "Dear team" 5 (5 + 4) = "team".
Proof.
  apply (locate_found_text "Dear team" (<["text" := VStr " team "]> ∅)
           " team " "team"); try reflexivity; try discriminate.
  right. left. split; reflexivity.
Defined.

(** X3. A span whose declared text is made of white space only and does
    not occur in the text node is skipped, whatever offsets it declares:
    the trimmed text is empty, the empty string is found at offset 0, and
    the empty range is rejected. *)
Theorem locate_blank_text_skipped :
  forall (textContent : string) (span : obj) (t : string),
    span !! "text" = Some (VStr t) ->
    t <> "" ->
    Js.trim t = "" ->
    Js.includes textContent t = false ->
    Locator.locate textContent span = None.
Proof.
  intros tc span t Ht Hne Htrim Hno.
  rewrite (locate_of_search tc span t 0 0 Ht).
  - reflexivity.
  - intros r. unfold Locator.search.
    rewrite (eqb_empty_false t Hne), Hno, Htrim, includes_empty, indexOf_empty.
    reflexivity.
Qed.

Lemma locate_blank_text_skipped_witness :
  Locator.locate "Hello world"
    (<["relative_start" := VNum 0]>
       (<["relative_end" := VNum 5]> (<["text" := VStr "  "]> ∅))) = None.
Proof.
  apply (locate_blank_text_skipped "Hello world" _ "  ");
    try reflexivity; discriminate.
Defined.

(** ** Selection Capture: whole gestures *)

(** X4. A whole drag of a boundary handle (press on the handle, any
    number of moves, release) hands to [setHighlightedText] the span of
    the selected prediction whose id is the element's span id exactly as
    the prediction holds it, or nothing when no span has that id, and
    leaves the drag state idle: the offsets [handleDrag] computes are
    stored on a copy that [handleDragEnd] never sees. *)
Theorem drag_commits_span_unchanged :
  forall (spans : list obj) (h : Drag.handleType) (p : Drag.spanElement)
         (x0 : Z) (moves : list Drag.mouseEvent),
    Drag.handleDragEnd spans
      (fold_left (fun st e => Drag.handleDrag e st) moves
         (Drag.handleDragStart true
            {| Drag.ev_target := Drag.Handle h (Some p); Drag.clientX := x0 |}
            Drag.idle))
    = (Drag.idle,
       List.find
         (fun s => Obj.strict_eq (s !! "id") (Some (VStr (Drag.ds_spanId p))))
         spans).
Proof.
  intros spans h p x0 moves.
  set (inv := fun st : Drag.dragState =>
         exists d, st = {| Drag.isDragging := true;
                           Drag.activeHandle := Some h;
                           Drag.originalSpanData := Some d;
                           Drag.resizing_evidence := true |}
                   /\ Drag.spanId d = Drag.ds_spanId p
                   /\ Drag.newStartOffset d = None
                   /\ Drag.newEndOffset d = None).
  assert (forall st, inv st ->
            inv (fold_left (fun st e => Drag.handleDrag e st) moves st)) as Hrun.
  { induction moves as [|e moves IH]; intros st Hst; [exact Hst|].
    simpl. apply IH. destruct Hst as (d & -> & Hid & Hs & He).
    unfold Drag.handleDrag, Drag.handleDrag_local. simpl.
    destruct h; simpl; eexists; (split; [reflexivity|]); simpl; auto. }
  match goal with
  | |- Drag.handleDragEnd _ (fold_left _ _ ?s0) = _ =>
      destruct (Hrun s0) as (d & -> & Hid & Hs & He)
  end.
  { eexists. split; [reflexivity|]. simpl. auto. }
  unfold Drag.handleDragEnd. simpl. rewrite Hid. f_equal.
  destruct (List.find _ spans) as [o|]; [|reflexivity].
  unfold Drag.updatedSpan. rewrite Hs, He. destruct h; reflexivity.
Qed.

(** X5. While the start handle of a span whose text has [L >= 1]
    characters is dragged, the text node shows the span text without its
    first [max 0 (min k (L - 1))] characters, [k] being the pixel
    displacement divided by 8 and rounded to the nearest integer: at least
    one character is always left, and a drag to the left shows the whole
    text (the span cannot grow). *)
Theorem start_drag_preview :
  forall (st : Drag.dragState) (d : Drag.spanData) (tn : string)
         (e : Drag.mouseEvent),
    Drag.isDragging st = true ->
    Drag.activeHandle st = Some Drag.start ->
    Drag.originalSpanData st = Some d ->
    Drag.textNode d = Some tn ->
    1 <= Js.len (Drag.spanText d) ->
    let L := Js.len (Drag.spanText d) in
    let x := Drag.clientX e - Drag.initialX d in
    let k := Drag.charDiff x in
    let newStart := Z.max 0 (Z.min k (L - 1)) in
    8 * k - 4 <= x < 8 * k + 4
    /\ Drag.textNode <$> Drag.originalSpanData (Drag.handleDrag e st)
       = Some (Some (Js.substring (Drag.spanText d) newStart L))
    /\ Js.len (Js.substring (Drag.spanText d) newStart L) = L - newStart
    /\ 1 <= L - newStart
    /\ (x < 4 -> Js.substring (Drag.spanText d) newStart L = Drag.spanText d).
Proof.
  intros st d tn e Hd Hh Ho Ht HL L x k newStart.
  assert (8 * k - 4 <= x < 8 * k + 4) as Hk.
  { subst k. unfold Drag.charDiff, Drag.approxCharWidth.
    pose proof (Z.div_mod (2 * x + 8) (2 * 8) ltac:(lia)) as Hdm.
    pose proof (Z.mod_pos_bound (2 * x + 8) (2 * 8) ltac:(lia)) as Hm.
    lia. }
  split; [exact Hk|]. split; [|split; [|split]].
  - unfold Drag.handleDrag, Drag.handleDrag_local.
    rewrite Hd, Hh, Ho. simpl. rewrite Ht. reflexivity.
  - rewrite js_len_substring; subst newStart L; lia.
  - subst newStart L; lia.
  - intros Hx. assert (k <= 0) as Hk0 by lia.
    replace newStart with 0 by (subst newStart L; lia).
    rewrite js_substring_in_range by (subst L; lia).
    replace (Z.to_nat (L - 0)) with (String.length (Drag.spanText d))
      by (subst L; unfold Js.len; lia).
    apply substring_all.
Qed.

Lemma start_drag_preview_witness :
  let d :=
    {| Drag.spanId := "s1"; Drag.spanType := "intent"; Drag.fieldName := "";
       Drag.spanText := "world"; Drag.initialX := 100;
       Drag.textNode := Some "world"; Drag.newStartOffset := None;
       Drag.newEndOffset := None |} in
  let st :=
    {| Drag.isDragging := true; Drag.activeHandle := Some Drag.start;
       Drag.originalSpanData := Some d; Drag.resizing_evidence := true |} in
  Drag.textNode
    <$> Drag.originalSpanData
          (Drag.handleDrag
             {| Drag.ev_target := Drag.Other; Drag.clientX := 117 |} st)
  = Some (Some "rld").
Proof.
  intros d st.
  destruct (start_drag_preview st d "world"
              {| Drag.ev_target := Drag.Other; Drag.clientX := 117 |})
    as (_ & Hprev & _); try reflexivity;
    try (unfold Js.len; simpl; lia); exact Hprev.
Defined.

(** ** The live document: text nodes and text content *)

Section TextFacts.

Local Open Scope list_scope.

Lemma find_app_first {A} (p : A -> bool) (l1 l2 : list A) :
  List.find p (l1 ++ l2)
  = match List.find p l1 with Some x => Some x | None => List.find p l2 end.
Proof.
  induction l1 as [|x l1 IH]; [reflexivity|]. simpl.
  destruct (p x); [reflexivity|exact IH].
Qed.

Lemma find_shift (i : nat) (l : list (Dom.path * string)) :
  List.find (fun ps => Dom.nonblank (snd ps))
            ((fun ps => (i :: fst ps, snd ps)) <$> l)
  = (fun ps => (i :: fst ps, snd ps))
      <$> List.find (fun ps => Dom.nonblank (snd ps)) l.
Proof.
  induction l as [|[p s] l IH]; [reflexivity|]. simpl.
  destruct (Dom.nonblank s); [reflexivity|exact IH].
Qed.

Lemma findFirstTextNode_find (n : node) :
  Dom.findFirstTextNode n
  = fst <$> List.find (fun ps => Dom.nonblank (snd ps)) (Dom.text_nodes n).
Proof.
  induction n as [s|t a kids IH] using node_ind'.
  - simpl. destruct (Dom.nonblank s); reflexivity.
  - change (Dom.findFirstTextNode (Elem t a kids))
      with (Dom.findFirstTextNode_from kids O).
    change (Dom.text_nodes (Elem t a kids)) with (Dom.text_nodes_from kids O).
    generalize O. induction IH as [|k ks Hk _ IHks]; intros i;
      [reflexivity|].
    change (Dom.findFirstTextNode_from (k :: ks) i)
      with (match Dom.findFirstTextNode k with
            | Some p => Some (i :: p)
            | None => Dom.findFirstTextNode_from ks (S i)
            end).
    change (Dom.text_nodes_from (k :: ks) i)
      with (((fun ps => (i :: fst ps, snd ps)) <$> Dom.text_nodes k)
            ++ Dom.text_nodes_from ks (S i)).
    rewrite find_app_first, find_shift, Hk.
    destruct (List.find _ (Dom.text_nodes k)) as [[p s]|]; [reflexivity|].
    apply IHks.
Qed.

Lemma text_nodes_from_elem (ks : list node) (i : nat) (p : Dom.path)
    (s : string) :
  (p, s) ∈ Dom.text_nodes_from ks i
  <-> exists j k q, ks !! j = Some k /\ p = (i + j)%nat :: q
                    /\ (q, s) ∈ Dom.text_nodes k.
Proof.
  revert i. induction ks as [|k ks IH]; intros i.
  - simpl. split; [intros H; inversion H|].
    intros (j & k & q & Hj & _). discriminate.
  - change (Dom.text_nodes_from (k :: ks) i)
      with (((fun ps => (i :: fst ps, snd ps)) <$> Dom.text_nodes k)
            ++ Dom.text_nodes_from ks (S i)).
    rewrite elem_of_app, IH. split.
    + intros [H|(j & k' & q & Hj & -> & Hq)].
      * apply list_elem_of_fmap in H as ([q s'] & [= -> ->] & Hq).
        exists O, k, q. rewrite Nat.add_0_r. auto.
      * exists (S j), k', q. split; [exact Hj|]. split; [|exact Hq].
        f_equal. lia.
    + intros ([|j] & k' & q & Hj & -> & Hq).
      * left. injection Hj as <-. apply list_elem_of_fmap.
        exists (q, s). rewrite Nat.add_0_r. auto.
      * right. exists j, k', q. split; [exact Hj|]. split; [|exact Hq].
        f_equal. lia.
Qed.

Lemma text_nodes_get (n : node) (p : Dom.path) (s : string) :
  (p, s) ∈ Dom.text_nodes n <-> Dom.get n p = Some (Text s).
Proof.
  revert p. induction n as [s'|t a kids IH] using node_ind'; intros p.
  - simpl. rewrite list_elem_of_singleton. split.
    + intros [= -> ->]. reflexivity.
    + destruct p; [|discriminate]. intros [= ->]. reflexivity.
  - change (Dom.text_nodes (Elem t a kids)) with (Dom.text_nodes_from kids O).
    rewrite text_nodes_from_elem. rewrite Forall_forall in IH. split.
    + intros (j & k & q & Hj & -> & Hq). simpl. rewrite Hj.
      apply IH; [eapply list_elem_of_lookup_2; exact Hj|exact Hq].
    + destruct p as [|j q]; [discriminate|]. simpl.
      destruct (kids !! j) as [k|] eqn:Hj; [|discriminate].
      intros Hg. exists j, k, q. split; [exact Hj|]. split; [reflexivity|].
      apply IH; [eapply list_elem_of_lookup_2; exact Hj|exact Hg].
Qed.

Lemma string_append_assoc (a b c : string) :
  ((a ++ b) ++ c)%string = (a ++ (b ++ c))%string.
Proof.
  induction a as [|x a IH]; [reflexivity|].
  change (String x ((a ++ b) ++ c)%string = String x (a ++ (b ++ c))%string).
  rewrite IH. reflexivity.
Qed.

Lemma concat_strings_app (l1 l2 : list string) :
  Dom.concat_strings (l1 ++ l2)
  = (Dom.concat_strings l1 ++ Dom.concat_strings l2)%string.
Proof.
  induction l1 as [|x l1 IH]; [reflexivity|]. simpl.
  rewrite IH. symmetry. apply string_append_assoc.
Qed.

(** Replacing a text node by nodes with the same text keeps the text
    content of every ancestor. *)
Lemma textContent_splice_list (p : Dom.path) (new : list node) (r : node)
    (s : string) :
  Dom.get r p = Some (Text s) ->
  Dom.concat_strings (Dom.textContent <$> new) = s ->
  Dom.textContent (Dom.splice p new r) = Dom.textContent r.
Proof.
  intros Hg Hnew. destruct p as [|i q].
  { destruct r; reflexivity. }
  revert i r Hg. induction q as [|j q IH]; intros i r Hg;
    destruct r as [s'|t a kids]; try discriminate; simpl in Hg.
  - destruct (kids !! i) as [k|] eqn:Hk; [|discriminate].
    injection Hg as ->. simpl. rewrite Hk. simpl.
    rewrite <- (take_drop_middle kids i (Text s) Hk) at 3.
    rewrite !fmap_app, !concat_strings_app, fmap_cons. simpl.
    rewrite Hnew. reflexivity.
  - destruct (kids !! i) as [k|] eqn:Hk; [|discriminate].
    rewrite splice_deeper, Hk. cbn [Dom.textContent].
    rewrite (fmap_insert_same Dom.textContent kids i k _ Hk (IH j k Hg)).
    reflexivity.
Qed.

Lemma textContent_createSpanElement (e : Overlay.env) (text : string)
    (isActive : bool) (spanId spanType : string) (fieldName : option string) :
  Dom.textContent
    (Overlay.createSpanElement e text isActive spanId spanType fieldName)
  = text.
Proof.
  unfold Overlay.createSpanElement.
  destruct (Overlay.editMode e && isActive); simpl;
    rewrite ?append_empty_r; reflexivity.
Qed.

Lemma textContent_highlightOne (b : Render.browser) (v : Render.view)
    (element : Dom.path) (doc : node) (index : nat) (span : obj) :
  Dom.textContent (Render.highlightOne b v element doc index span)
  = Dom.textContent doc.
Proof.
  unfold Render.highlightOne, Render.highlightPlan.
  destruct (Resolver.resolve _ span) as [target|]; [|reflexivity].
  destruct (Dom.get doc target) as [targetElement|]; [|reflexivity].
  destruct (Dom.findFirstTextNode targetElement) as [rel|]; [|reflexivity].
  destruct (Dom.get doc (target ++ rel)) as [[tc|? ? ?]|] eqn:Hg;
    try reflexivity.
  destruct (Locator.locate tc span) as [[a c]|] eqn:Hl; [|reflexivity].
  apply (textContent_splice_list _ _ _ tc Hg).
  destruct (locate_in_bounds tc span a c Hl) as (_ & _ & Hpart).
  match goal with
  | |- Dom.concat_strings (Dom.textContent <$> [Text ?x; ?h; Text ?y]) = _ =>
      change (x ++ (Dom.textContent h ++ (y ++ "")) = tc)%string
  end.
  rewrite textContent_createSpanElement, append_empty_r.
  exact Hpart.
Qed.

Lemma textContent_clear (n : node) :
  Dom.textContent (Render.clear n) = Dom.textContent n.
Proof.
  induction n as [s|t a kids IH] using node_ind'; [reflexivity|].
  simpl. f_equal. rewrite <- list_fmap_compose.
  apply list_fmap_ext. intros i k Hk. simpl.
  destruct (Render.is_container k); [reflexivity|].
  rewrite Forall_forall in IH. apply IH.
  eapply list_elem_of_lookup_2. exact Hk.
Qed.

Lemma textContent_update (p : Dom.path) (f : node -> node) (d : node) :
  (forall n, Dom.textContent (f n) = Dom.textContent n) ->
  Dom.textContent (Dom.update p f d) = Dom.textContent d.
Proof.
  intros Hf. revert d. induction p as [|i p IH]; intros d; [apply Hf|].
  destruct d as [s|t a kids]; [reflexivity|]. simpl.
  destruct (kids !! i) as [k|] eqn:Hk; [|reflexivity].
  cbn [Dom.textContent].
  rewrite (fmap_insert_same Dom.textContent kids i k _ Hk (IH k)).
  reflexivity.
Qed.

Lemma textContent_wrapAll (v : Render.view) (span : obj) (spanId : string)
    (nodes : list Dom.path) (d : node) :
  Dom.textContent (Render.wrapAll v span spanId nodes d) = Dom.textContent d.
Proof.
  revert d. induction nodes as [|m rest IH]; intros d; [reflexivity|].
  simpl. rewrite IH. unfold Render.wrapOne, Render.wrapPlan.
  destruct (Dom.get d m) as [[s0|t a kids]|]; try reflexivity.
  destruct (Dom.findFirstTextNode (Elem t a kids)) as [rel|]; [|reflexivity].
  destruct (Dom.get d (m ++ rel)) as [[s|t' a' kids']|] eqn:Hg;
    try reflexivity.
  apply (textContent_splice_list _ _ _ s Hg).
  destruct (containerFor_shape v span spanId s) as [_ Hw].
  match goal with
  | |- Dom.concat_strings (Dom.textContent <$> [?w]) = _ =>
      change (Dom.textContent w ++ "" = s)%string
  end.
  rewrite Hw. apply append_empty_r.
Qed.

(** What [clear] leaves below a node holds no overlay container. *)
Lemma clear_no_container (n : node) (i : nat) (q : Dom.path) (x : node) :
  Dom.get (Render.clear n) (i :: q) = Some x -> Render.is_container x = false.
Proof.
  revert i q. induction n as [s|t a kids IH] using node_ind'; intros i q;
    [discriminate|].
  simpl. rewrite list_lookup_fmap.
  destruct (kids !! i) as [k|] eqn:Hk; [|discriminate]. simpl.
  destruct (Render.is_container k) eqn:Hc.
  - destruct q; [|discriminate]. intros [= <-]. reflexivity.
  - destruct q as [|j q].
    + intros [= <-]. rewrite is_container_clear. exact Hc.
    + rewrite Forall_forall in IH. apply IH.
      eapply list_elem_of_lookup_2. exact Hk.
Qed.

End TextFacts.

(** X6. [findFirstTextNode] returns the first text node in document order
    whose trimmed content is not empty, and nothing when the subtree has
    none; the text nodes in document order are exactly the paths that lead
    to a text node. *)
Theorem findFirstTextNode_first_nonblank :
  forall n : node,
    Dom.findFirstTextNode n
    = fst <$> List.find (fun ps => Dom.nonblank (snd ps)) (Dom.text_nodes n)
    /\ forall (p : Dom.path) (s : string),
         (p, s) ∈ Dom.text_nodes n <-> Dom.get n p = Some (Text s).
Proof.
  intros n. split; [apply findFirstTextNode_find|].
  intros p s. apply text_nodes_get.
Qed.

(** X7. [applyHighlights] never changes the text of the document: a span
    is rendered by cutting one text node into the text before the range,
    the highlight element and the text after it, and the three read the
    same as the node they replace; a span that is skipped changes
    nothing. *)
Theorem applyHighlights_keeps_text :
  forall (b : Render.browser) (v : Render.view) (element : Dom.path)
         (spans : list obj) (doc : node),
    Dom.textContent (Render.applyHighlights b v element spans doc)
    = Dom.textContent doc.
Proof.
  intros b v element spans. unfold Render.applyHighlights. generalize O.
  induction spans as [|span rest IH]; intros index doc; [reflexivity|].
  simpl. rewrite IH. apply textContent_highlightOne.
Qed.

(** X8. In the second component neither [clearHighlights] nor the effect
    that clears and applies the overlays changes the text of the
    document. *)
Theorem overlays_keep_text :
  forall (b : Render.browser) (v : Render.view) (now : nat -> Z)
         (emailBody : Dom.path) (doc : node),
    Dom.textContent (Render.clearHighlights emailBody doc) = Dom.textContent doc
    /\ Dom.textContent (Render.htmlEffect_second b v now emailBody doc)
       = Dom.textContent doc.
Proof.
  intros b v now emailBody doc.
  assert (Dom.textContent (Render.clearHighlights emailBody doc)
          = Dom.textContent doc) as Hclear
    by (apply textContent_update, textContent_clear).
  split; [exact Hclear|].
  unfold Render.htmlEffect_second.
  destruct (Dom.get doc emailBody) as [[s|t a k]|]; try reflexivity.
  destruct (Render.selectedPrediction v) as [[|span spans]|]; try reflexivity.
  destruct (Render.isHtmlContent v); [|reflexivity].
  rewrite <- Hclear. generalize (Render.clearHighlights emailBody doc).
  generalize O. generalize (span :: spans). clear.
  intros l. induction l as [|s rest IH]; intros index d; [reflexivity|].
  simpl. rewrite IH. apply textContent_wrapAll.
Qed.

(** X9. After [clearHighlights] no overlay container is left anywhere
    below the email body element. *)
Theorem clearHighlights_leaves_no_container :
  forall (emailBody : Dom.path) (doc : node) (i : nat) (q : Dom.path)
         (x : node),
    Dom.get (Render.clearHighlights emailBody doc) (emailBody ++ i :: q)%list
    = Some x ->
    Render.is_container x = false.
Proof.
  intros emailBody doc i q x H.
  rewrite get_app in H. unfold Render.clearHighlights in H.
  rewrite get_update in H.
  destruct (Dom.get doc emailBody) as [n|]; [|discriminate].
  simpl in H. eapply clear_no_container. exact H.
Qed.

Lemma clearHighlights_leaves_no_container_witness :
  let doc :=
    Elem "div" [("class", "email-body")]
      [Elem "p" []
         [Elem "span" [("class", "evidence-overlay-container")]
            [Text "Hi"; Elem "span" [("class", "evidence-overlay")] []]]] in
  Dom.get (Render.clearHighlights [] doc) [0; 0]%nat = Some (Text "Hi")
  /\ Render.is_container (Text "Hi") = false.
Proof.
  intros doc. split; [reflexivity|].
  apply (clearHighlights_leaves_no_container [] doc 0%nat [0%nat] (Text "Hi")).
  reflexivity.
Defined.

(** ** Correction Ledger: what an edit writes *)

Section LedgerFacts.

Local Open Scope list_scope.
Implicit Types (st : Controller.state) (h : Controller.heap).

Lemma heap_closed_lookup h (a : Controller.loc) (xs : list Controller.loc)
    (l : Controller.loc) :
  heap_closed h = true -> Controller.arrays h !! a = Some xs -> l ∈ xs ->
  (l < length (Controller.objs h))%nat.
Proof.
  unfold heap_closed. intros H Ha Hl.
  rewrite forallb_forall in H.
  assert (In xs (Controller.arrays h)) as Hin
    by (apply list_elem_of_In; eapply list_elem_of_lookup_2; exact Ha).
  specialize (H xs Hin). rewrite forallb_forall in H.
  apply Nat.ltb_lt. apply H. apply list_elem_of_In. exact Hl.
Qed.

Lemma heap_closed_intro (objs : list obj) (arrays : list (list Controller.loc)) :
  (forall xs l, xs ∈ arrays -> l ∈ xs -> (l < length objs)%nat) ->
  heap_closed {| Controller.objs := objs; Controller.arrays := arrays |} = true.
Proof.
  intros H. unfold heap_closed; simpl.
  apply forallb_forall. intros xs Hxs. apply forallb_forall. intros l Hl.
  apply Nat.ltb_lt. apply (H xs l); apply list_elem_of_In; assumption.
Qed.

Lemma heap_closed_elem h (xs : list Controller.loc) (l : Controller.loc) :
  heap_closed h = true -> xs ∈ Controller.arrays h -> l ∈ xs ->
  (l < length (Controller.objs h))%nat.
Proof.
  intros H Hxs Hl. apply list_elem_of_lookup_1 in Hxs as [a Ha].
  eapply heap_closed_lookup; eassumption.
Qed.

(** Objects of the store read the same after an allocation. *)
Lemma fmap_obj_at_alloc h (o : obj) (arrays' : list (list Controller.loc))
    (xs : list Controller.loc) :
  (forall l, l ∈ xs -> (l < length (Controller.objs h))%nat) ->
  Controller.obj_at
    {| Controller.objs := Controller.objs h ++ [o]; Controller.arrays := arrays' |}
    <$> xs
  = Controller.obj_at h <$> xs.
Proof.
  intros H. apply list_fmap_ext. intros i l Hl.
  unfold Controller.obj_at; simpl.
  rewrite lookup_app_l; [reflexivity|].
  apply H. eapply list_elem_of_lookup_2. exact Hl.
Qed.

Lemma obj_at_fresh h (o : obj) (arrays' : list (list Controller.loc)) :
  Controller.obj_at
    {| Controller.objs := Controller.objs h ++ [o]; Controller.arrays := arrays' |}
    (length (Controller.objs h)) = o.
Proof.
  unfold Controller.obj_at; simpl.
  rewrite lookup_app_r by lia. rewrite Nat.sub_diag. reflexivity.
Qed.

Lemma findIndex_Some {A} (p : A -> bool) (l : list A) (i : nat) :
  Controller.findIndex p l = Some i ->
  exists x, l !! i = Some x /\ p x = true
            /\ forall j y, (j < i)%nat -> l !! j = Some y -> p y = false.
Proof.
  revert i. induction l as [|x l IH]; intros i H; [discriminate|].
  simpl in H. destruct (p x) eqn:Hx.
  - injection H as <-. exists x. repeat split; [exact Hx|]. intros j y Hj. lia.
  - destruct (Controller.findIndex p l) as [i'|]; [|discriminate].
    injection H as <-. destruct (IH i' eq_refl) as (y & Hy & Hpy & Hbefore).
    exists y. repeat split; [exact Hy|exact Hpy|].
    intros [|j] z Hj Hz; [injection Hz as <-; exact Hx|].
    apply (Hbefore j z); [lia|exact Hz].
Qed.

Lemma findIndex_insert_hit {A} (p : A -> bool) (l : list A) (i : nat) (m : A) :
  Controller.findIndex p l = Some i -> p m = true ->
  Controller.findIndex p (<[i := m]> l) = Some i.
Proof.
  revert i. induction l as [|x l IH]; intros i H Hm; [discriminate|].
  simpl in H. destruct (p x) eqn:Hx.
  - injection H as <-. simpl. rewrite Hm. reflexivity.
  - destruct (Controller.findIndex p l) as [i'|] eqn:Hi; [|discriminate].
    injection H as <-. simpl. rewrite Hx, (IH i' eq_refl Hm). reflexivity.
Qed.

Lemma same_span_objs (html : bool) h h' (act : Controller.active) :
  Controller.objs h = Controller.objs h' ->
  Controller.same_span html h act = Controller.same_span html h' act.
Proof.
  intros H. unfold Controller.same_span, Controller.read_active, Controller.obj_at.
  rewrite H. reflexivity.
Qed.

Lemma back_reference_objs (html : bool) h h' (act : Controller.active)
    (now : Z) (cand : obj) :
  Controller.objs h = Controller.objs h' ->
  Controller.back_reference html h act now cand
  = Controller.back_reference html h' act now cand.
Proof.
  intros H. unfold Controller.back_reference, Controller.read_active,
    Controller.obj_at.
  rewrite H. reflexivity.
Qed.

Lemma array_at_closed h (a : Controller.loc) (l : Controller.loc) :
  heap_closed h = true -> l ∈ Controller.array_at h a ->
  (l < length (Controller.objs h))%nat.
Proof.
  intros Hc Hl. unfold Controller.array_at in Hl.
  destruct (Controller.arrays h !! a) as [xs|] eqn:Ha; simpl in Hl.
  - eapply heap_closed_lookup; eassumption.
  - inversion Hl.
Qed.

(** The list an edit leaves in the array [a] it writes to, and what the
    write keeps. *)
Lemma write_edit_spans (html : bool) (now : Z) (act : option Controller.active)
    (cand : obj) (a : Controller.loc) h (xs : list Controller.loc) :
  heap_closed h = true ->
  Controller.arrays h !! a = Some xs ->
  Controller.spans_of (Controller.write_edit html now act cand a h) a
  = match act with
    | Some ac =>
        match Controller.findIndex (Controller.same_span html h ac)
                (Controller.spans_of h a) with
        | Some i =>
            <[i := Obj.spread (default ∅ (Controller.spans_of h a !! i)) cand]>
              (Controller.spans_of h a)
        | None =>
            Controller.spans_of h a
            ++ [Controller.back_reference html h ac now cand]
        end
    | None =>
        Controller.spans_of h a ++ [<["id" := VStr ("new-" ++ pretty now)]> cand]
    end
  /\ heap_closed (Controller.write_edit html now act cand a h) = true
  /\ length (Controller.arrays (Controller.write_edit html now act cand a h))
     = length (Controller.arrays h)
  /\ forall a', a' <> a ->
       Controller.spans_of (Controller.write_edit html now act cand a h) a'
       = Controller.spans_of h a'.
Proof.
  intros Hc Ha.
  assert (forall l, l ∈ xs -> (l < length (Controller.objs h))%nat) as Hxs
    by (intros l Hl; eapply heap_closed_lookup; eassumption).
  assert (a < length (Controller.arrays h))%nat as Hlt
    by (eapply lookup_lt_Some; exact Ha).
  assert (Controller.spans_of h a = Controller.obj_at h <$> xs) as Hsp
    by (unfold Controller.spans_of, Controller.array_at; rewrite Ha; reflexivity).
  assert (forall o xs',
            (forall l, l ∈ xs' -> (l < S (length (Controller.objs h)))%nat) ->
            let h' := {| Controller.objs := Controller.objs h ++ [o];
                         Controller.arrays := <[a := xs']> (Controller.arrays h) |} in
            Controller.spans_of h' a = Controller.obj_at h' <$> xs'
            /\ heap_closed h' = true
            /\ length (Controller.arrays h') = length (Controller.arrays h)
            /\ forall a', a' <> a ->
                 Controller.spans_of h' a' = Controller.spans_of h a') as Hgen.
  { intros o xs' Hxs' h'. split; [|split; [|split]].
    - unfold Controller.spans_of, Controller.array_at. subst h'; simpl.
      rewrite list_lookup_insert_eq by exact Hlt. reflexivity.
    - subst h'. apply heap_closed_intro. intros ys l Hys Hl.
      rewrite length_app; simpl.
      apply list_elem_of_lookup_1 in Hys as [j Hj].
      destruct (decide (j = a)) as [->|Hne].
      + rewrite list_lookup_insert_eq in Hj by exact Hlt.
        injection Hj as <-. specialize (Hxs' l Hl). lia.
      + rewrite list_lookup_insert_ne in Hj by congruence.
        pose proof (heap_closed_lookup h j ys l Hc Hj Hl). lia.
    - subst h'; simpl. apply length_insert.
    - intros a' Hne.
      assert (Controller.array_at h' a' = Controller.array_at h a') as Harr.
      { unfold Controller.array_at. subst h'; cbn [Controller.arrays].
        rewrite list_lookup_insert_ne by congruence. reflexivity. }
      unfold Controller.spans_of. rewrite Harr.
      apply fmap_obj_at_alloc. intros l Hl.
      eapply array_at_closed; eassumption. }
  assert (forall o,
            let h' := Controller.array_push a (length (Controller.objs h))
                        (snd (Controller.alloc_obj o h)) in
            Controller.spans_of h' a = Controller.spans_of h a ++ [o]
            /\ heap_closed h' = true
            /\ length (Controller.arrays h') = length (Controller.arrays h)
            /\ forall a', a' <> a ->
                 Controller.spans_of h' a' = Controller.spans_of h a') as Hpush.
  { intros o h'.
    assert (h' = {| Controller.objs := Controller.objs h ++ [o];
                    Controller.arrays :=
                      <[a := xs ++ [length (Controller.objs h)]]>
                        (Controller.arrays h) |}) as ->.
    { subst h'. unfold Controller.array_push, Controller.alloc_obj,
        Controller.array_at. simpl. rewrite Ha. reflexivity. }
    destruct (Hgen o (xs ++ [length (Controller.objs h)])) as (H1 & H2 & H3 & H4).
    { intros l Hl. apply elem_of_app in Hl as [Hl|Hl].
      - specialize (Hxs l Hl). lia.
      - apply list_elem_of_singleton in Hl as ->. lia. }
    split; [|auto]. rewrite H1, fmap_app, fmap_obj_at_alloc by exact Hxs.
    simpl. rewrite obj_at_fresh, Hsp. reflexivity. }
  destruct act as [ac|]; [|apply Hpush].
  unfold Controller.write_edit.
  destruct (Controller.findIndex _ _) as [i|] eqn:Hi; [|apply Hpush].
  set (o := Obj.spread (default ∅ (Controller.spans_of h a !! i)) cand).
  assert (Controller.array_set a i (length (Controller.objs h))
            (snd (Controller.alloc_obj o h))
          = {| Controller.objs := Controller.objs h ++ [o];
               Controller.arrays :=
                 <[a := <[i := length (Controller.objs h)]> xs]>
                   (Controller.arrays h) |}) as Heq.
  { unfold Controller.array_set, Controller.alloc_obj, Controller.array_at.
    simpl. rewrite Ha. reflexivity. }
  change (let '(l, h') := Controller.alloc_obj o h in Controller.array_set a i l h')
    with (Controller.array_set a i (length (Controller.objs h))
            (snd (Controller.alloc_obj o h))).
  rewrite Heq.
  destruct (Hgen o (<[i := length (Controller.objs h)]> xs)) as (H1 & H2 & H3 & H4).
  { intros l Hl. apply list_elem_of_lookup_1 in Hl as [j Hj].
    destruct (decide (j = i)) as [->|Hne].
    - pose proof (lookup_lt_Some _ _ _ Hj) as Hlen.
      rewrite length_insert in Hlen.
      rewrite list_lookup_insert_eq in Hj by exact Hlen.
      injection Hj as <-. lia.
    - rewrite list_lookup_insert_ne in Hj by congruence.
      specialize (Hxs l (list_elem_of_lookup_2 _ _ _ Hj)). lia. }
  split; [|auto].
  rewrite H1, list_fmap_insert, obj_at_fresh, fmap_obj_at_alloc by exact Hxs.
  rewrite Hsp. reflexivity.
Qed.

(** The state [ensure_entry] leaves: the entry of [p] owns the array [a],
    which exists, and the invariant holds. *)
Lemma ensure_entry_inv (p : Controller.prediction) st :
  ledger_inv st ->
  exists fb h a c xs,
    Controller.ensure_entry p (Controller.feedbackData st) (Controller.store st)
    = (fb, h, a)
    /\ Controller.objs h = Controller.objs (Controller.store st)
    /\ fb !! Controller.prediction_id p = Some c
    /\ Controller.evidence_spans (Controller.corrected_value c) = a
    /\ Controller.arrays h !! a = Some xs
    /\ heap_closed h = true
    /\ (forall pid c', fb !! pid = Some c' ->
          (Controller.evidence_spans (Controller.corrected_value c')
           < length (Controller.arrays h))%nat)
    /\ (forall pid pid' c1 c2, fb !! pid = Some c1 -> fb !! pid' = Some c2 ->
          Controller.evidence_spans (Controller.corrected_value c1)
          = Controller.evidence_spans (Controller.corrected_value c2) ->
          pid = pid')
    /\ (forall pid, pid <> Controller.prediction_id p ->
          fb !! pid = Controller.feedbackData st !! pid)
    /\ (forall a', (a' < length (Controller.arrays (Controller.store st)))%nat ->
          Controller.spans_of h a' = Controller.spans_of (Controller.store st) a').
Proof.
  intros (Hc & Hr & Hinj).
  pose proof (ensure_entry_store p (Controller.feedbackData st)
                (Controller.store st)) as He.
  destruct (Controller.feedbackData st !! Controller.prediction_id p)
    as [c|] eqn:Hp.
  - pose proof (Hr _ _ Hp) as Hlt.
    destruct (lookup_lt_is_Some_2 _ _ Hlt) as [xs Hxs].
    exists (Controller.feedbackData st), (Controller.store st),
      (Controller.evidence_spans (Controller.corrected_value c)), c, xs.
    repeat split; auto.
  - destruct He as (c & He & Hca).
    set (h := {| Controller.objs := Controller.objs (Controller.store st);
                 Controller.arrays :=
                   Controller.arrays (Controller.store st)
                   ++ [Controller.array_at (Controller.store st)
                         (Controller.evidence_spans p)] |}) in *.
    exists (<[Controller.prediction_id p := c]> (Controller.feedbackData st)),
      h, (length (Controller.arrays (Controller.store st))), c,
      (Controller.array_at (Controller.store st) (Controller.evidence_spans p)).
    split; [exact He|]. split; [reflexivity|].
    split; [apply lookup_insert_eq|]. split; [exact Hca|].
    split; [subst h; simpl; rewrite lookup_app_r by lia;
            rewrite Nat.sub_diag; reflexivity|].
    split.
    { subst h. apply heap_closed_intro. intros ys l Hys Hl.
      apply elem_of_app in Hys as [Hys|Hys].
      - eapply heap_closed_elem; eassumption.
      - apply list_elem_of_singleton in Hys as ->.
        eapply array_at_closed; eassumption. }
    split.
    { intros pid c' H. subst h; simpl. rewrite length_app; simpl.
      destruct (decide (Controller.prediction_id p = pid)) as [<-|Hne].
      - rewrite lookup_insert_eq in H. injection H as <-. rewrite Hca. lia.
      - rewrite lookup_insert_ne in H by exact Hne.
        specialize (Hr _ _ H). lia. }
    split.
    { intros pid pid' c1 c2 H1 H2 Heq.
      destruct (decide (Controller.prediction_id p = pid)) as [<-|Hne1];
        destruct (decide (Controller.prediction_id p = pid')) as [<-|Hne2];
        try reflexivity.
      - rewrite lookup_insert_eq in H1. injection H1 as <-.
        rewrite lookup_insert_ne in H2 by exact Hne2.
        specialize (Hr _ _ H2). rewrite <- Heq, Hca in Hr. lia.
      - rewrite lookup_insert_eq in H2. injection H2 as <-.
        rewrite lookup_insert_ne in H1 by exact Hne1.
        specialize (Hr _ _ H1). rewrite Heq, Hca in Hr. lia.
      - rewrite lookup_insert_ne in H1 by exact Hne1.
        rewrite lookup_insert_ne in H2 by exact Hne2.
        eapply Hinj; eassumption. }
    split.
    { intros pid Hne. apply lookup_insert_ne. congruence. }
    intros a' Ha'. unfold Controller.spans_of, Controller.array_at, Controller.obj_at.
    subst h; simpl. rewrite lookup_app_l by exact Ha'. reflexivity.
Qed.

(** The ledger of the selected prediction after [applySpanEdit], the
    ledger of the other predictions, and the invariant. *)
Lemma applySpanEdit_ledger (html : bool) (now : Z) st
    (p : Controller.prediction) (cand : obj) :
  ledger_inv st ->
  Controller.selectedPrediction st = Some p ->
  Controller.highlightedText st = Some cand ->
  let st' := Controller.applySpanEdit html now st in
  let l := Controller.working_list p st in
  Controller.ledger_spans st' (Controller.prediction_id p)
  = match Controller.activeSpan st with
    | Some ac =>
        match Controller.findIndex
                (Controller.same_span html (Controller.store st) ac) l with
        | Some i => <[i := Obj.spread (default ∅ (l !! i)) cand]> l
        | None =>
            l ++ [Controller.back_reference html (Controller.store st) ac now cand]
        end
    | None => l ++ [<["id" := VStr ("new-" ++ pretty now)]> cand]
    end
  /\ (forall pid, pid <> Controller.prediction_id p ->
        Controller.ledger_spans st' pid = Controller.ledger_spans st pid)
  /\ ledger_inv st'
  /\ Controller.selectedPrediction st' = Some p
  /\ Controller.activeSpan st' = None
  /\ exists o, Controller.objs (Controller.store st')
               = Controller.objs (Controller.store st) ++ [o].
Proof.
  intros Hinv Hp Hcand st' l.
  destruct (ensure_entry_inv p st Hinv)
    as (fb & h & a & c & xs & He & Hobjs & Hfb & Hca & Ha & Hc & Hr & Hinj
        & Hother & Hsame).
  assert (l = Controller.spans_of h a) as Hl
    by (subst l; unfold Controller.working_list; rewrite He; reflexivity).
  assert (st' = {| Controller.selectedPrediction := Some p;
                   Controller.activeSpan := None;
                   Controller.editMode := false;
                   Controller.feedbackData := fb;
                   Controller.highlightedText := None;
                   Controller.editPanelVisible := Controller.editPanelVisible st;
                   Controller.selectionMode := Controller.selectionMode st;
                   Controller.store :=
                     Controller.write_edit html now (Controller.activeSpan st)
                       cand a h |}) as Hst'.
  { subst st'. unfold Controller.applySpanEdit. rewrite Hp, Hcand, He.
    reflexivity. }
  destruct (write_edit_spans html now (Controller.activeSpan st) cand a h xs
              Hc Ha) as (Hw & Hwc & Hwl & Hwo).
  split; [|split; [|split; [|split; [|split]]]].
  - unfold Controller.ledger_spans. rewrite Hst'; simpl. rewrite Hfb, Hca, Hw.
    rewrite <- Hl.
    destruct (Controller.activeSpan st) as [ac|]; [|reflexivity].
    rewrite (same_span_objs html h (Controller.store st) ac Hobjs).
    rewrite (back_reference_objs html h (Controller.store st) ac now cand Hobjs).
    reflexivity.
  - intros pid Hne. unfold Controller.ledger_spans. rewrite Hst'; simpl.
    rewrite (Hother pid Hne).
    destruct (Controller.feedbackData st !! pid) as [c'|] eqn:Hc'; [|reflexivity].
    destruct Hinv as (_ & Hr0 & _).
    rewrite Hwo.
    + apply Hsame. eapply Hr0. exact Hc'.
    + intros Heq. apply Hne. symmetry.
      apply (Hinj (Controller.prediction_id p) pid c c' Hfb).
      * rewrite (Hother pid Hne). exact Hc'.
      * rewrite Hca. symmetry. exact Heq.
  - rewrite Hst'. unfold ledger_inv; simpl.
    split; [exact Hwc|]. split; [|exact Hinj].
    intros pid c' H. rewrite Hwl. eapply Hr. exact H.
  - rewrite Hst'. reflexivity.
  - rewrite Hst'. reflexivity.
  - rewrite Hst'. cbn [Controller.store].
    destruct (write_edit_store html now (Controller.activeSpan st) cand a h)
      as (o & ys & Ho & _).
    exists o. rewrite Ho, Hobjs. reflexivity.
Qed.

Lemma ledger_inv_step st (e : Controller.event) :
  ledger_inv st -> ledger_inv (Controller.step e st).
Proof.
  intros H. destruct e; simpl; try exact H.
  - unfold Controller.handleSpanClick. destruct readOnly; exact H.
  - unfold Controller.handleSpanMetadataChange.
    destruct (Controller.highlightedText st); exact H.
  - destruct (Controller.selectedPrediction st) as [p|] eqn:Hp;
      [|unfold Controller.applySpanEdit; rewrite Hp; exact H].
    destruct (Controller.highlightedText st) as [cand|] eqn:Hc;
      [|unfold Controller.applySpanEdit; rewrite Hp, Hc; exact H].
    apply (applySpanEdit_ledger isHtmlContent now st p cand H Hp Hc).
  - unfold Controller.handleSubmitFeedback.
    destruct (decide _); [exact H|].
    destruct H as (Hc & Hr & Hinj).
    destruct (onFeedbackSubmit _); unfold ledger_inv; simpl;
      repeat split; try assumption;
      try (intros pid c Hl; rewrite lookup_empty in Hl; discriminate);
      try (intros pid pid' c c' Hl; rewrite lookup_empty in Hl; discriminate).
Qed.

Lemma ledger_inv_run (h0 : Controller.heap) (es : list Controller.event) :
  heap_closed h0 = true ->
  ledger_inv (Controller.run es (Controller.init h0)).
Proof.
  intros Hc.
  assert (ledger_inv (Controller.init h0)) as Hinit.
  { unfold ledger_inv; simpl. split; [exact Hc|].
    split; intros; rewrite lookup_empty in *; discriminate. }
  revert Hinit. generalize (Controller.init h0).
  induction es as [|e es IH]; intros st H; simpl; [exact H|].
  apply IH. apply ledger_inv_step. exact H.
Qed.

End LedgerFacts.

Section LedgerEdits.

Local Open Scope list_scope.

Lemma working_list_spec (p : Controller.prediction) (st : Controller.state) :
  Controller.working_list p st
  = match Controller.feedbackData st !! Controller.prediction_id p with
    | Some _ => Controller.ledger_spans st (Controller.prediction_id p)
    | None => Controller.spans_of (Controller.store st) (Controller.evidence_spans p)
    end.
Proof.
  unfold Controller.working_list, Controller.ensure_entry, Controller.ledger_spans.
  destruct (Controller.feedbackData st !! Controller.prediction_id p) as [c|];
    [reflexivity|].
  unfold Controller.alloc_array, Controller.spans_of, Controller.array_at,
    Controller.obj_at.
  cbn [Controller.arrays Controller.objs].
  rewrite lookup_app_r by lia. rewrite Nat.sub_diag. reflexivity.
Qed.

Lemma lookup_set_prop_eq (k : string) (v : option value) (o : obj) :
  Controller.set_prop k v o !! k = v.
Proof.
  destruct v; simpl; [apply lookup_insert_eq|apply lookup_delete_eq].
Qed.

Lemma lookup_set_prop_ne (k k' : string) (v : option value) (o : obj) :
  k <> k' -> Controller.set_prop k v o !! k' = o !! k'.
Proof.
  intros H. destruct v; simpl;
    [apply lookup_insert_ne|apply lookup_delete_ne]; exact H.
Qed.

Lemma lookup_spread (old cand : obj) (k : string) :
  Obj.spread old cand !! k
  = match cand !! k with Some v => Some v | None => old !! k end.
Proof.
  unfold Obj.spread. rewrite lookup_union.
  destruct (cand !! k), (old !! k); reflexivity.
Qed.

Lemma strict_eq_spread (old cand : obj) (k : string) (x : option value) :
  Obj.strict_eq (old !! k) x = true ->
  Obj.strict_eq (cand !! k) x = true ->
  Obj.strict_eq (Obj.spread old cand !! k) x = true.
Proof.
  intros Ho Hc. rewrite lookup_spread.
  destruct (cand !! k); [exact Hc|exact Ho].
Qed.

Lemma same_span_spread (html : bool) (h : Controller.heap)
    (act : Controller.active) (old cand : obj) :
  Controller.same_span html h act old = true ->
  Controller.same_span html h act cand = true ->
  Controller.same_span html h act (Obj.spread old cand) = true.
Proof.
  unfold Controller.same_span. destruct html; intros Ho Hc;
    rewrite !andb_true_iff in *;
    repeat split; apply strict_eq_spread; tauto.
Qed.

End LedgerEdits.

(** X10. In any session on a well-formed response, applying a candidate
    while no span is active appends exactly one entry to the list the edit
    works on (the ledger list of the prediction, or a copy of its evidence
    list when the ledger has none yet): the candidate with the id
    [new-<clock>], after the entries already there. *)
Theorem new_span_is_appended :
  forall (h0 : Controller.heap) (es : list Controller.event) (html : bool)
         (now : Z) (p : Controller.prediction) (cand : obj),
    heap_closed h0 = true ->
    let st := Controller.run es (Controller.init h0) in
    Controller.selectedPrediction st = Some p ->
    Controller.activeSpan st = None ->
    Controller.highlightedText st = Some cand ->
    Controller.ledger_spans (Controller.applySpanEdit html now st)
      (Controller.prediction_id p)
    = (Controller.working_list p st
       ++ [<["id" := VStr ("new-" ++ pretty now)]> cand])%list
    /\ Controller.working_list p st
       = match Controller.feedbackData st !! Controller.prediction_id p with
         | Some _ => Controller.ledger_spans st (Controller.prediction_id p)
         | None =>
             Controller.spans_of (Controller.store st)
               (Controller.evidence_spans p)
         end.
Proof.
  intros h0 es html now p cand Hc st Hp Hact Hcand.
  split; [|apply working_list_spec].
  destruct (applySpanEdit_ledger html now st p cand
              (ledger_inv_run h0 es Hc) Hp Hcand) as (H & _).
  rewrite Hact in H. exact H.
Qed.

Lemma new_span_is_appended_witness :
  let cand : obj := <["text" := VStr "world"]> ledger_example_span in
  let st :=
    Controller.run
      [Controller.select ledger_example_prediction;
       Controller.set_highlighted (Some cand)]
      (Controller.init ledger_example_heap) in
  Controller.ledger_spans (Controller.applySpanEdit true 7 st) "p1"
  = [ledger_example_span; <["id" := VStr "new-7"]> cand].
Proof.
  intros cand st.
  destruct (new_span_is_appended ledger_example_heap
              [Controller.select ledger_example_prediction;
               Controller.set_highlighted (Some cand)]
              true 7 ledger_example_prediction cand)
    as [H _]; try reflexivity; exact H.
Defined.

(** X11. In any session on a well-formed response, when the list the edit
    works on holds no entry with the identity of the active span, the edit
    appends one entry: the candidate with the id [corrected-<clock>] and
    the back-reference [original_*] to the active span, which the lookup
    by back-reference ([corrects]) recognises as a correction of that
    span. *)
Theorem moved_span_is_back_referenced :
  forall (h0 : Controller.heap) (es : list Controller.event) (html : bool)
         (now : Z) (p : Controller.prediction) (cand : obj)
         (l : Controller.loc),
    heap_closed h0 = true ->
    let st := Controller.run es (Controller.init h0) in
    let S := Controller.obj_at (Controller.store st) l in
    Controller.selectedPrediction st = Some p ->
    Controller.activeSpan st = Some (Controller.span_ref l) ->
    Controller.highlightedText st = Some cand ->
    Controller.same_span html (Controller.store st) (Controller.span_ref l) S
    = true ->
    Controller.findIndex
      (Controller.same_span html (Controller.store st) (Controller.span_ref l))
      (Controller.working_list p st) = None ->
    exists e : obj,
      Controller.ledger_spans (Controller.applySpanEdit html now st)
        (Controller.prediction_id p)
      = (Controller.working_list p st ++ [e])%list
      /\ e !! "id" = Some (VStr ("corrected-" ++ pretty now))
      /\ Controller.corrects html S e = true
      /\ e !! "text" = cand !! "text"
      /\ e !! "type" = cand !! "type"
      /\ e !! "field" = cand !! "field".
Proof.
  intros h0 es html now p cand l Hc st S Hp Hact Hcand Hself Hnone.
  destruct (applySpanEdit_ledger html now st p cand
              (ledger_inv_run h0 es Hc) Hp Hcand) as (H & _).
  rewrite Hact, Hnone in H.
  eexists. split; [exact H|].
  unfold Controller.back_reference, Controller.corrects, Controller.same_span,
    Controller.read_active in *.
  fold S in Hself |- *.
  destruct html.
  - rewrite !andb_true_iff in Hself. destruct Hself as [[H1 H2] H3].
    repeat split.
    + rewrite !lookup_set_prop_ne by discriminate. apply lookup_insert_eq.
    + rewrite !andb_true_iff. repeat split.
      * rewrite !lookup_set_prop_ne by discriminate.
        rewrite lookup_set_prop_eq. exact H1.
      * rewrite !lookup_set_prop_ne by discriminate.
        rewrite lookup_set_prop_eq. exact H2.
      * rewrite lookup_set_prop_eq. exact H3.
    + rewrite !lookup_set_prop_ne by discriminate.
      apply lookup_insert_ne. discriminate.
    + rewrite !lookup_set_prop_ne by discriminate.
      apply lookup_insert_ne. discriminate.
    + rewrite !lookup_set_prop_ne by discriminate.
      apply lookup_insert_ne. discriminate.
  - rewrite !andb_true_iff in Hself. destruct Hself as [H1 H2].
    repeat split.
    + rewrite !lookup_set_prop_ne by discriminate. apply lookup_insert_eq.
    + rewrite !andb_true_iff. repeat split.
      * rewrite !lookup_set_prop_ne by discriminate.
        rewrite lookup_set_prop_eq. exact H1.
      * rewrite lookup_set_prop_eq. exact H2.
    + rewrite !lookup_set_prop_ne by discriminate.
      apply lookup_insert_ne. discriminate.
    + rewrite !lookup_set_prop_ne by discriminate.
      apply lookup_insert_ne. discriminate.
    + rewrite !lookup_set_prop_ne by discriminate.
      apply lookup_insert_ne. discriminate.
Qed.

Lemma moved_span_is_back_referenced_witness :
  let cand : obj := <["relative_start" := VNum 2]> ledger_example_span in
  let st :=
    Controller.run
      (Controller.select ledger_example_prediction
       :: ledger_example_edit 1 100
       ++ [Controller.set_active (Some (Controller.span_ref O));
           Controller.set_highlighted (Some cand)])%list
      (Controller.init ledger_example_heap) in
  exists e : obj,
    Controller.ledger_spans (Controller.applySpanEdit true 200 st) "p1"
    = (Controller.working_list ledger_example_prediction st ++ [e])%list
    /\ e !! "id" = Some (VStr "corrected-200")
    /\ Controller.corrects true ledger_example_span e = true.
Proof.
  intros cand st.
  destruct (moved_span_is_back_referenced ledger_example_heap
              (Controller.select ledger_example_prediction
               :: ledger_example_edit 1 100
               ++ [Controller.set_active (Some (Controller.span_ref O));
                   Controller.set_highlighted (Some cand)])%list
              true 200 ledger_example_prediction cand O)
    as (e & H1 & H2 & H3 & _); try reflexivity.
  exists e. split; [exact H1|]. split; [exact H2|exact H3].
Defined.

(** X12. In any session on a well-formed response, when the list the edit
    works on holds an entry with the identity of the active span, the edit
    replaces the first such entry by the entry merged with the candidate
    and leaves the others in place: the list keeps its length. When the
    candidate itself keeps that identity (a change of type or field), the
    merged entry is again the first with that identity, so a further such
    edit is merged at the same index. *)
Theorem kept_identity_is_merged_in_place :
  forall (h0 : Controller.heap) (es : list Controller.event) (html : bool)
         (now : Z) (p : Controller.prediction) (cand : obj)
         (act : Controller.active) (i : nat),
    heap_closed h0 = true ->
    let st := Controller.run es (Controller.init h0) in
    let st' := Controller.applySpanEdit html now st in
    let same := Controller.same_span html (Controller.store st) act in
    Controller.selectedPrediction st = Some p ->
    Controller.activeSpan st = Some act ->
    Controller.highlightedText st = Some cand ->
    Controller.findIndex same (Controller.working_list p st) = Some i ->
    Controller.ledger_spans st' (Controller.prediction_id p)
    = <[i := Obj.spread (default ∅ (Controller.working_list p st !! i)) cand]>
        (Controller.working_list p st)
    /\ length (Controller.ledger_spans st' (Controller.prediction_id p))
       = length (Controller.working_list p st)
    /\ (same cand = true ->
        Controller.findIndex same
          (Controller.ledger_spans st' (Controller.prediction_id p)) = Some i).
Proof.
  intros h0 es html now p cand act i Hc st st' same Hp Hact Hcand Hi.
  destruct (applySpanEdit_ledger html now st p cand
              (ledger_inv_run h0 es Hc) Hp Hcand) as (H & _).
  rewrite Hact in H. fold same in H. rewrite Hi in H. fold st' in H.
  split; [exact H|]. split.
  - rewrite H. apply length_insert.
  - intros Hsame. rewrite H. apply findIndex_insert_hit; [exact Hi|].
    destruct (findIndex_Some _ _ _ Hi) as (old & Hold & Hpold & _).
    rewrite Hold. simpl. apply same_span_spread; assumption.
Qed.

Lemma kept_identity_is_merged_in_place_witness :
  let cand : obj := <["type" := VStr "action"]> ledger_example_span in
  let st :=
    Controller.run
      [Controller.select ledger_example_prediction;
       Controller.set_active (Some (Controller.span_ref O));
       Controller.set_highlighted (Some cand)]
      (Controller.init ledger_example_heap) in
  Controller.ledger_spans (Controller.applySpanEdit true 7 st) "p1" = [cand].
Proof.
  intros cand st.
  destruct (kept_identity_is_merged_in_place ledger_example_heap
              [Controller.select ledger_example_prediction;
               Controller.set_active (Some (Controller.span_ref O));
               Controller.set_highlighted (Some cand)]
              true 7 ledger_example_prediction cand (Controller.span_ref O) O)
    as (H & _ & _); try reflexivity;
    rewrite H; vm_compute; reflexivity.
Defined.

(** X13. In any session on a well-formed response, an edit changes the
    corrections recorded for the selected prediction only: the ledger
    lists of all other prediction ids read the same before and after. *)
Theorem applySpanEdit_leaves_other_entries :
  forall (h0 : Controller.heap) (es : list Controller.event) (html : bool)
         (now : Z) (pid : string),
    heap_closed h0 = true ->
    let st := Controller.run es (Controller.init h0) in
    Controller.prediction_id <$> Controller.selectedPrediction st <> Some pid ->
    Controller.ledger_spans (Controller.applySpanEdit html now st) pid
    = Controller.ledger_spans st pid.
Proof.
  intros h0 es html now pid Hc st Hne.
  destruct (Controller.selectedPrediction st) as [p|] eqn:Hp;
    [|unfold Controller.applySpanEdit; rewrite Hp; reflexivity].
  destruct (Controller.highlightedText st) as [cand|] eqn:Hcand;
    [|unfold Controller.applySpanEdit; rewrite Hp, Hcand; reflexivity].
  destruct (applySpanEdit_ledger html now st p cand
              (ledger_inv_run h0 es Hc) Hp Hcand) as (_ & H & _).
  apply H. intros ->. apply Hne. reflexivity.
Qed.

Lemma applySpanEdit_leaves_other_entries_witness :
  let p2 :=
    {| Controller.prediction_id := "p2"; Controller.props := ∅;
       Controller.evidence_spans := O |} in
  let st :=
    Controller.run
      (Controller.select ledger_example_prediction
       :: ledger_example_edit 1 100
       ++ [Controller.select p2;
           Controller.set_highlighted (Some ledger_example_span)])%list
      (Controller.init ledger_example_heap) in
  Controller.ledger_spans (Controller.applySpanEdit true 200 st) "p1"
  = Controller.ledger_spans st "p1"
  /\ length (Controller.ledger_spans st "p1") = 1%nat
  /\ length (Controller.ledger_spans (Controller.applySpanEdit true 200 st) "p2")
     = 2%nat.
Proof.
  intros p2 st. split; [|split; vm_compute; reflexivity].
  apply (applySpanEdit_leaves_other_entries ledger_example_heap
           (Controller.select ledger_example_prediction
            :: ledger_example_edit 1 100
            ++ [Controller.select p2;
                Controller.set_highlighted (Some ledger_example_span)])%list
           true 200 "p1").
  - reflexivity.
  - vm_compute. discriminate.
Defined.

(** ** Correction Ledger: two edits of one span *)

Section SessionFacts.

Local Open Scope list_scope.
Implicit Types (st : Controller.state) (h : Controller.heap).


(** No element of a plain-text body carries a span id. *)
Lemma plain_body_no_span_id st (emailContent : string) (q : Dom.path)
    (el : node) :
  Dom.get (PlainText.body st emailContent) q = Some el ->
  node_attr "data-span-id" el = None.
Proof.
  unfold PlainText.body.
  destruct q as [|i q]; [intros [= <-]; reflexivity|].
  cbn [Dom.get]. rewrite list_lookup_fmap.
  destruct (PlainText.renderPlainTextWithSpans st emailContent !! i)
    as [seg|]; [|discriminate].
  cbn [fmap option_fmap option_map].
  destruct q as [|j q].
  - intros [= <-]. destruct seg; reflexivity.
  - destruct seg as [key t|key className title t onClick];
      cbn [PlainText.to_node Dom.get];
      destruct (t =? "")%string;
      try (rewrite lookup_nil; discriminate);
      destruct j as [|j];
      try (cbn [lookup list_lookup]; rewrite ?lookup_nil; discriminate);
      cbn [lookup list_lookup]; destruct q; cbn [Dom.get];
      try discriminate; intros [= <-]; reflexivity.
Qed.

(** An empty span id matches no span. *)
Lemma matches_empty_id h (arr : list Controller.loc) (l : Controller.loc) :
  Click.matches h arr "" l = false.
Proof.
  unfold Click.matches.
  destruct (Controller.obj_at h l !! "id") as [[z|s|]|] eqn:Hid;
    cbn [Click.truthy]; try reflexivity.
  - destruct (z =? 0)%Z; reflexivity.
  - destruct (s =? "")%string eqn:Hs; cbn [negb]; [reflexivity|].
    unfold Obj.strict_eq. apply bool_decide_eq_false_2.
    intros [= ->]. rewrite String.eqb_refl in Hs. discriminate.
Qed.

Lemma find_none_all {A} (p : A -> bool) (l : list A) :
  (forall x, p x = false) -> List.find p l = None.
Proof.
  intros H. induction l as [|x l IH]; [reflexivity|].
  simpl. rewrite H. exact IH.
Qed.

(** On a plain-text body a click finds no span, so it sets no candidate. *)
Lemma plain_body_click_finds_nothing (readOnly : bool) st st'
    (emailContent : string) (target : Dom.path) :
  Session.originalSpan readOnly (PlainText.body st emailContent) target st'
  = None.
Proof.
  unfold Session.originalSpan.
  destruct (Click.spanElement _ target) as [q|]; [|reflexivity].
  destruct (negb (Controller.editMode st') || readOnly); [reflexivity|].
  destruct (Dom.get _ q) as [el|] eqn:Hel; [|reflexivity].
  destruct (Controller.selectedPrediction st') as [p|]; [|reflexivity].
  cbv zeta. rewrite (plain_body_no_span_id st emailContent q el Hel).
  cbn [Js.or_else].
  rewrite find_none_all; [reflexivity|]. intros l. apply matches_empty_id.
Qed.


















End SessionFacts.



(** ** Click delegation *)

Section ClickFacts.

Local Open Scope list_scope.

Lemma digit_value_char (d : N) :
  (d < 10)%N -> Click.digit_value 10 (pretty_N_char d) = Some (Z.of_N d).
Proof.
  intros H.
  assert (d = 0 \/ d = 1 \/ d = 2 \/ d = 3 \/ d = 4 \/ d = 5 \/ d = 6
          \/ d = 7 \/ d = 8 \/ d = 9)%N as Hd by lia.
  repeat (destruct Hd as [->|Hd]; [reflexivity|]). subst d. reflexivity.
Qed.

Lemma digits_value_pretty_go (x : N) :
  forall s : string,
    Click.digits_value 10 None (pretty_N_go x s)
    = if decide (x = 0)%N then Click.digits_value 10 None s
      else Click.digits_value 10 (Some (Z.of_N x)) s.
Proof.
  induction (N.lt_wf_0 x) as [x _ IH]. intros s.
  destruct (decide (x = 0%N)) as [->|Hx]; [reflexivity|].
  rewrite pretty_N_go_step by lia.
  rewrite IH by (apply N.div_lt; lia).
  pose proof (N.mod_lt x 10 ltac:(lia)) as Hm.
  pose proof (N.div_mod x 10 ltac:(lia)) as Hdm.
  destruct (decide (x `div` 10 = 0)%N) as [Hz|Hz];
    cbn [Click.digits_value]; rewrite digit_value_char by exact Hm;
    simpl default; f_equal; f_equal. all: lia.
Qed.

(** The leading character of a positive number is a digit from 1 to 9. *)
Lemma pretty_N_go_head (x : N) :
  forall s : string,
    (0 < x)%N ->
    exists d r, (1 <= d <= 9)%N /\ pretty_N_go x s = String (pretty_N_char d) r.
Proof.
  induction (N.lt_wf_0 x) as [x _ IH]. intros s Hx.
  rewrite pretty_N_go_step by exact Hx.
  destruct (decide (x `div` 10 = 0)%N) as [Hz|Hz].
  - rewrite Hz, pretty_N_go_0.
    exists (x `mod` 10)%N, s. split; [|reflexivity].
    pose proof (N.mod_lt x 10 ltac:(lia)).
    pose proof (N.div_mod x 10 ltac:(lia)). lia.
  - apply IH; [apply N.div_lt; lia|apply N.neq_0_lt_0; exact Hz].
Qed.

(** [parseInt] reads back the decimal numeral of a natural number. *)
Lemma parseInt_pretty (n : nat) : Click.parseInt (pretty n) = Some (Z.of_nat n).
Proof.
  unfold pretty, pretty_nat, pretty, pretty_N.
  destruct (decide (N.of_nat n = 0%N)) as [Hz|Hz].
  - replace n with O by lia. reflexivity.
  - pose proof (digits_value_pretty_go (N.of_nat n) "") as Hv.
    destruct (decide (N.of_nat n = 0%N)); [contradiction|].
    destruct (pretty_N_go_head (N.of_nat n) "" ltac:(lia)) as (d & r & Hd & Hr).
    rewrite Hr in *.
    assert (d = 1 \/ d = 2 \/ d = 3 \/ d = 4 \/ d = 5 \/ d = 6
            \/ d = 7 \/ d = 8 \/ d = 9)%N as Hcase by lia.
    unfold Click.parseInt.
    assert (forall c : ascii,
              Click.digits_value 10 None (String c r)
              = Click.digits_value 10 (Some (Z.of_N (N.of_nat n))) "" ->
              (fun v : Z => 1 * v) <$> Click.digits_value 10 None (String c r)
              = Some (Z.of_nat n)) as Hfin.
    { intros c ->. change (Some (1 * Z.of_N (N.of_nat n)) = Some (Z.of_nat n)).
      f_equal. lia. }
    repeat (destruct Hcase as [->|Hcase];
            [cbn [pretty_N_char] in *; simpl Js.trim_start; cbv iota beta;
             apply Hfin; exact Hv|]).
    subst d. cbn [pretty_N_char] in *. simpl Js.trim_start. cbv iota beta.
    apply Hfin. exact Hv.
Qed.

Lemma find_first {A} (P : A -> bool) (l : list A) (i : nat) (x : A) :
  l !! i = Some x -> P x = true ->
  (forall j y, (j < i)%nat -> l !! j = Some y -> P y = false) ->
  List.find P l = Some x.
Proof.
  revert i. induction l as [|a l IH]; intros i Hi Hx Hbefore; [discriminate|].
  destruct i as [|i].
  - injection Hi as ->. simpl. rewrite Hx. reflexivity.
  - simpl. rewrite (Hbefore O a ltac:(lia) eq_refl).
    apply (IH i Hi Hx). intros j y Hj Hy. apply (Hbefore (S j) y); [lia|exact Hy].
Qed.

Lemma findIndex_eqb_le (arr : list nat) (j : nat) (l : nat) :
  arr !! j = Some l ->
  exists k, Controller.findIndex (Nat.eqb l) arr = Some k /\ (k <= j)%nat.
Proof.
  revert j. induction arr as [|a arr IH]; intros j Hj; [discriminate|].
  simpl. destruct (l =? a)%nat eqn:Ha; [exists O; split; [reflexivity|lia]|].
  destruct j as [|j]; [injection Hj as ->; rewrite Nat.eqb_refl in Ha; discriminate|].
  destruct (IH j Hj) as (k & -> & Hk). exists (S k). split; [reflexivity|lia].
Qed.

Lemma findIndex_eqb_NoDup (arr : list nat) (i : nat) (l : nat) :
  NoDup arr -> arr !! i = Some l ->
  Controller.findIndex (Nat.eqb l) arr = Some i.
Proof.
  intros Hnd. revert i. induction Hnd as [|a arr Ha Hnd IH]; intros i Hi;
    [discriminate|].
  destruct i as [|i].
  - injection Hi as ->. simpl. rewrite Nat.eqb_refl. reflexivity.
  - simpl. destruct (l =? a)%nat eqn:Hla.
    + apply Nat.eqb_eq in Hla as ->. exfalso. apply Ha.
      eapply list_elem_of_lookup_2. exact Hi.
    + rewrite (IH i Hi). reflexivity.
Qed.

(** A class attribute that starts with a token and a space has that
    token. *)
Lemma class_tokens_cur (cur tok rest : string) :
  (forall c, In c (list_ascii_of_string tok) -> Dom.is_class_space c = false) ->
  (cur ++ tok)%string <> "" ->
  Dom.class_tokens_from cur (tok ++ String " " rest)
  = (cur ++ tok)%string :: Dom.class_tokens_from "" rest.
Proof.
  revert cur. induction tok as [|c tok IH]; intros cur Hc Hne.
  - rewrite append_empty_r in *.
    change (Dom.class_tokens_from cur ("" ++ String " " rest))
      with ((if (cur =? "")%string then [] else [cur])
            ++ Dom.class_tokens_from "" rest).
    rewrite (eqb_empty_false cur Hne). reflexivity.
  - change (Dom.class_tokens_from cur (String c tok ++ String " " rest))
      with (if Dom.is_class_space c
            then (if (cur =? "")%string then [] else [cur])
                 ++ Dom.class_tokens_from "" (tok ++ String " " rest)
            else Dom.class_tokens_from (cur ++ String c "")
                   (tok ++ String " " rest)).
    rewrite (Hc c) by (left; reflexivity).
    assert ((cur ++ String c "") ++ tok = cur ++ String c tok)%string as Heq.
    { rewrite string_append_assoc. reflexivity. }
    rewrite IH.
    + rewrite Heq. reflexivity.
    + intros c' Hc'. apply Hc. right. exact Hc'.
    + rewrite Heq. exact Hne.
Qed.

Lemma createSpanElement_attrs (e : Overlay.env) (text : string)
    (isActive : bool) (spanId spanType : string) (fieldName : option string) :
  let el := Overlay.createSpanElement e text isActive spanId spanType fieldName in
  Dom.has_class "evidence-span" el = true
  /\ node_attr "data-span-id" el = Some spanId
  /\ node_attr "data-span-text" el = Some text.
Proof.
  split; [|split; reflexivity].
  unfold Dom.has_class, Overlay.createSpanElement, node_attr.
  cbn [attr String.eqb Ascii.eqb Bool.eqb].
  change ("evidence-span evidence-" ++ spanType ++ " "
          ++ (if isActive then "active" else ""))%string
    with ("evidence-span" ++ String " " ("evidence-" ++ spanType ++ " "
          ++ (if isActive then "active" else "")))%string.
  rewrite (class_tokens_cur "" "evidence-span").
  - apply bool_decide_eq_true. left.
  - intros c Hc. simpl in Hc.
    repeat (destruct Hc as [<-|Hc]; [reflexivity|]). contradiction.
  - discriminate.
Qed.

(** A node that carries the class is its own nearest highlight. *)
Lemma spanElement_self (body : node) (q : Dom.path) (el : node) :
  q <> [] -> Dom.get body q = Some el ->
  Dom.has_class "evidence-span" el = true ->
  Click.spanElement body q = Some q.
Proof.
  intros Hq Hg Hc. unfold Click.spanElement.
  assert (exists ps, Click.prefixes q = ps ++ [q]) as (ps & ->).
  { clear Hg. induction q as [|i q IH]; [contradiction|].
    destruct q as [|j q].
    - exists []. reflexivity.
    - destruct (IH ltac:(discriminate)) as (ps & Hps).
      exists ([i] :: (cons i <$> ps)).
      change (Click.prefixes (i :: j :: q))
        with ([i] :: (cons i <$> Click.prefixes (j :: q))).
      rewrite Hps, fmap_app. reflexivity. }
  rewrite rev_app_distr. simpl. rewrite Hg, Hc. reflexivity.
Qed.

Lemma prefixes_snoc (q : Dom.path) (j : nat) :
  Click.prefixes (q ++ [j]) = Click.prefixes q ++ [q ++ [j]].
Proof.
  induction q as [|i q IH]; [reflexivity|].
  change (Click.prefixes ((i :: q) ++ [j]))
    with ([i] :: (cons i <$> Click.prefixes (q ++ [j]))).
  rewrite IH, fmap_app. reflexivity.
Qed.

(** A click on the highlight element or on one of its children (a resize
    handle) finds the highlight element. *)
Lemma spanElement_createSpanElement (body : node) (q target : Dom.path)
    (e : Overlay.env) (text : string) (isActive : bool)
    (spanId spanType : string) (fieldName : option string) :
  q <> [] ->
  Dom.get body q
  = Some (Overlay.createSpanElement e text isActive spanId spanType fieldName) ->
  target = q \/ (exists j, target = q ++ [j]) ->
  Click.spanElement body target = Some q.
Proof.
  intros Hq Hg Ht.
  destruct (createSpanElement_attrs e text isActive spanId spanType fieldName)
    as (Hclass & _ & _).
  destruct Ht as [->|(j & ->)];
    [exact (spanElement_self body q _ Hq Hg Hclass)|].
  pose proof (spanElement_self body q _ Hq Hg Hclass) as Hself.
  unfold Click.spanElement in *.
  rewrite prefixes_snoc, rev_app_distr. cbn [rev app List.find].
  rewrite get_app, Hg. cbn [mbind option_bind].
  assert (match Dom.get (Overlay.createSpanElement e text isActive spanId
                           spanType fieldName) [j] with
          | Some n => Dom.has_class "evidence-span" n
          | None => false
          end = false) as ->; [|exact Hself].
  unfold Overlay.createSpanElement.
  destruct (Overlay.editMode e && isActive);
    destruct j as [|[|[|j]]]; reflexivity.
Qed.

End ClickFacts.

(** X14. Click round trip for spans without an id. In edit mode on a
    viewer that is not read-only, when the selected prediction's spans are
    distinct objects none of which carries a (truthy) [id], a click on the
    highlight element that [applyHighlights] builds for the span at index
    [i] (its span id is [span-i]), or on a resize handle inside it, makes
    that span the active span, makes
    the span with the element's text the candidate, and opens the edit
    panel. *)
Theorem click_selects_span_by_index :
  forall (st : Controller.state) (p : Controller.prediction)
         (body : node) (q target : Dom.path) (e : Overlay.env)
         (text : string) (isActive : bool) (i : nat) (l : Controller.loc),
    let arr :=
      Controller.array_at (Controller.store st) (Controller.evidence_spans p) in
    let S := Controller.obj_at (Controller.store st) l in
    Controller.editMode st = true ->
    Controller.selectedPrediction st = Some p ->
    NoDup arr ->
    (forall l', l' ∈ arr ->
       Click.truthy (Controller.obj_at (Controller.store st) l' !! "id") = false) ->
    arr !! i = Some l ->
    q <> [] ->
    Dom.get body q
    = Some (Overlay.createSpanElement e text isActive
              (Js.or_else (Obj.str S "id") ("span-" ++ pretty i))
              (Js.or_else (Obj.str S "type") "default") (Obj.str S "field")) ->
    target = q \/ (exists j, target = (q ++ [j])%list) ->
    Click.handleEmailBodyClick false body target st
    = Controller.setEditPanelVisible true
        (Controller.setHighlightedText (Some (<["text" := VStr text]> S))
           (Controller.setActiveSpan (Some (Controller.span_ref l)) st)).
Proof.
  intros st p body q target e text isActive i l arr S Hedit Hp Hnd Hnoid Hi Hq
    Hg Htarget.
  destruct (createSpanElement_attrs e text isActive
              (Js.or_else (Obj.str S "id") ("span-" ++ pretty i))
              (Js.or_else (Obj.str S "type") "default") (Obj.str S "field"))
    as (Hclass & Hid & Htext).
  unfold Click.handleEmailBodyClick.
  rewrite (spanElement_createSpanElement body q target _ _ _ _ _ _ Hq Hg
             Htarget), Hedit, Hg, Hp.
  cbn [negb orb]. rewrite Hid, Htext. fold arr.
  assert (Js.or_else (Obj.str S "id") ("span-" ++ pretty i)
          = ("span-" ++ pretty i)%string) as Hsid.
  { pose proof (Hnoid l (list_elem_of_lookup_2 _ _ _ Hi)) as Hl. fold S in Hl.
    unfold Obj.str, Js.or_else, Click.truthy in *.
    destruct (S !! "id") as [[z|s|]|]; try reflexivity.
    destruct (s =? "")%string; [reflexivity|discriminate]. }
  rewrite Hsid.
  assert (forall s, Js.or_else (Some s) "" = s) as Hor.
  { intros s. unfold Js.or_else. destruct (s =? "")%string eqn:E;
      [apply String.eqb_eq in E; congruence|reflexivity]. }
  rewrite Hor.
  assert (Js.or_else (Some text) (Dom.textContent
            (Overlay.createSpanElement e text isActive ("span-" ++ pretty i)
               (Js.or_else (Obj.str S "type") "default") (Obj.str S "field")))
          = text) as Htx.
  { rewrite textContent_createSpanElement. unfold Js.or_else.
    destruct (text =? "")%string; reflexivity. }
  rewrite Htx.
  assert (forall j l', arr !! j = Some l' ->
            Click.matches (Controller.store st) arr ("span-" ++ pretty i) l'
            = match Controller.findIndex (Nat.eqb l') arr with
              | Some k => (k =? i)%nat
              | None => false
              end) as Hm.
  { intros j l' Hj. unfold Click.matches.
    rewrite (Hnoid l' (list_elem_of_lookup_2 _ _ _ Hj)).
    replace (negb ("span-" ++ pretty i =? "")%string
             && Js.startsWith ("span-" ++ pretty i) "span-") with true
      by (unfold Js.startsWith; rewrite prefix_app; reflexivity).
    rewrite replace_prefix, parseInt_pretty.
    replace (Z.of_nat i >=? 0)%Z with true
      by (symmetry; rewrite Z.geb_leb; apply Z.leb_le; lia).
    cbn [andb].
    destruct (Controller.findIndex (Nat.eqb l') arr) as [k|]; [|reflexivity].
    destruct (Nat.eqb_spec k i) as [->|Hne].
    - apply Z.eqb_refl.
    - apply Z.eqb_neq. lia. }
  rewrite (find_first _ arr i l Hi).
  - reflexivity.
  - rewrite (Hm i l Hi), (findIndex_eqb_NoDup arr i l Hnd Hi).
    apply Nat.eqb_refl.
  - intros j y Hj Hy. rewrite (Hm j y Hy).
    destruct (findIndex_eqb_le arr j y Hy) as (k & -> & Hk).
    apply Nat.eqb_neq. lia.
Qed.

Lemma click_selects_span_by_index_witness :
  let st :=
    Controller.run
      [Controller.select ledger_example_prediction; Controller.set_edit true]
      (Controller.init ledger_example_heap) in
  let e := {| Overlay.readOnly := false; Overlay.editMode := true |} in
  let body :=
    Elem "div" []
      [Text "Say ";
       Overlay.createSpanElement e "Hello" true "span-0" "intent" None] in
  Controller.activeSpan
    (Click.handleEmailBodyClick false body [1; 2]%nat st)
  = Some (Controller.span_ref O)
  /\ Controller.highlightedText
       (Click.handleEmailBodyClick false body [1; 2]%nat st)
     = Some ledger_example_span.
Proof.
  intros st e body.
  rewrite (click_selects_span_by_index st ledger_example_prediction body
             [1%nat] [1; 2]%nat e "Hello" true O O); try reflexivity.
  - split; [reflexivity|]. vm_compute. reflexivity.
  - apply NoDup_singleton.
  - intros l' Hl'. apply list_elem_of_singleton in Hl' as ->. reflexivity.
  - discriminate.
  - right. exists 2%nat. reflexivity.
Defined.

(** X15. Click round trip for spans with ids. In edit mode on a viewer
    that is not read-only, when every span of the selected prediction
    carries a non-empty string [id] and no two spans share one, a click on
    the highlight element built for the span at index [i] (its span id is
    the span's [id]), or on a resize handle inside it, makes that span the
    active span, makes the span with
    the element's text the candidate, and opens the edit panel. *)
Theorem click_selects_span_by_id :
  forall (st : Controller.state) (p : Controller.prediction)
         (body : node) (q target : Dom.path) (e : Overlay.env)
         (text : string) (isActive : bool) (i : nat) (l : Controller.loc),
    let arr :=
      Controller.array_at (Controller.store st) (Controller.evidence_spans p) in
    let id_of := fun l' => Controller.obj_at (Controller.store st) l' !! "id" in
    let S := Controller.obj_at (Controller.store st) l in
    Controller.editMode st = true ->
    Controller.selectedPrediction st = Some p ->
    (forall l', l' ∈ arr -> exists s, id_of l' = Some (VStr s) /\ s <> "") ->
    (forall j j' l1 l2, arr !! j = Some l1 -> arr !! j' = Some l2 ->
       id_of l1 = id_of l2 -> j = j') ->
    arr !! i = Some l ->
    q <> [] ->
    Dom.get body q
    = Some (Overlay.createSpanElement e text isActive
              (Js.or_else (Obj.str S "id") ("span-" ++ pretty i))
              (Js.or_else (Obj.str S "type") "default") (Obj.str S "field")) ->
    target = q \/ (exists j, target = (q ++ [j])%list) ->
    Click.handleEmailBodyClick false body target st
    = Controller.setEditPanelVisible true
        (Controller.setHighlightedText (Some (<["text" := VStr text]> S))
           (Controller.setActiveSpan (Some (Controller.span_ref l)) st)).
Proof.
  intros st p body q target e text isActive i l arr id_of S Hedit Hp Hids Hinj
    Hi Hq Hg Htarget.
  destruct (createSpanElement_attrs e text isActive
              (Js.or_else (Obj.str S "id") ("span-" ++ pretty i))
              (Js.or_else (Obj.str S "type") "default") (Obj.str S "field"))
    as (Hclass & Hid & Htext).
  unfold Click.handleEmailBodyClick.
  rewrite (spanElement_createSpanElement body q target _ _ _ _ _ _ Hq Hg
             Htarget), Hedit, Hg, Hp.
  cbn [negb orb]. rewrite Hid, Htext. fold arr.
  destruct (Hids l (list_elem_of_lookup_2 _ _ _ Hi)) as (sid & Hsid & Hne).
  assert (Js.or_else (Obj.str S "id") ("span-" ++ pretty i) = sid) as Hor.
  { unfold Obj.str. subst S id_of. cbv beta in Hsid. rewrite Hsid.
    unfold Js.or_else. rewrite (eqb_empty_false sid Hne). reflexivity. }
  rewrite Hor.
  assert (Js.or_else (Some sid) "" = sid) as ->
    by (unfold Js.or_else; rewrite (eqb_empty_false sid Hne); reflexivity).
  assert (Js.or_else (Some text) (Dom.textContent
            (Overlay.createSpanElement e text isActive sid
               (Js.or_else (Obj.str S "type") "default") (Obj.str S "field")))
          = text) as ->.
  { rewrite textContent_createSpanElement. unfold Js.or_else.
    destruct (text =? "")%string; reflexivity. }
  assert (forall j l', arr !! j = Some l' ->
            Click.matches (Controller.store st) arr sid l'
            = bool_decide (id_of l' = Some (VStr sid))) as Hm.
  { intros j l' Hj. unfold Click.matches.
    destruct (Hids l' (list_elem_of_lookup_2 _ _ _ Hj)) as (s' & Hs' & Hne').
    subst id_of. cbv beta in *. rewrite Hs'.
    unfold Click.truthy. rewrite (eqb_empty_false s' Hne'). reflexivity. }
  rewrite (find_first _ arr i l Hi).
  - reflexivity.
  - rewrite (Hm i l Hi). apply bool_decide_eq_true. exact Hsid.
  - intros j y Hj Hy. rewrite (Hm j y Hy). apply bool_decide_eq_false.
    intros Heq. assert (j = i) by (apply (Hinj j i y l Hy Hi); congruence). lia.
Qed.

Lemma click_selects_span_by_id_witness :
  let st :=
    Controller.run
      [Controller.select ledger_example_prediction; Controller.set_edit true]
      (Controller.init
         {| Controller.objs := [drag_example_span]; Controller.arrays := [[O]] |}) in
  let e := {| Overlay.readOnly := false; Overlay.editMode := true |} in
  let body :=
    Elem "div" []
      [Text "Hello ";
       Overlay.createSpanElement e "world" false "s1" "default" None] in
  Controller.activeSpan (Click.handleEmailBodyClick false body [1%nat] st)
  = Some (Controller.span_ref O).
Proof.
  intros st e body.
  rewrite (click_selects_span_by_id st ledger_example_prediction body
             [1%nat] [1%nat] e "world" false O O); try reflexivity.
  - intros l' Hl'. apply list_elem_of_singleton in Hl' as ->.
    exists "s1". split; [reflexivity|discriminate].
  - intros [|j] [|j'] l1 l2 H1 H2 _; try reflexivity; discriminate.
  - discriminate.
  - left. reflexivity.
Defined.

(** ** Rendering a plain-text body *)

Section PlainTextFacts.

Local Open Scope list_scope.

Lemma js_substring_join (s : string) (a b c : Z) :
  0 <= a <= b -> b <= c -> c <= Js.len s ->
  (Js.substring s a b ++ Js.substring s b c)%string = Js.substring s a c.
Proof.
  intros Hab Hbc Hc.
  rewrite !js_substring_in_range by lia.
  replace (Z.to_nat b) with (Z.to_nat a + Z.to_nat (b - a))%nat by lia.
  rewrite substring_append. f_equal. lia.
Qed.

Lemma js_substring_empty (s : string) (a : Z) :
  0 <= a <= Js.len s -> Js.substring s a a = "".
Proof.
  intros Ha. rewrite js_substring_in_range by lia.
  rewrite Z.sub_diag. change (Z.to_nat 0) with 0%nat.
  generalize (Z.to_nat a). clear Ha.
  induction s as [|c s IH]; intros [|n]; simpl; auto.
Qed.

Lemma js_substring_whole (s : string) : Js.substring s 0 (Js.len s) = s.
Proof.
  pose proof (js_len_nonneg s).
  rewrite js_substring_in_range by lia.
  replace (Z.to_nat (Js.len s - 0)) with (String.length s)
    by (unfold Js.len; lia).
  apply substring_all.
Qed.

(** From [lastIndex] on, the loop shows the rest of the text. *)
Lemma shown_elements (st : Controller.state) (content : string)
    (spans : list Controller.loc) :
  forall lo : Z,
    0 <= lo ->
    separated (Controller.store st) lo (Js.len content) spans = true ->
    Forall (fun l => PlainText.modifiedSpan st
                       (Controller.obj_at (Controller.store st) l) = None) spans ->
    PlainText.shown (PlainText.elements st content (Some lo) spans)
    = Js.substring content lo (Js.len content).
Proof.
  induction spans as [|l rest IH]; intros lo Hlo Hsep Hmod.
  - simpl in Hsep. apply Z.leb_le in Hsep.
    unfold PlainText.elements, PlainText.lt.
    destruct (lo <? Js.len content)%Z eqn:Hlt.
    + unfold PlainText.shown.
      cbn [fmap list_fmap Dom.concat_strings PlainText.segment_text].
      unfold PlainText.substring. cbn [default from_option id].
      apply append_empty_r.
    + apply Z.ltb_ge in Hlt. assert (lo = Js.len content) as -> by lia.
      rewrite js_substring_empty by lia. reflexivity.
  - simpl in Hsep.
    destruct (Obj.num (Controller.obj_at (Controller.store st) l) "start")
      as [s|] eqn:Hs; [|discriminate].
    destruct (Obj.num (Controller.obj_at (Controller.store st) l) "end")
      as [e|] eqn:He; [|discriminate].
    rewrite !andb_true_iff in Hsep. destruct Hsep as [[H1 H2] H3].
    apply Z.leb_le in H1, H2.
    assert (e <= Js.len content) as Hel.
    { clear -H3. revert e H3. induction rest as [|l' rest IH]; intros e H3.
      - simpl in H3. apply Z.leb_le in H3. exact H3.
      - simpl in H3.
        destruct (Obj.num _ "start") as [s'|]; [|discriminate].
        destruct (Obj.num _ "end") as [e'|]; [|discriminate].
        rewrite !andb_true_iff in H3. destruct H3 as [[Ha Hb] Hc].
        apply Z.leb_le in Ha, Hb. specialize (IH e' Hc). lia. }
    inversion Hmod as [|? ? Hm Hrest]; subst.
    cbn [PlainText.elements]. rewrite Hs, He.
    unfold PlainText.shown. rewrite fmap_app, concat_strings_app, fmap_cons.
    cbn [Dom.concat_strings].
    fold (PlainText.shown (PlainText.elements st content (Some e) rest)).
    rewrite IH by (try assumption; lia).
    unfold PlainText.renderSpan. rewrite Hm, Hs, He.
    cbn [PlainText.segment_text]. unfold PlainText.substring.
    cbn [default from_option id].
    rewrite js_substring_join by lia.
    unfold PlainText.gt. destruct (s >? lo)%Z eqn:Hgt.
    + cbn [fmap list_fmap Dom.concat_strings PlainText.segment_text].
      unfold PlainText.substring. cbn [default from_option id].
      rewrite append_empty_r. apply js_substring_join; lia.
    + rewrite Z.gtb_ltb in Hgt. apply Z.ltb_ge in Hgt.
      assert (s = lo) as -> by lia. reflexivity.
Qed.

Lemma onClick_elements (st : Controller.state) (content : string)
    (spans : list Controller.loc) :
  forall lastIndex : option Z,
    omap (fun s => match s with
                   | PlainText.highlight _ _ _ _ l => Some l
                   | PlainText.plain _ _ => None
                   end)
         (PlainText.elements st content lastIndex spans)
    = spans.
Proof.
  induction spans as [|l rest IH]; intros lastIndex.
  - simpl. destruct (PlainText.lt _ _); reflexivity.
  - cbn [PlainText.elements]. rewrite omap_app.
    destruct (PlainText.gt _ _); simpl; rewrite IH; reflexivity.
Qed.


(** Sorting spans that do not overlap separates them. *)
Lemma separated_insert (h : Controller.heap) (hi : Z) (x : Controller.loc)
    (sx ex : Z) (L : list Controller.loc) :
  Obj.num (Controller.obj_at h x) "start" = Some sx ->
  Obj.num (Controller.obj_at h x) "end" = Some ex ->
  sx < ex <= hi ->
  Forall (fun y => span_in_text h hi y = true) L ->
  forallb (spans_apart h x) L = true ->
  forall lo : Z,
    lo <= sx ->
    separated h lo hi L = true ->
    separated h lo hi (PlainText.insert h x L) = true.
Proof.
  intros Hsx Hex Hx Hin Hap.
  induction L as [|y L IH]; intros lo Hlo Hsep.
  - simpl. rewrite Hsx, Hex. rewrite !andb_true_iff, !Z.leb_le. lia.
  - inversion Hin as [|? ? Hy HL]; subst.
    simpl in Hap. apply andb_true_iff in Hap as [Hxy HapL].
    unfold spans_apart in Hxy. rewrite Hsx, Hex in Hxy.
    unfold span_in_text in Hy.
    simpl in Hsep.
    destruct (Obj.num (Controller.obj_at h y) "start") as [sy|] eqn:Hsy;
      [|discriminate].
    destruct (Obj.num (Controller.obj_at h y) "end") as [ey|] eqn:Hey;
      [|discriminate].
    rewrite !andb_true_iff in Hsep, Hy. destruct Hsep as [[H1 H2] H3].
    destruct Hy as [[Hy1 Hy2] Hy3].
    apply Z.leb_le in H1, H2, Hy1, Hy3. apply Z.ltb_lt in Hy2.
    apply orb_true_iff in Hxy.
    rewrite !Z.leb_le in Hxy.
    cbn [PlainText.insert]. unfold PlainText.start_le. rewrite Hsx, Hsy.
    destruct (sx - sy <=? 0)%Z eqn:Hle.
    + apply Z.leb_le in Hle.
      cbn [separated]. rewrite Hsx, Hex, Hsy, Hey.
      rewrite !andb_true_iff, !Z.leb_le. repeat split; try lia. exact H3.
    + apply Z.leb_gt in Hle.
      cbn [separated]. rewrite Hsy, Hey.
      rewrite !andb_true_iff, !Z.leb_le. repeat split; try lia.
      apply IH; try assumption. lia.
Qed.

Lemma insert_elem (h : Controller.heap) (x y : Controller.loc)
    (L : list Controller.loc) :
  y ∈ PlainText.insert h x L -> y = x \/ y ∈ L.
Proof.
  induction L as [|z L IH]; simpl.
  - intros H. apply list_elem_of_singleton in H. left. exact H.
  - destruct (PlainText.start_le h x z).
    + intros H. apply elem_of_cons in H as [->|H]; [left; reflexivity|right; exact H].
    + intros H. apply elem_of_cons in H as [->|H].
      * right. left.
      * destruct (IH H) as [->|H']; [left; reflexivity|right; right; exact H'].
Qed.

Lemma sort_elem (h : Controller.heap) (y : Controller.loc)
    (l : list Controller.loc) :
  y ∈ PlainText.sort h l -> y ∈ l.
Proof.
  induction l as [|x l IH]; simpl; [auto|].
  intros H. apply insert_elem in H as [->|H]; [left|right; apply IH; exact H].
Qed.

Lemma separated_sort (h : Controller.heap) (hi : Z) (l : list Controller.loc) :
  0 <= hi ->
  forallb (span_in_text h hi) l = true ->
  spans_disjoint h l = true ->
  separated h 0 hi (PlainText.sort h l) = true.
Proof.
  intros Hhi. induction l as [|x l IH]; intros Hin Hdis.
  - simpl. apply Z.leb_le. exact Hhi.
  - simpl in Hin, Hdis. apply andb_true_iff in Hin as [Hx Hin].
    apply andb_true_iff in Hdis as [Hap Hdis].
    unfold span_in_text in Hx.
    destruct (Obj.num (Controller.obj_at h x) "start") as [sx|] eqn:Hsx;
      [|discriminate].
    destruct (Obj.num (Controller.obj_at h x) "end") as [ex|] eqn:Hex;
      [|discriminate].
    rewrite !andb_true_iff in Hx. destruct Hx as [[Hx1 Hx2] Hx3].
    apply Z.leb_le in Hx1, Hx3. apply Z.ltb_lt in Hx2.
    cbn [PlainText.sort fold_right].
    apply (separated_insert h hi x sx ex _ Hsx Hex); try lia.
    + apply Forall_forall. intros y Hy. apply sort_elem in Hy.
      rewrite forallb_forall in Hin. apply Hin. apply list_elem_of_In. exact Hy.
    + apply forallb_forall. intros y Hy. apply list_elem_of_In in Hy.
      apply sort_elem in Hy.
      rewrite forallb_forall in Hap. apply Hap. apply list_elem_of_In. exact Hy.
    + apply IH; assumption.
Qed.

End PlainTextFacts.

(** X16. When the spans of the selected prediction are non-empty ranges
    inside the email text, no two of them overlap, and the ledger holds no
    back-referenced correction of any of them, the plain-text rendering
    shows the email text exactly once (the pieces between the highlights
    and the highlights read, in order, as the text), with one highlight
    per span, whose click handler is given that span. *)
Theorem plain_text_shows_content :
  forall (st : Controller.state) (p : Controller.prediction)
         (emailContent : string),
    let spans :=
      Controller.array_at (Controller.store st) (Controller.evidence_spans p) in
    Controller.selectedPrediction st = Some p ->
    forallb (span_in_text (Controller.store st) (Js.len emailContent)) spans
    = true ->
    spans_disjoint (Controller.store st) spans = true ->
    Forall (fun l => PlainText.modifiedSpan st
                       (Controller.obj_at (Controller.store st) l) = None)
           spans ->
    PlainText.shown (PlainText.renderPlainTextWithSpans st emailContent)
    = emailContent
    /\ omap (fun s => match s with
                      | PlainText.highlight _ _ _ _ l => Some l
                      | PlainText.plain _ _ => None
                      end)
            (PlainText.renderPlainTextWithSpans st emailContent)
       = PlainText.sort (Controller.store st) spans.
Proof.
  intros st p content spans Hp Hin Hdis Hfd.
  assert (PlainText.sortedSpans st = PlainText.sort (Controller.store st) spans)
    as Hsorted by (unfold PlainText.sortedSpans; rewrite Hp; reflexivity).
  split.
  - unfold PlainText.renderPlainTextWithSpans.
    rewrite (shown_elements st content _ 0 ltac:(lia)).
    + apply js_substring_whole.
    + rewrite Hsorted. apply separated_sort; [apply js_len_nonneg|assumption..].
    + rewrite Hsorted. apply Forall_forall. intros l Hl.
      apply sort_elem in Hl. rewrite Forall_forall in Hfd. apply Hfd. exact Hl.
  - unfold PlainText.renderPlainTextWithSpans. rewrite onClick_elements.
    exact Hsorted.
Qed.

Lemma plain_text_shows_content_witness :
  let h :=
    {| Controller.objs :=
         [<["start" := VNum 6]> (<["end" := VNum 11]> ∅);
          <["start" := VNum 0]> (<["end" := VNum 5]> ∅)];
       Controller.arrays := [[O; 1%nat]] |} in
  let st :=
    Controller.run [Controller.select ledger_example_prediction]
      (Controller.init h) in
  PlainText.shown (PlainText.renderPlainTextWithSpans st "Hello world")
  = "Hello world"
  /\ omap (fun s => match s with
                    | PlainText.highlight _ _ _ _ l => Some l
                    | PlainText.plain _ _ => None
                    end)
          (PlainText.renderPlainTextWithSpans st "Hello world")
     = [1%nat; O].
Proof.
  intros h st.
  apply (plain_text_shows_content st ledger_example_prediction "Hello world");
    try reflexivity.
  repeat constructor.
Defined.

(** X17. After an edit of a plain-text span that appends a back-referenced
    correction (the list the edit works on held no entry with the offsets
    of the active span and no correction of it), the highlight of that
    span is rendered from the correction: it shows the correction's
    [new_text], which is the candidate's, so a candidate that carries no
    [new_text] leaves the highlight without text. *)
Theorem moved_plain_span_shows_new_text :
  forall (h0 : Controller.heap) (es : list Controller.event) (now : Z)
         (p : Controller.prediction) (cand : obj) (l : Controller.loc)
         (emailContent : string),
    heap_closed h0 = true ->
    let st := Controller.run es (Controller.init h0) in
    let st' := Controller.applySpanEdit false now st in
    let S := Controller.obj_at (Controller.store st) l in
    Controller.selectedPrediction st = Some p ->
    Controller.activeSpan st = Some (Controller.span_ref l) ->
    Controller.highlightedText st = Some cand ->
    (l < length (Controller.objs (Controller.store st)))%nat ->
    Controller.same_span false (Controller.store st) (Controller.span_ref l) S
    = true ->
    Controller.findIndex
      (Controller.same_span false (Controller.store st) (Controller.span_ref l))
      (Controller.working_list p st) = None ->
    List.find (Controller.corrects false S) (Controller.working_list p st)
    = None ->
    (exists e, PlainText.modifiedSpan st' S = Some e
               /\ e !! "id" = Some (VStr ("corrected-" ++ pretty now)))
    /\ PlainText.segment_text (PlainText.renderSpan st' emailContent l)
       = PlainText.child_text (cand !! "new_text").
Proof.
  intros h0 es now p cand l content Hc st st' S Hp Hact Hcand Hl Hself Hnone
    Hnocorr.
  destruct (applySpanEdit_ledger false now st p cand
              (ledger_inv_run h0 es Hc) Hp Hcand)
    as (Hled & _ & Hinv & Hp' & _ & (o & Hobjs)).
  fold st' in Hled, Hinv, Hp', Hobjs.
  rewrite Hact, Hnone in Hled.
  set (e := Controller.back_reference false (Controller.store st)
              (Controller.span_ref l) now cand) in *.
  assert (Controller.obj_at (Controller.store st') l = S) as HS.
  { unfold Controller.obj_at. rewrite Hobjs, lookup_app_l by exact Hl.
    reflexivity. }
  assert (Controller.corrects false S e = true) as Hcorr.
  { subst e. unfold Controller.back_reference, Controller.corrects,
      Controller.same_span, Controller.read_active in *.
    fold S in Hself |- *.
    rewrite !andb_true_iff in Hself. destruct Hself as [H1 H2].
    rewrite !andb_true_iff. split.
    - rewrite !lookup_set_prop_ne by discriminate.
      rewrite lookup_set_prop_eq. exact H1.
    - rewrite lookup_set_prop_eq. exact H2. }
  assert (PlainText.modifiedSpan st' S = Some e) as Hmod.
  { unfold PlainText.modifiedSpan. rewrite Hp'.
    unfold Controller.ledger_spans in Hled.
    destruct (Controller.feedbackData st' !! Controller.prediction_id p)
      as [c|]; [|destruct (Controller.working_list p st); discriminate Hled].
    rewrite Hled, find_app_first, Hnocorr. cbn [List.find]. rewrite Hcorr.
    reflexivity. }
  split.
  - exists e. split; [exact Hmod|]. subst e. unfold Controller.back_reference.
    rewrite !lookup_set_prop_ne by discriminate. apply lookup_insert_eq.
  - unfold PlainText.renderSpan. rewrite HS, Hmod.
    cbn [PlainText.segment_text]. f_equal. subst e.
    unfold Controller.back_reference.
    rewrite !lookup_set_prop_ne by discriminate.
    apply lookup_insert_ne. discriminate.
Qed.

Lemma moved_plain_span_shows_new_text_witness :
  let st :=
    plain_example_session
      (plain_example_edit 14 100
       ++ [Controller.click_plain false O;
           Controller.set_highlighted
             (Some (<["start" := VNum 15]> plain_example_span))])%list in
  PlainText.segment_text
    (PlainText.renderSpan (Controller.applySpanEdit false 200 st)
       "Good morning, please provide an update on my trade." O)
  = "".
Proof.
  intros st.
  destruct (moved_plain_span_shows_new_text
              {| Controller.objs := [plain_example_span];
                 Controller.arrays := [[O]] |}
              (Controller.select ledger_example_prediction
               :: plain_example_edit 14 100
               ++ [Controller.click_plain false O;
                   Controller.set_highlighted
                     (Some (<["start" := VNum 15]> plain_example_span))])%list
              200 ledger_example_prediction
              (<["start" := VNum 15]> plain_example_span) O
              "Good morning, please provide an update on my trade.")
    as [_ H]; try reflexivity; try (vm_compute; lia); exact H.
Defined.

(** ** Selection Capture: the path of the selected node *)

Section CaptureFacts.

Local Open Scope list_scope.

Lemma chars_app (a b : string) : list_ascii_of_string (a ++ b)%string = list_ascii_of_string a ++ list_ascii_of_string b.
Proof.
  induction a as [|c a IH]; [reflexivity|].
  change (list_ascii_of_string (String c (a ++ b)%string) = c :: (list_ascii_of_string a ++ list_ascii_of_string b)).
  simpl. rewrite IH. reflexivity.
Qed.

Lemma split_slash_cons (s : string) :
  exists x r, XPath.split_slash s = x :: r.
Proof.
  induction s as [|c s IH]; [eexists _, _; reflexivity|].
  cbn [XPath.split_slash]. destruct (Ascii.eqb c "/"); [eexists _, _; reflexivity|].
  destruct IH as (x & r & ->). eexists _, _; reflexivity.
Qed.

Lemma split_slash_app (w s x : string) (r : list string) :
  Forall (fun c => Ascii.eqb c "/" = false) (list_ascii_of_string w) ->
  XPath.split_slash s = x :: r ->
  XPath.split_slash (w ++ s) = (w ++ x)%string :: r.
Proof.
  intros Hw Hs. induction w as [|c w IH].
  - exact Hs.
  - inversion Hw as [|? ? Hc Hw']; subst.
    change (String c w ++ s)%string with (String c (w ++ s)%string).
    cbn [XPath.split_slash]. rewrite Hc, (IH Hw'). reflexivity.
Qed.

Lemma split_slash_noslash (w : string) :
  Forall (fun c => Ascii.eqb c "/" = false) (list_ascii_of_string w) ->
  XPath.split_slash w = [w].
Proof.
  intros Hw. rewrite <- (append_empty_r w) at 1.
  rewrite (split_slash_app w "" "" [] Hw eq_refl).
  rewrite append_empty_r. reflexivity.
Qed.

Lemma take_name_app (t rest : string) :
  Forall (fun c => XPath.is_name_char c = true) (list_ascii_of_string t) ->
  match rest with
  | String c _ => XPath.is_name_char c = false
  | EmptyString => True
  end ->
  XPath.take_name (t ++ rest) = (t, rest).
Proof.
  intros Ht Hrest. induction t as [|c t IH].
  - change ("" ++ rest)%string with rest.
    destruct rest as [|c r]; [reflexivity|]. simpl. rewrite Hrest. reflexivity.
  - inversion Ht as [|? ? Hc Ht']; subst.
    change (String c t ++ rest)%string with (String c (t ++ rest)%string).
    cbn [XPath.take_name]. rewrite Hc, (IH Ht'). reflexivity.
Qed.

Lemma take_digits_app (d rest : string) :
  Forall (fun c => Resolver.is_digit c = true) (list_ascii_of_string d) ->
  match rest with
  | String c _ => Resolver.is_digit c = false
  | EmptyString => True
  end ->
  Resolver.take_digits (d ++ rest) = (d, rest).
Proof.
  intros Hd Hrest. induction d as [|c d IH].
  - change ("" ++ rest)%string with rest.
    destruct rest as [|c r]; [reflexivity|]. simpl. rewrite Hrest. reflexivity.
  - inversion Hd as [|? ? Hc Hd']; subst.
    change (String c d ++ rest)%string with (String c (d ++ rest)%string).
    cbn [Resolver.take_digits]. rewrite Hc, (IH Hd'). reflexivity.
Qed.

Lemma pretty_N_char_digit (d : N) : Resolver.is_digit (pretty_N_char d) = true.
Proof.
  unfold pretty_N_char. destruct d as [|p]; [reflexivity|].
  destruct p as [p|p|]; try reflexivity;
    destruct p as [p|p|]; try reflexivity;
    destruct p as [p|p|]; try reflexivity;
    destruct p as [p|p|]; reflexivity.
Qed.

Lemma pretty_N_go_digits (x : N) :
  forall s : string,
    Forall (fun c => Resolver.is_digit c = true) (list_ascii_of_string s) ->
    Forall (fun c => Resolver.is_digit c = true) (list_ascii_of_string (pretty_N_go x s)).
Proof.
  induction (N.lt_wf_0 x) as [x _ IH]. intros s Hs.
  destruct (decide (x = 0%N)) as [->|Hx]; [exact Hs|].
  rewrite pretty_N_go_step by lia.
  apply IH; [apply N.div_lt; lia|].
  constructor; [apply pretty_N_char_digit|exact Hs].
Qed.

Lemma pretty_nat_digits (n : nat) :
  Forall (fun c => Resolver.is_digit c = true) (list_ascii_of_string (pretty n))
  /\ pretty n <> "".
Proof.
  unfold pretty, pretty_nat, pretty, pretty_N.
  destruct (decide (N.of_nat n = 0%N)) as [Hz|Hz].
  - split; [repeat constructor|discriminate].
  - split; [apply pretty_N_go_digits; constructor|].
    destruct (pretty_N_go_head (N.of_nat n) "" ltac:(lia)) as (d & r & _ & ->).
    discriminate.
Qed.

Lemma parseInt_step (c : ascii) (s : string) (acc : N) :
  fold_left (fun acc c => (10 * acc + N.of_nat (nat_of_ascii c - 48))%N)
    (list_ascii_of_string (String c s)) acc
  = fold_left (fun acc c => (10 * acc + N.of_nat (nat_of_ascii c - 48))%N)
      (list_ascii_of_string s) (10 * acc + N.of_nat (nat_of_ascii c - 48))%N.
Proof. reflexivity. Qed.

Lemma pretty_N_char_value (d : N) :
  (d < 10)%N -> N.of_nat (nat_of_ascii (pretty_N_char d) - 48) = d.
Proof.
  intros H.
  assert (d = 0 \/ d = 1 \/ d = 2 \/ d = 3 \/ d = 4 \/ d = 5 \/ d = 6
          \/ d = 7 \/ d = 8 \/ d = 9)%N as Hd by lia.
  repeat (destruct Hd as [->|Hd]; [reflexivity|]). subst d. reflexivity.
Qed.

Lemma parseInt_pretty_go (x : N) :
  forall s : string,
    fold_left (fun acc c => (10 * acc + N.of_nat (nat_of_ascii c - 48))%N)
      (list_ascii_of_string (pretty_N_go x s)) 0%N
    = fold_left (fun acc c => (10 * acc + N.of_nat (nat_of_ascii c - 48))%N)
        (list_ascii_of_string s) x.
Proof.
  induction (N.lt_wf_0 x) as [x _ IH]. intros s.
  destruct (decide (x = 0%N)) as [->|Hx]; [reflexivity|].
  rewrite pretty_N_go_step by lia.
  rewrite IH by (apply N.div_lt; lia).
  rewrite parseInt_step.
  rewrite pretty_N_char_value by (apply N.mod_lt; lia).
  f_equal. pose proof (N.div_mod x 10 ltac:(lia)). lia.
Qed.

(** The digits-only [parseInt] of the resolver reads back a numeral. *)
Lemma resolver_parseInt_pretty (n : nat) :
  Resolver.parseInt (pretty n) = N.of_nat n.
Proof.
  unfold Resolver.parseInt, pretty, pretty_nat, pretty, pretty_N.
  destruct (decide (N.of_nat n = 0%N)) as [Hz|Hz].
  - rewrite Hz. reflexivity.
  - apply (parseInt_pretty_go (N.of_nat n) "").
Qed.

Lemma name_char_not_slash (c : ascii) :
  XPath.is_name_char c = true -> Ascii.eqb c "/" = false.
Proof.
  intros H. destruct (Ascii.eqb_spec c "/") as [->|]; [discriminate H|reflexivity].
Qed.

Lemma digit_not_slash (c : ascii) :
  Resolver.is_digit c = true -> Ascii.eqb c "/" = false.
Proof.
  intros H. destruct (Ascii.eqb_spec c "/") as [->|]; [discriminate H|reflexivity].
Qed.

Lemma name_ok_chars (t : string) :
  name_ok t = true ->
  t <> "" /\ Forall (fun c => XPath.is_name_char c = true) (list_ascii_of_string t).
Proof.
  unfold name_ok. intros H. apply andb_true_iff in H as [Hne Hall].
  split.
  - intros ->. discriminate Hne.
  - apply Forall_forall. intros c Hc. rewrite forallb_forall in Hall.
    apply Hall. apply list_elem_of_In. exact Hc.
Qed.

(** One step as a string without the leading slash, and what the
    evaluator reads in it. *)
Lemma parse_step_segment (t : string) (k : nat) :
  name_ok t = true ->
  let seg := (t ++ "[" ++ pretty k ++ "]")%string in
  Forall (fun c => Ascii.eqb c "/" = false) (list_ascii_of_string seg)
  /\ XPath.parse_step seg = Some (t, Some (N.of_nat k)).
Proof.
  intros Ht seg. destruct (name_ok_chars t Ht) as [Hne Hname].
  destruct (pretty_nat_digits k) as [Hdig Hdne].
  split.
  - subst seg. rewrite !chars_app. rewrite !Forall_app. repeat split.
    + eapply Forall_impl; [exact Hname|]. intros c. apply name_char_not_slash.
    + repeat constructor.
    + eapply Forall_impl; [exact Hdig|]. intros c. apply digit_not_slash.
    + repeat constructor.
  - unfold XPath.parse_step. subst seg.
    rewrite (take_name_app t _ Hname) by reflexivity.
    rewrite (eqb_empty_false t Hne).
    change ("[" ++ pretty k ++ "]")%string with (String "[" (pretty k ++ "]")).
    cbv iota beta.
    rewrite (take_digits_app (pretty k) "]" Hdig) by reflexivity.
    rewrite (eqb_empty_false _ Hdne).
    change ("]" =? "]")%string with true. cbv iota.
    rewrite resolver_parseInt_pretty. reflexivity.
Qed.

Lemma filter_imap_position {B} (P : node -> bool) (f : nat -> node -> B)
    (kids : list node) (i : nat) (k : node) :
  kids !! i = Some k -> P k = true ->
  List.filter (fun c => P (snd c)) (imap (fun j x => (f j x, x)) kids)
    !! length (List.filter P (take i kids))
  = Some (f i k, k).
Proof.
  revert f i. induction kids as [|x kids IH]; intros f i Hi Hk; [discriminate|].
  destruct i as [|i].
  - injection Hi as ->. simpl. rewrite Hk. reflexivity.
  - cbn [imap List.filter take snd]. destruct (P x); simpl.
    + apply (IH (fun j => f (S j)) i Hi Hk).
    + apply (IH (fun j => f (S j)) i Hi Hk).
Qed.

Lemma eval_steps_app (sts : list (string * option N))
    (c1 c2 : list (Dom.path * node)) :
  XPath.eval_steps sts (c1 ++ c2)
  = XPath.eval_steps sts c1 ++ XPath.eval_steps sts c2.
Proof.
  revert c1 c2. induction sts as [|st sts IH]; intros c1 c2; [reflexivity|].
  cbn [XPath.eval_steps]. rewrite flat_map_app. apply IH.
Qed.

(** The steps built for the path [q] below [n]: they split and parse, and
    evaluated from [n] they select the node at [q] and nothing else. *)
Lemma steps_eval (q : Dom.path) :
  forall (n target : node),
    names_ok n q = true ->
    Dom.get n q = Some target ->
    exists segs sts,
      XPath.split_slash (Capture.steps n q) = "" :: segs
      /\ XPath.parse_steps segs = Some sts
      /\ forall pfx, XPath.eval_steps sts [(pfx, n)] = [(pfx ++ q, target)].
Proof.
  induction q as [|i q IH]; intros n target Hok Hg.
  - injection Hg as <-. exists [], []. repeat split.
    intros pfx. rewrite app_nil_r. reflexivity.
  - destruct n as [s|tn an kids]; [discriminate|].
    cbn [names_ok] in Hok. cbn [Dom.get] in Hg.
    destruct (kids !! i) as [[s|t a ks]|] eqn:Hk; try discriminate.
    apply andb_true_iff in Hok as [Ht Hok].
    destruct (IH (Elem t a ks) target Hok Hg) as (segs' & sts' & Hsplit & Hparse & Heval).
    set (pos := Capture.position kids i t).
    destruct (parse_step_segment t pos Ht) as [Hns Hps].
    exists ((t ++ "[" ++ pretty pos ++ "]")%string :: segs'),
      ((t, Some (N.of_nat pos)) :: sts').
    split; [|split].
    + cbn [Capture.steps]. rewrite Hk. unfold Capture.step. rewrite Hk.
      fold pos.
      change (("/" ++ t ++ "[" ++ pretty pos ++ "]")
              ++ Capture.steps (Elem t a ks) q)%string
        with (String "/" ((t ++ "[" ++ pretty pos ++ "]")
                          ++ Capture.steps (Elem t a ks) q)%string).
      cbn [XPath.split_slash]. change (Ascii.eqb "/" "/") with true. cbv iota.
      rewrite (split_slash_app _ _ "" segs' Hns Hsplit).
      rewrite append_empty_r. reflexivity.
    + cbn [XPath.parse_steps]. rewrite Hps, Hparse. reflexivity.
    + intros pfx. cbn [XPath.eval_steps flat_map fst snd].
      rewrite app_nil_r. unfold XPath.select. cbn [fst snd].
      assert ((N.to_nat (N.of_nat pos) - 1)%nat
              = length (List.filter (XPath.has_tag t) (take i kids))) as Hidx
        by (subst pos; unfold Capture.position; lia).
      destruct (N.of_nat pos) as [|pp] eqn:Hpp;
        [subst pos; unfold Capture.position in Hpp; lia|].
      rewrite Hidx. unfold XPath.children.
      match goal with
      | |- context [match ?x with Some c => [c] | None => [] end] =>
          assert (x = Some (pfx ++ [i], Elem t a ks)) as ->
            by (apply (filter_imap_position (XPath.has_tag t)
                         (fun j _ => pfx ++ [j]) kids i (Elem t a ks) Hk);
                simpl; apply String.eqb_refl)
      end.
      rewrite Heval. rewrite <- app_assoc. reflexivity.
Qed.

Lemma filter_imap_first {B} (P Q : node -> bool) (f : nat -> node -> B)
    (kids : list node) (b : nat) (k : node) :
  (forall x, P x = true -> Q x = true) ->
  Controller.findIndex Q kids = Some b ->
  kids !! b = Some k -> P k = true ->
  exists rest,
    List.filter (fun c => P (snd c)) (imap (fun j x => (f j x, x)) kids)
    = (f b k, k) :: rest.
Proof.
  intros HPQ. revert f b. induction kids as [|x kids IH]; intros f b Hb Hk HP;
    [discriminate|].
  cbn [Controller.findIndex] in Hb. destruct (Q x) eqn:HQ.
  - injection Hb as <-. injection Hk as ->.
    cbn [imap List.filter snd]. rewrite HP. eexists; reflexivity.
  - destruct (Controller.findIndex Q kids) as [b'|] eqn:Hb'; [|discriminate].
    injection Hb as <-. cbn [imap List.filter snd].
    destruct (P x) eqn:HPx; [rewrite (HPQ x HPx) in HQ; discriminate|].
    apply (IH (fun j => f (S j)) b' eq_refl Hk HP).
Qed.

Lemma getXPathForNode_under_body (doc body : node) (b : nat) (q : Dom.path)
    (t : string) (a : list (string * string)) (ks : list node) :
  Capture.body_index doc = Some b ->
  Dom.get doc [b] = Some body ->
  Dom.get doc (b :: q) = Some (Elem t a ks) ->
  (t =? "html")%string = false -> (t =? "body")%string = false ->
  Capture.getXPathForNode doc (b :: q)
  = ("/html/body" ++ Capture.steps body q)%string.
Proof.
  intros Hb Hbody Hg Hh Hbd. unfold Capture.getXPathForNode.
  rewrite Hg. cbv beta iota zeta. rewrite Hg, Hh, Hbd, Hb, Nat.eqb_refl, Hbody.
  reflexivity.
Qed.


Lemma getXPathForNode_evaluates :
  forall (doc body : node) (b : nat) (q : Dom.path) (t : string)
         (a : list (string * string)) (ks : list node)
         (ctx : option Dom.path),
    XPath.has_tag "html" doc = true ->
    Capture.body_index doc = Some b ->
    Dom.get doc [b] = Some body ->
    XPath.has_tag "body" body = true ->
    Dom.get doc (b :: q) = Some (Elem t a ks) ->
    (t =? "html")%string = false ->
    (t =? "body")%string = false ->
    names_ok body q = true ->
    XPath.evaluate (Capture.getXPathForNode doc (b :: q)) doc ctx
    = Resolver.Hit (b :: q).
Proof.
  intros doc body b q t a ks ctx Hroot Hb Hbody Htag Hg Hh Hbd Hok.
  rewrite (getXPathForNode_under_body doc body b q t a ks Hb Hbody Hg Hh Hbd).
  assert (Dom.get body q = Some (Elem t a ks)) as Hgq.
  { destruct doc as [s|td ad kids]; [discriminate|].
    cbn [Dom.get] in Hbody, Hg. destruct (kids !! b) as [k|]; [|discriminate].
    injection Hbody as ->. exact Hg. }
  destruct (steps_eval q body (Elem t a ks) Hok Hgq)
    as (segs & sts & Hsplit & Hparse & Heval).
  unfold XPath.evaluate.
  change ("/html/body" ++ Capture.steps body q)%string
    with (String "/" ("html" ++ String "/" ("body" ++ Capture.steps body q)))%string.
  cbn [String.eqb Ascii.eqb Bool.eqb XPath.split_slash].
  cbv iota.
  assert (XPath.split_slash
            ("html" ++ String "/" ("body" ++ Capture.steps body q))%string
          = "html" :: "body" :: segs) as ->.
  { rewrite (split_slash_app "html" _ "" ("body" :: segs)).
    - reflexivity.
    - repeat constructor.
    - cbn [XPath.split_slash]. change (Ascii.eqb "/" "/") with true. cbv iota.
      rewrite (split_slash_app "body" _ "" segs); [reflexivity| |exact Hsplit].
      repeat constructor. }
  cbn [XPath.parse_steps].
  change (XPath.parse_step "html") with (Some ("html", @None N)).
  change (XPath.parse_step "body") with (Some ("body", @None N)).
  rewrite Hparse. cbv iota beta.
  unfold XPath.from_document, XPath.select at 1. cbn [fst snd List.filter].
  rewrite Hroot. cbn [XPath.eval_steps flat_map fst snd]. rewrite app_nil_r.
  unfold XPath.select. cbn [fst snd]. unfold XPath.children.
  destruct doc as [s|td ad kids]; [discriminate|].
  assert (kids !! b = Some body) as Hkb.
  { cbn [Dom.get] in Hbody. destruct (kids !! b); [exact Hbody|discriminate]. }
  unfold Capture.body_index in Hb. simpl in Hroot. rewrite Hroot in Hb.
  destruct (filter_imap_first (XPath.has_tag "body")
              (fun k => XPath.has_tag "body" k || XPath.has_tag "frameset" k)
              (fun j _ => ([] ++ [j])%list) kids b body) as (rest & Hrest); auto.
  { intros x Hx. rewrite Hx. reflexivity. }
  match goal with
  | |- XPath.first_hit (XPath.eval_steps sts ?l) = _ =>
      replace l with ([(([] ++ [b])%list, body)] ++ rest)%list
        by (symmetry; exact Hrest)
  end.
  rewrite eval_steps_app, Heval. reflexivity.
Qed.

Lemma getXPathForNode_text (doc : node) (p : Dom.path) (j : nat) (s : string) :
  Dom.get doc (p ++ [j]) = Some (Text s) ->
  Capture.getXPathForNode doc (p ++ [j]) = Capture.getXPathForNode doc p.
Proof.
  intros Hg. unfold Capture.getXPathForNode. rewrite Hg, removelast_last.
  rewrite get_app in Hg.
  destruct (Dom.get doc p) as [[s'|t a ks]|] eqn:Hp; try discriminate.
  cbv beta iota zeta. rewrite Hp. reflexivity.
Qed.

End CaptureFacts.

(** X18. Round trip of the captured path. In a document whose root is
    [html] and whose body is a [body] element, take an element below the
    body that is neither an [html] nor a [body] element, the names on the
    way to it being made of letters and digits. The path
    [getXPathForNode] builds for that element, or for a text node that is
    a child of it, is an absolute path that the reference evaluator of
    child steps resolves to that very element, whatever the context
    node. *)
Theorem getXPathForNode_round_trip :
  forall (doc body : node) (b : nat) (q : Dom.path) (t : string)
         (a : list (string * string)) (ks : list node)
         (ctx : option Dom.path) (p : Dom.path),
    XPath.has_tag "html" doc = true ->
    Capture.body_index doc = Some b ->
    Dom.get doc [b] = Some body ->
    XPath.has_tag "body" body = true ->
    Dom.get doc (b :: q) = Some (Elem t a ks) ->
    (t =? "html")%string = false ->
    (t =? "body")%string = false ->
    names_ok body q = true ->
    p = b :: q
    \/ (exists j s, p = ((b :: q) ++ [j])%list /\ Dom.get doc p = Some (Text s)) ->
    XPath.evaluate (Capture.getXPathForNode doc p) doc ctx
    = Resolver.Hit (b :: q).
Proof.
  intros doc body b q t a ks ctx p Hroot Hb Hbody Htag Hg Hh Hbd Hok Hp.
  destruct Hp as [->|(j & s & -> & Ht)].
  - eapply getXPathForNode_evaluates; eassumption.
  - rewrite (getXPathForNode_text doc (b :: q) j s Ht).
    eapply getXPathForNode_evaluates; eassumption.
Qed.

Lemma getXPathForNode_round_trip_witness :
  Capture.getXPathForNode resolver_example_doc [1; 1; 0; 0; 0; 0]%nat
  = "/html/body/div[2]/div[1]/div[1]/p[1]"
  /\ XPath.evaluate
       (Capture.getXPathForNode resolver_example_doc [1; 1; 0; 0; 0; 0]%nat)
       resolver_example_doc None
     = Resolver.Hit [1; 1; 0; 0; 0]%nat.
Proof.
  split; [reflexivity|].
  eapply (getXPathForNode_round_trip resolver_example_doc _ 1%nat
            [1; 0; 0; 0]%nat "p" [] [Text "mail text"] None);
    try reflexivity.
  right. exists O, "mail text". split; reflexivity.
Defined.

(** X19. [getXPathForNode] gives different elements different paths: two
    elements below the body of such a document with the same path are the
    same element. *)
Theorem getXPathForNode_injective :
  forall (doc body : node) (b : nat) (q1 q2 : Dom.path) (t1 t2 : string)
         (a1 a2 : list (string * string)) (ks1 ks2 : list node),
    XPath.has_tag "html" doc = true ->
    Capture.body_index doc = Some b ->
    Dom.get doc [b] = Some body ->
    XPath.has_tag "body" body = true ->
    Dom.get doc (b :: q1) = Some (Elem t1 a1 ks1) ->
    Dom.get doc (b :: q2) = Some (Elem t2 a2 ks2) ->
    (t1 =? "html")%string = false -> (t1 =? "body")%string = false ->
    (t2 =? "html")%string = false -> (t2 =? "body")%string = false ->
    names_ok body q1 = true -> names_ok body q2 = true ->
    Capture.getXPathForNode doc (b :: q1) = Capture.getXPathForNode doc (b :: q2) ->
    q1 = q2.
Proof.
  intros doc body b q1 q2 t1 t2 a1 a2 ks1 ks2 Hroot Hb Hbody Htag Hg1 Hg2
    Hh1 Hb1 Hh2 Hb2 Hok1 Hok2 Heq.
  pose proof (getXPathForNode_evaluates doc body b q1 t1 a1 ks1 None
                Hroot Hb Hbody Htag Hg1 Hh1 Hb1 Hok1) as H1.
  pose proof (getXPathForNode_evaluates doc body b q2 t2 a2 ks2 None
                Hroot Hb Hbody Htag Hg2 Hh2 Hb2 Hok2) as H2.
  rewrite Heq, H2 in H1. injection H1 as H1. symmetry. exact H1.
Qed.

Lemma getXPathForNode_injective_witness :
  [1; 0; 0; 0]%nat = [1; 0; 0; 0]%nat.
Proof.
  eapply (getXPathForNode_injective resolver_example_doc _ 1%nat
            [1; 0; 0; 0]%nat [1; 0; 0; 0]%nat "p" "p" [] []
            [Text "mail text"] [Text "mail text"]);
    reflexivity.
Defined.

(** ** Highlights placed by one application *)

Section PlacedFacts.

Local Open Scope list_scope.

Lemma is_evidence_span_createSpanElement (e : Overlay.env) (text : string)
    (isActive : bool) (spanId spanType : string) (fieldName : option string) :
  Dom.highlights
    (Overlay.createSpanElement e text isActive spanId spanType fieldName)
  = [text].
Proof.
  unfold Overlay.createSpanElement.
  match goal with
  | |- Dom.highlights (Elem ?t ?a ?k) = _ =>
      change (Dom.highlights (Elem t a k))
        with ((if Dom.is_evidence_span (Elem t a k)
               then [default "" (attr "data-span-text" a)] else [])
              ++ flat_map Dom.highlights k)
  end.
  unfold Dom.is_evidence_span, node_attr.
  cbn [attr String.eqb Ascii.eqb Bool.eqb].
  change ("evidence-span evidence-" ++ spanType ++ " "
          ++ (if isActive then "active" else ""))%string
    with ("evidence-span " ++ ("evidence-" ++ spanType ++ " "
          ++ (if isActive then "active" else "")))%string.
  rewrite prefix_app. cbn [default from_option id].
  destruct (Overlay.editMode e && isActive); reflexivity.
Qed.

Lemma highlights_elem (t : string) (a : list (string * string))
    (kids : list node) :
  Dom.highlights (Elem t a kids)
  = (if Dom.is_evidence_span (Elem t a kids)
     then [default "" (attr "data-span-text" a)] else [])
    ++ flat_map Dom.highlights kids.
Proof. reflexivity. Qed.

Lemma is_evidence_span_attrs (t : string) (a : list (string * string))
    (k k' : list node) :
  Dom.is_evidence_span (Elem t a k) = Dom.is_evidence_span (Elem t a k').
Proof. reflexivity. Qed.

Lemma flat_map_middle (kids : list node) (i : nat) (k : node) :
  kids !! i = Some k ->
  flat_map Dom.highlights kids
  = flat_map Dom.highlights (take i kids) ++ Dom.highlights k
    ++ flat_map Dom.highlights (drop (S i) kids).
Proof.
  intros Hk. rewrite <- (take_drop_middle kids i k Hk) at 1.
  rewrite flat_map_app. reflexivity.
Qed.

(** A splice of a text node adds the highlights of the nodes it puts in
    its place. *)
Lemma highlights_splice (i : nat) (q : Dom.path) (new : list node) (r : node)
    (s : string) :
  Dom.get r (i :: q) = Some (Text s) ->
  length (Dom.highlights (Dom.splice (i :: q) new r))
  = (length (Dom.highlights r) + length (flat_map Dom.highlights new))%nat.
Proof.
  revert i r. induction q as [|j q IH]; intros i r Hg;
    destruct r as [s'|t a kids]; try discriminate; cbn [Dom.get] in Hg.
  - destruct (kids !! i) as [k|] eqn:Hk; [|discriminate].
    injection Hg as ->. cbn [Dom.splice]. rewrite Hk.
    rewrite !highlights_elem.
    rewrite (is_evidence_span_attrs t a _ kids).
    rewrite (flat_map_middle kids i (Text s) Hk).
    rewrite !flat_map_app. cbn [Dom.highlights].
    rewrite !length_app. cbn [app length]. lia.
  - destruct (kids !! i) as [k|] eqn:Hk; [|discriminate].
    rewrite splice_deeper, Hk. rewrite !highlights_elem.
    rewrite (is_evidence_span_attrs t a _ kids).
    rewrite insert_take_drop by (eapply lookup_lt_Some; exact Hk).
    rewrite (flat_map_middle kids i k Hk).
    rewrite !flat_map_app. cbn [flat_map].
    rewrite !length_app. rewrite (IH j k Hg). lia.
Qed.

Lemma highlights_highlightOne (b : Render.browser) (v : Render.view)
    (element : Dom.path) (doc : node) (index : nat) (span : obj) :
  (length (Dom.highlights (Render.highlightOne b v element doc index span))
   <= S (length (Dom.highlights doc)))%nat.
Proof.
  unfold Render.highlightOne.
  destruct (Render.highlightPlan b v element doc index span) as [[tp new]|] eqn:Hp;
    [|lia].
  unfold Render.highlightPlan in Hp.
  destruct (Resolver.resolve _ span) as [target|]; [|discriminate].
  destruct (Dom.get doc target) as [targetElement|]; [|discriminate].
  destruct (Dom.findFirstTextNode targetElement) as [rel|]; [|discriminate].
  destruct (Dom.get doc (target ++ rel)) as [[tc|? ? ?]|] eqn:Hg;
    try discriminate.
  destruct (Locator.locate tc span) as [[x y]|]; [|discriminate].
  injection Hp as <- <-.
  destruct (target ++ rel) as [|i q] eqn:Hpath.
  - destruct doc; cbn [Dom.splice]; lia.
  - rewrite (highlights_splice i q _ doc tc Hg).
    cbn [flat_map Dom.highlights].
    rewrite is_evidence_span_createSpanElement. cbn [app length]. lia.
Qed.

End PlacedFacts.

(** X20. One application of [applyHighlights] adds at most one highlight
    element per span to the document. *)
Theorem applyHighlights_one_highlight_per_span :
  forall (b : Render.browser) (v : Render.view) (element : Dom.path)
         (spans : list obj) (doc : node),
    (length (Dom.highlights (Render.applyHighlights b v element spans doc))
     <= length (Dom.highlights doc) + length spans)%nat.
Proof.
  intros b v element spans. unfold Render.applyHighlights. generalize O.
  induction spans as [|span rest IH]; intros index doc; [simpl; lia|].
  cbn [Render.applyHighlights_from length].
  specialize (IH (S index) (Render.highlightOne b v element doc index span)).
  pose proof (highlights_highlightOne b v element doc index span). lia.
Qed.

(** X21. Whenever a span whose declared text occurs in the text node it
    is placed in gets its highlight, the highlight element shows exactly
    the declared text, between the text before and after it, wherever the
    declared offsets point. *)
Theorem placed_highlight_shows_declared_text :
  forall (b : Render.browser) (v : Render.view) (element : Dom.path)
         (doc : node) (index : nat) (span : obj) (textNode : Dom.path)
         (new : list node) (t textContent : string),
    Render.highlightPlan b v element doc index span = Some (textNode, new) ->
    span !! "text" = Some (VStr t) ->
    t <> "" ->
    Dom.get doc textNode = Some (Text textContent) ->
    Js.includes textContent t = true ->
    exists before highlight after,
      new = [Text before; highlight; Text after]
      /\ Dom.textContent highlight = t
      /\ node_attr "data-span-text" highlight = Some t
      /\ textContent = (before ++ t ++ after)%string.
Proof.
  intros b v element doc index span tp new t tc Hp Ht Hne Hg Hinc.
  unfold Render.highlightPlan in Hp.
  destruct (Resolver.resolve _ span) as [target|]; [|discriminate].
  destruct (Dom.get doc target) as [targetElement|]; [|discriminate].
  destruct (Dom.findFirstTextNode targetElement) as [rel|]; [|discriminate].
  destruct (Dom.get doc (target ++ rel)%list) as [[tc'|? ? ?]|] eqn:Hg';
    try discriminate.
  destruct (Locator.locate tc' span) as [[x y]|] eqn:Hl; [|discriminate].
  injection Hp as <- <-. rewrite Hg' in Hg. injection Hg as ->.
  assert (Locator.locate tc span
          = Some (Js.indexOf tc t, Js.indexOf tc t + Js.len t)
          /\ Js.substring tc (Js.indexOf tc t) (Js.indexOf tc t + Js.len t) = t)
    as [Hloc Hsub].
  { destruct (indexOf_in_range tc t Hinc) as [Hle Hsub].
    pose proof (includes_indexOf tc t Hinc) as Hge.
    assert (0 < Js.len t) as Hlen
      by (unfold Js.len; destruct t; [contradiction|simpl; lia]).
    split; [|exact Hsub].
    rewrite (locate_of_search tc span t (Js.indexOf tc t)
               (Js.indexOf tc t + Js.len t) Ht).
    - replace ((Js.indexOf tc t >=? Js.indexOf tc t + Js.len t)
               || (Js.indexOf tc t + Js.len t <=? 0)
               || (Js.indexOf tc t + Js.len t >? Js.len tc))%Z with false;
        [reflexivity|].
      symmetry. rewrite !orb_false_iff.
      rewrite Z.geb_leb, Z.gtb_ltb, !Z.leb_gt, Z.ltb_ge. lia.
    - intros r. unfold Locator.search.
      rewrite (eqb_empty_false t Hne), Hinc. reflexivity. }
  rewrite Hloc in Hl. injection Hl as <- <-.
  destruct (locate_in_bounds tc span _ _ Hloc) as (_ & _ & Hpart).
  rewrite Hsub in *.
  eexists _, _, _. split; [reflexivity|].
  split; [apply textContent_createSpanElement|].
  split; [reflexivity|].
  symmetry. exact Hpart.
Qed.

Lemma placed_highlight_shows_declared_text_witness :
  let doc := host_page (Elem "div" [] []) in
  exists before highlight after,
    Render.highlightPlan example_browser (example_view "" []) [1; 1]%nat doc O
      stray_span
    = Some ([1; 0; 0]%nat, [Text before; highlight; Text after])
    /\ Dom.textContent highlight = "Hello"
    /\ "Hello world" = (before ++ "Hello" ++ after)%string.
Proof.
  intros doc.
  destruct (placed_highlight_shows_declared_text example_browser
              (example_view "" []) [1; 1]%nat doc O stray_span [1; 0; 0]%nat
              _ "Hello" "Hello world" eq_refl eq_refl)
    as (before & hl & after & Hnew & Htc & _ & Hsplit);
    try reflexivity; try discriminate.
  exists before, hl, after. rewrite <- Hnew. repeat split; assumption.
Defined.
